(** * Interfaz-CanSat: the telemetry simulator ([telemetry_simulator.py])

    A shallow embedding of [TelemetrySimulator] (its constructor, [reset]
    and [get_next]) and the properties its specification states about it.

    Modelling conventions.
    - In parts one to three Python floats are idealised as real numbers
      ([R]): [+], [*], [/], [np.sin] and [np.exp] are the exact real
      operations, so rounding is not part of these models.  Part four
      ([Axes]) writes the part of the program that computes the clock and
      the time axes over any arithmetic and reads it in binary64 and in
      the reals with rounded operations; what the specification says
      about exact increments of the clock and of the g-force time axis is
      settled there.
    - A NumPy one-dimensional array is a [list R]; negative indices, the
      [IndexError] of an out-of-range access, [np.roll], [np.linspace] and
      [np.zeros_like] are written out.
    - [np.random.normal] reads the next variate of an explicit random
      source which is threaded through the calls.
    - Part one ([TelemetrySimulator] with value semantics) is used for the
      numeric and shape properties.  Part two ([Heap]) keeps the arrays in
      a store of mutable objects addressed by references, as Python does,
      and is used for the aliasing property; a simulation lemma relates the
      two.
    - Part three ([MissionControl]) is the control loop of
      [cansat_mission_control.py] around the simulator: the handlers of
      the window, with the widgets reduced to the values they show. *)

From Stdlib Require Import PrimFloat.
From Stdlib Require Uint63.
From Stdlib Require Import Reals Lra Lia List ZArith Sorted String.
From stdpp Require Import gmap list.

Open Scope R_scope.
Set Warnings "-clear-no-such-hyp".
Set Warnings "-inexact-float".

(** * Python and NumPy primitives *)

Inductive exn : Type := IndexError.

Inductive result (A : Type) : Type :=
| Ok (a : A)
| Raise (e : exn).
Arguments Ok {A} a.
Arguments Raise {A} e.

(** A one-dimensional [float64] array. *)
Abbreviation ndarray := (list R).

(** Index normalisation of [a[i]]: a negative index counts from the end,
    anything outside [0 <= j < n] raises [IndexError]. *)
Definition normalize_index (n : nat) (i : Z) : result nat :=
  let j := if (i <? 0)%Z then (i + Z.of_nat n)%Z else i in
  if ((0 <=? j)%Z && (j <? Z.of_nat n)%Z)%bool then Ok (Z.to_nat j)
  else Raise IndexError.

(** [a[i]] *)
Definition getitem (a : ndarray) (i : Z) : result R :=
  match normalize_index (length a) i with
  | Ok j => match a !! j with
            | Some x => Ok x
            | None => Raise IndexError
            end
  | Raise e => Raise e
  end.

(** [a[i] = v], as the array that results *)
Definition setitem (a : ndarray) (i : Z) (v : R) : result ndarray :=
  match normalize_index (length a) i with
  | Ok j => Ok (<[j:=v]> a)
  | Raise e => Raise e
  end.

(** [np.roll(a, shift)]: [result[i] = a[(i - shift) mod n]]. *)
Definition np_roll (a : ndarray) (shift : Z) : ndarray :=
  match a with
  | [] => []
  | _ => let k := Z.to_nat ((- shift) mod Z.of_nat (length a)) in
         skipn k a ++ firstn k a
  end.

(** [np.arange(0, num)] as floats *)
Definition np_arange (num : nat) : ndarray := map INR (seq 0 num).

(** [np.linspace(start, stop, num)] with [endpoint=True], following
    NumPy's [function_base.linspace]: the samples are [i * step + start],
    and the last one is overwritten with [stop]. *)
Definition np_linspace (start stop : R) (num : nat) : ndarray :=
  let div := (num - 1)%nat in
  let delta := stop - start in
  let y := np_arange num in
  let y :=
    if (0 <? div)%nat then
      let step := delta / INR div in
      if Req_dec_T step 0
      then map (fun i => i / INR div * delta) y
      else map (fun i => i * step) y
    else map (fun i => i * delta) y in
  let y := map (fun v => v + start) y in
  if (1 <? num)%nat then <[div:=stop]> y else y.

(** [np.zeros_like(a)] *)
Definition np_zeros_like (a : ndarray) : ndarray := repeat 0 (length a).

(** The builtins [max(a, b)] and [min(a, b)] on two arguments: the first
    argument is kept unless the second is strictly greater (smaller). *)
Definition py_max (a b : R) : R := if Rlt_dec a b then b else a.
Definition py_min (a b : R) : R := if Rlt_dec b a then b else a.

(** [x % m] on floats, for a positive modulus: [x - m * floor(x / m)]. *)
Definition py_mod (x m : R) : R := x - m * IZR (Int_part (x / m)).

(** ** The random source

    [np.random] is a global generator.  Its state is the sequence of
    standard normal variates it is going to produce and the position in
    it; seeding chooses the sequence. *)
Record RandomState : Type := mkRandomState {
  variates : nat -> R;
  position : nat
}.

(** Computations that read and update a state [S] (the random source, or
    the random source with the store of arrays) and may raise. *)
Definition M (S A : Type) : Type := S -> result (A * S).

Definition ret {S A} (a : A) : M S A := fun s => Ok (a, s).

Definition bind {S A B} (m : M S A) (k : A -> M S B) : M S B :=
  fun s => match m s with
           | Ok (a, s') => k a s'
           | Raise e => Raise e
           end.

Definition lift {S A} (r : result A) : M S A :=
  fun s => match r with
           | Ok a => Ok (a, s)
           | Raise e => Raise e
           end.

Notation "x <- m ;; k" := (bind m (fun x => k))
  (at level 100, m at next level, right associativity).

(** [np.random.normal(loc, scale)]: [loc + scale * z] for the next standard
    normal variate [z]. *)
Definition np_random_normal (loc scale : R) : M RandomState R :=
  fun g => Ok (loc + scale * variates g (position g),
               mkRandomState (variates g) (S (position g))).

(** The source "seeded to emit zero noise". *)
Definition zero_noise : RandomState := mkRandomState (fun _ => 0) 0.

(** * Part one: [TelemetrySimulator] with value semantics *)

Module Packet.
(** The dictionary returned by [get_next], one field per key. *)
Record t : Type := mk {
  pressure : R;
  temperature : R;
  altitude : R;
  altitude_rate : R;
  latency : R;
  velocity_time : ndarray;
  velocity_data : ndarray;
  gforce_time : ndarray;
  gforce_data : ndarray;
  new_velocity : R;
  new_gforce : R
}.
End Packet.

Record TelemetrySimulator : Type := mkSim {
  elapsed_seconds : R;
  velocity_time : ndarray;
  velocity_data : ndarray;
  gforce_time : ndarray;
  gforce_data : ndarray
}.

Definition __init__ : TelemetrySimulator :=
  let velocity_time := np_linspace (-120) 0 100 in
  let gforce_time := np_linspace (-1.5) 4.0 100 in
  {| elapsed_seconds := 0.0;
     velocity_time := velocity_time;
     velocity_data := np_zeros_like velocity_time;
     gforce_time := gforce_time;
     gforce_data := np_zeros_like gforce_time |}.

Definition reset (self : TelemetrySimulator) : TelemetrySimulator :=
  let velocity_time := np_linspace (-120) 0 100 in
  let gforce_time := np_linspace (-1.5) 4.0 100 in
  {| elapsed_seconds := 0.0;
     velocity_time := velocity_time;
     velocity_data := np_zeros_like velocity_time;
     gforce_time := gforce_time;
     gforce_data := np_zeros_like gforce_time |}.

Definition get_next (self : TelemetrySimulator) (dt : R)
  : M RandomState (TelemetrySimulator * Packet.t) :=
  let elapsed_seconds := elapsed_seconds self + dt in
  (* sensores *)
  n <- np_random_normal 0 0.1 ;;
  let pressure := 101.3 + sin (elapsed_seconds / 10) * 2 + n in
  n <- np_random_normal 0 0.2 ;;
  let temperature := 24.8 + sin (elapsed_seconds / 15 + 1) * 3 + n in
  let altitude :=
    1245.8 + elapsed_seconds * 2.5 + sin (elapsed_seconds / 8) * 50 in
  let altitude_rate := 12.4 + sin (elapsed_seconds / 7) * 8 in
  n <- np_random_normal 0 3 ;;
  let latency := 24 + n in
  let latency := py_max 10 (py_min 100 latency) in
  (* velocidad *)
  n <- np_random_normal 0 1 ;;
  let new_velocity := 15 + 10 * sin (elapsed_seconds / 20) + n in
  let new_velocity := py_max 0 new_velocity in
  let velocity_data := np_roll (velocity_data self) (-1) in
  velocity_data <- lift (setitem velocity_data (-1) new_velocity) ;;
  (* g-force *)
  let gforce_time := np_roll (gforce_time self) (-1) in
  prev <- lift (getitem gforce_time (-2)) ;;
  gforce_time <- lift (setitem gforce_time (-1) (prev + 0.055)) ;;
  n <- np_random_normal 0 0.3 ;;
  let new_gforce :=
    2 + 3 * exp (- ((py_mod elapsed_seconds 30 - 15) ^ 2) / 50) + n in
  let new_gforce := py_max 0 new_gforce in
  let gforce_data := np_roll (gforce_data self) (-1) in
  gforce_data <- lift (setitem gforce_data (-1) new_gforce) ;;
  ret ({| elapsed_seconds := elapsed_seconds;
          velocity_time := velocity_time self;
          velocity_data := velocity_data;
          gforce_time := gforce_time;
          gforce_data := gforce_data |},
       {| Packet.pressure := pressure;
          Packet.temperature := temperature;
          Packet.altitude := altitude;
          Packet.altitude_rate := altitude_rate;
          Packet.latency := latency;
          Packet.velocity_time := velocity_time self;
          Packet.velocity_data := velocity_data;
          Packet.gforce_time := gforce_time;
          Packet.gforce_data := gforce_data;
          Packet.new_velocity := new_velocity;
          Packet.new_gforce := new_gforce |}).

(** A run of [get_next] calls with the given steps; it returns, call by
    call, the simulator after the call and the packet of the call. *)
Fixpoint get_next_seq (self : TelemetrySimulator) (dts : list R)
  : M RandomState (list (TelemetrySimulator * Packet.t)) :=
  match dts with
  | [] => ret []
  | dt :: dts' =>
      r <- get_next self dt ;;
      rest <- get_next_seq (fst r) dts' ;;
      ret (r :: rest)
  end.

(** The simulators a program can hold: the constructed one, and what
    [reset] and [get_next] make of one, for any step and random source. *)
Inductive reachable : TelemetrySimulator -> Prop :=
| reachable_init : reachable __init__
| reachable_reset self : reachable self -> reachable (reset self)
| reachable_get_next self dt g self' pkt g' :
    reachable self ->
    get_next self dt g = Ok ((self', pkt), g') ->
    reachable self'.

(** ** Auxiliary notions of part one *)

(** The [k]-th variate the source [g] is going to produce. *)
Definition variate (g : RandomState) (k : nat) : R :=
  variates g (k + position g).

(** The source after [k] draws. *)
Definition drawn (g : RandomState) (k : nat) : RandomState :=
  mkRandomState (variates g) (k + position g).

(** What holds of every reachable simulator. *)
Record invariant (self : TelemetrySimulator) : Prop := mkInvariant {
  inv_velocity_time : velocity_time self = np_linspace (-120) 0 100;
  inv_velocity_data : length (velocity_data self) = 100%nat;
  inv_gforce_time : length (gforce_time self) = 100%nat;
  inv_gforce_data : length (gforce_data self) = 100%nat;
  inv_gforce_sorted : StronglySorted Rlt (gforce_time self)
}.

(** The clock values a run passes through, the starting one first. *)
Definition clocks (self : TelemetrySimulator)
    (out : list (TelemetrySimulator * Packet.t)) : list R :=
  elapsed_seconds self :: map (fun r => elapsed_seconds (fst r)) out.

(** The clock after each of the steps [dts], starting from [c]. *)
Fixpoint running_clock (c : R) (dts : list R) : list R :=
  match dts with
  | [] => []
  | dt :: dts' => (c + dt) :: running_clock (c + dt) dts'
  end.

(** The four arrays of a simulator and of a packet. *)
Definition buffers (self : TelemetrySimulator) : list ndarray :=
  [velocity_time self; velocity_data self; gforce_time self; gforce_data self].

Definition packet_buffers (pkt : Packet.t) : list ndarray :=
  [Packet.velocity_time pkt; Packet.velocity_data pkt;
   Packet.gforce_time pkt; Packet.gforce_data pkt].


(** * Part two: arrays as mutable objects in a store *)

Module Heap.

(** The interpreter state: the arrays allocated so far, by reference,
    and the random source. *)
Record World : Type := mkWorld {
  objects : gmap nat (list R);
  random : RandomState
}.

(** A new array object; its reference is one not in use. *)
Definition alloc (a : ndarray) : M World nat :=
  fun w =>
    let r := fresh (dom (objects w)) in
    Ok (r, mkWorld (<[r:=a]> (objects w)) (random w)).

(** The contents of the object behind a reference the program holds. *)
Definition load (r : nat) : M World ndarray :=
  fun w => Ok (objects w !!! r, w).

(** In-place update of the object behind [r]. *)
Definition store (r : nat) (a : ndarray) : M World unit :=
  fun w => Ok (tt, mkWorld (<[r:=a]> (objects w)) (random w)).

(** A computation on the random source, run in the world. *)
Definition draw {A} (m : M RandomState A) : M World A :=
  fun w => match m (random w) with
           | Ok (a, g) => Ok (a, mkWorld (objects w) g)
           | Raise e => Raise e
           end.

(** [np.linspace], [np.zeros_like], [np.roll] and [.copy()] return a new
    array object; [a[i]] reads and [a[i] = v] updates the object [a]. *)
Definition linspace (start stop : R) (num : nat) : M World nat :=
  alloc (np_linspace start stop num).

Definition zeros_like (r : nat) : M World nat :=
  a <- load r ;; alloc (np_zeros_like a).

Definition roll (r : nat) (shift : Z) : M World nat :=
  a <- load r ;; alloc (np_roll a shift).

Definition copy (r : nat) : M World nat :=
  a <- load r ;; alloc a.

Definition item (r : nat) (i : Z) : M World R :=
  a <- load r ;; lift (getitem a i).

Definition set_item (r : nat) (i : Z) (v : R) : M World unit :=
  a <- load r ;;
  a' <- lift (setitem a i v) ;;
  store r a'.

Module Packet.
(** The returned dictionary; the four arrays are references. *)
Record t : Type := mk {
  pressure : R;
  temperature : R;
  altitude : R;
  altitude_rate : R;
  latency : R;
  velocity_time : nat;
  velocity_data : nat;
  gforce_time : nat;
  gforce_data : nat;
  new_velocity : R;
  new_gforce : R
}.
End Packet.

(** The simulator object: a float and four references to arrays. *)
Record TelemetrySimulator : Type := mkSim {
  elapsed_seconds : R;
  velocity_time : nat;
  velocity_data : nat;
  gforce_time : nat;
  gforce_data : nat
}.

Definition __init__ : M World TelemetrySimulator :=
  velocity_time <- linspace (-120) 0 100 ;;
  velocity_data <- zeros_like velocity_time ;;
  gforce_time <- linspace (-1.5) 4.0 100 ;;
  gforce_data <- zeros_like gforce_time ;;
  ret {| elapsed_seconds := 0.0;
         velocity_time := velocity_time;
         velocity_data := velocity_data;
         gforce_time := gforce_time;
         gforce_data := gforce_data |}.

Definition reset (self : TelemetrySimulator) : M World TelemetrySimulator :=
  velocity_time <- linspace (-120) 0 100 ;;
  velocity_data <- zeros_like velocity_time ;;
  gforce_time <- linspace (-1.5) 4.0 100 ;;
  gforce_data <- zeros_like gforce_time ;;
  ret {| elapsed_seconds := 0.0;
         velocity_time := velocity_time;
         velocity_data := velocity_data;
         gforce_time := gforce_time;
         gforce_data := gforce_data |}.

Definition get_next (self : TelemetrySimulator) (dt : R)
  : M World (TelemetrySimulator * Packet.t) :=
  let elapsed_seconds := elapsed_seconds self + dt in
  (* sensores *)
  n <- draw (np_random_normal 0 0.1) ;;
  let pressure := 101.3 + sin (elapsed_seconds / 10) * 2 + n in
  n <- draw (np_random_normal 0 0.2) ;;
  let temperature := 24.8 + sin (elapsed_seconds / 15 + 1) * 3 + n in
  let altitude :=
    1245.8 + elapsed_seconds * 2.5 + sin (elapsed_seconds / 8) * 50 in
  let altitude_rate := 12.4 + sin (elapsed_seconds / 7) * 8 in
  n <- draw (np_random_normal 0 3) ;;
  let latency := 24 + n in
  let latency := py_max 10 (py_min 100 latency) in
  (* velocidad *)
  n <- draw (np_random_normal 0 1) ;;
  let new_velocity := 15 + 10 * sin (elapsed_seconds / 20) + n in
  let new_velocity := py_max 0 new_velocity in
  velocity_data <- roll (velocity_data self) (-1) ;;
  _ <- set_item velocity_data (-1) new_velocity ;;
  (* g-force *)
  gforce_time <- roll (gforce_time self) (-1) ;;
  prev <- item gforce_time (-2) ;;
  _ <- set_item gforce_time (-1) (prev + 0.055) ;;
  n <- draw (np_random_normal 0 0.3) ;;
  let new_gforce :=
    2 + 3 * exp (- ((py_mod elapsed_seconds 30 - 15) ^ 2) / 50) + n in
  let new_gforce := py_max 0 new_gforce in
  gforce_data <- roll (gforce_data self) (-1) ;;
  _ <- set_item gforce_data (-1) new_gforce ;;
  (* the dictionary, its values in the order they are written *)
  velocity_time_copy <- copy (velocity_time self) ;;
  velocity_data_copy <- copy velocity_data ;;
  gforce_time_copy <- copy gforce_time ;;
  gforce_data_copy <- copy gforce_data ;;
  ret ({| elapsed_seconds := elapsed_seconds;
          velocity_time := velocity_time self;
          velocity_data := velocity_data;
          gforce_time := gforce_time;
          gforce_data := gforce_data |},
       {| Packet.pressure := pressure;
          Packet.temperature := temperature;
          Packet.altitude := altitude;
          Packet.altitude_rate := altitude_rate;
          Packet.latency := latency;
          Packet.velocity_time := velocity_time_copy;
          Packet.velocity_data := velocity_data_copy;
          Packet.gforce_time := gforce_time_copy;
          Packet.gforce_data := gforce_data_copy;
          Packet.new_velocity := new_velocity;
          Packet.new_gforce := new_gforce |}).

(** The references a simulator holds, and those a packet carries. *)
Definition sim_refs (self : TelemetrySimulator) : gset nat :=
  {[ velocity_time self; velocity_data self;
     gforce_time self; gforce_data self ]}.

Definition packet_refs (pkt : Packet.t) : gset nat :=
  {[ Packet.velocity_time pkt; Packet.velocity_data pkt;
     Packet.gforce_time pkt; Packet.gforce_data pkt ]}.

(** What the rest of the program can do to an array it holds a reference
    to: replace its contents by any other. *)
Definition mutate (r : nat) (a : ndarray) (w : World) : World :=
  mkWorld (<[r:=a]> (objects w)) (random w).

(** A program state: the world, the simulator object, and the
    references the rest of the program (the consumer of the packets)
    holds. *)
Record Config : Type := mkConfig {
  world : World;
  simulator : TelemetrySimulator;
  consumer : gset nat
}.

(** The steps of a program around a simulator: it calls [reset] or
    [get_next], whose packet hands four references to the consumer; the
    consumer updates an array it holds, or allocates one of its own. *)
Inductive step : Config -> Config -> Prop :=
| step_reset c self' w' :
    reset (simulator c) (world c) = Ok (self', w') ->
    step c (mkConfig w' self' (consumer c))
| step_get_next c dt self' pkt w' :
    get_next (simulator c) dt (world c) = Ok ((self', pkt), w') ->
    step c (mkConfig w' self' (consumer c ∪ packet_refs pkt))
| step_consumer_mutate c r a :
    r ∈ consumer c ->
    step c (mkConfig (mutate r a (world c)) (simulator c) (consumer c))
| step_consumer_alloc c a r w' :
    alloc a (world c) = Ok (r, w') ->
    step c (mkConfig w' (simulator c) (consumer c ∪ {[r]})).

(** The program starts by constructing the simulator, in a world whose
    objects all belong to the rest of the program. *)
Inductive reachable : Config -> Prop :=
| reachable_init w0 self w :
    __init__ w0 = Ok (self, w) ->
    reachable (mkConfig w self (dom (objects w0)))
| reachable_step c c' :
    reachable c -> step c c' -> reachable c'.

End Heap.

(** The simulator of part one that a simulator object stands for in a
    world, and likewise for packets. *)
Definition view (w : Heap.World) (self : Heap.TelemetrySimulator)
  : TelemetrySimulator :=
  {| elapsed_seconds := Heap.elapsed_seconds self;
     velocity_time := Heap.objects w !!! Heap.velocity_time self;
     velocity_data := Heap.objects w !!! Heap.velocity_data self;
     gforce_time := Heap.objects w !!! Heap.gforce_time self;
     gforce_data := Heap.objects w !!! Heap.gforce_data self |}.

Definition view_packet (w : Heap.World) (pkt : Heap.Packet.t) : Packet.t :=
  {| Packet.pressure := Heap.Packet.pressure pkt;
     Packet.temperature := Heap.Packet.temperature pkt;
     Packet.altitude := Heap.Packet.altitude pkt;
     Packet.altitude_rate := Heap.Packet.altitude_rate pkt;
     Packet.latency := Heap.Packet.latency pkt;
     Packet.velocity_time := Heap.objects w !!! Heap.Packet.velocity_time pkt;
     Packet.velocity_data := Heap.objects w !!! Heap.Packet.velocity_data pkt;
     Packet.gforce_time := Heap.objects w !!! Heap.Packet.gforce_time pkt;
     Packet.gforce_data := Heap.objects w !!! Heap.Packet.gforce_data pkt;
     Packet.new_velocity := Heap.Packet.new_velocity pkt;
     Packet.new_gforce := Heap.Packet.new_gforce pkt |}.

(** What holds of every reachable program state: the simulator's arrays
    exist, the consumer holds none of them, and the simulator satisfies
    the invariant of part one. *)
Record heap_invariant (c : Heap.Config) : Prop := mkHeapInvariant {
  hinv_allocated :
    Heap.sim_refs (Heap.simulator c) ⊆ dom (Heap.objects (Heap.world c));
  hinv_separate :
    Heap.sim_refs (Heap.simulator c) ## Heap.consumer c;
  hinv_consumer :
    Heap.consumer c ⊆ dom (Heap.objects (Heap.world c));
  hinv_view : invariant (view (Heap.world c) (Heap.simulator c))
}.

(** A program that has just constructed its simulator, in an empty world
    with the zero-noise source. *)
Definition just_constructed : Heap.Config :=
  match Heap.__init__ (Heap.mkWorld ∅ zero_noise) with
  | Ok (self, w) => Heap.mkConfig w self (dom (∅ : gmap nat (list R)))
  | Raise _ => Heap.mkConfig (Heap.mkWorld ∅ zero_noise)
                             (Heap.mkSim 0 0 0 0 0) ∅
  end.

(** ** Auxiliary notions for runs of calls *)

(** The simulator at the end of a run: the one after the last call. *)
Definition final (self : TelemetrySimulator)
    (out : list (TelemetrySimulator * Packet.t)) : TelemetrySimulator :=
  default self (last (map fst out)).

(** The g-force time axis [k] calls after its newest value was [newest]. *)
Definition gforce_grid (newest : R) (from n : nat) : list R :=
  map (fun k => newest + 0.055 * INR k) (seq from n).

(** * Part three: the mission control loop ([cansat_mission_control.py])

    The class [CanSatMissionControl] is a Tk window.  What is modelled is
    its state and the handlers that drive the simulator: [toggle_mission],
    [update_mission_timer], [update_telemetry] and [send_command].  The
    construction and styling of widgets is left out; a widget is
    represented by the value it is made to show.  Two things come from
    outside and are inputs of the handlers: the reading of the wall clock
    ([int((datetime.now() - mission_start_time).total_seconds())]) and the
    firing of a callback armed with [root.after]. *)

Module MissionControl.

(** [int(x)] on a float: truncation towards zero. *)
Definition py_int (x : R) : Z :=
  if Rle_dec 0 x then Int_part x else (- Int_part (- x))%Z.

(** The message of a log line.  The lines with formatted floats keep the
    values that are formatted. *)
Inductive message : Type :=
| Text (s : string)
| Data (new_velocity new_gforce : R)
| Stat (new_pressure new_temp new_altitude : R).

(** What [update_telemetry] puts on the screen. *)
Record Display : Type := mkDisplay {
  pressure_value : R;
  pressure_extent : R;
  temperature_value : R;
  temp_extent : R;
  altitude_value : R;
  altitude_rate : R;
  altitude_rate_sign : string;
  altitude_rate_color : string;
  signal_latency : R;
  latency_label : Z;
  velocity_line : list R * list R;
  gforce_line : list R * list R;
  gforce_xlim : R * R
}.

Abbreviation simulator_clock := elapsed_seconds.

Record App : Type := mkApp {
  mission_running : bool;
  elapsed_seconds : R;
  simulator : TelemetrySimulator;
  timer_display : Z * Z * Z;
  display : option Display;
  log_text : list (string * message);
  cmd_entry : string;
  telemetry_callbacks : nat;
  timer_callbacks : nat
}.

Definition green_accent : string := "#4ade80".

(** [add_log_message]; the time stamp of the line is not kept. *)
Definition add_log_message (self : App) (msg_type : string) (m : message)
  : App :=
  mkApp (mission_running self) (elapsed_seconds self) (simulator self)
        (timer_display self) (display self)
        (log_text self ++ [(msg_type, m)])
        (cmd_entry self) (telemetry_callbacks self) (timer_callbacks self).

Definition send_command (self : App) : App :=
  let cmd := cmd_entry self in
  if (negb (cmd =? EmptyString) && negb (cmd =? "Send Command..."))%string then
    let self := add_log_message self "INFO" (Text ("Command sent: " ++ cmd)) in
    mkApp (mission_running self) (elapsed_seconds self) (simulator self)
          (timer_display self) (display self) (log_text self)
          "Send Command..."
          (telemetry_callbacks self) (timer_callbacks self)
  else self.

(** [update_mission_timer], given the reading [now] of the wall clock in
    whole seconds since the start of the mission. *)
Definition update_mission_timer (self : App) (now : Z) : App :=
  if mission_running self then
    let elapsed_seconds := now in
    let hours := (elapsed_seconds / 3600)%Z in
    let minutes := ((elapsed_seconds mod 3600) / 60)%Z in
    let seconds := (elapsed_seconds mod 60)%Z in
    mkApp (mission_running self) (IZR elapsed_seconds) (simulator self)
          (hours, minutes, seconds) (display self) (log_text self)
          (cmd_entry self) (telemetry_callbacks self)
          (S (timer_callbacks self))
  else self.

Definition update_telemetry (self : App) : M RandomState App :=
  if mission_running self then
    r <- get_next (simulator self) 0.5 ;;
    let simulator := fst r in
    let data := snd r in
    let elapsed_seconds := simulator_clock simulator in
    (* sensores *)
    let new_pressure := Packet.pressure data in
    let fill := (new_pressure - 95) / 15 in
    let fill := py_max 0 (py_min 1 fill) in
    let pressure_extent := 359.9 * fill in
    let new_temp := Packet.temperature data in
    let fill := (new_temp - 15) / 25 in
    let fill := py_max 0 (py_min 1 fill) in
    let temp_extent := 359.9 * fill in
    let new_altitude := Packet.altitude data in
    let new_rate := Packet.altitude_rate data in
    let sign := if Rle_dec 0 new_rate then "+"%string else EmptyString in
    let color := if Rle_dec 0 new_rate then green_accent
                 else "#ff6b6b"%string in
    let new_latency := Packet.latency data in
    (* graficas *)
    let velocity_time := Packet.velocity_time data in
    let velocity_data := Packet.velocity_data data in
    let gforce_time := Packet.gforce_time data in
    let gforce_data := Packet.gforce_data data in
    x_min <- lift (getitem gforce_time 0) ;;
    x_max <- lift (getitem gforce_time (-1)) ;;
    (* log de telemetria *)
    let log := log_text self in
    let log :=
      if Req_dec_T (py_mod elapsed_seconds 3) 0
      then log ++ [("DATA"%string,
                    Data (Packet.new_velocity data) (Packet.new_gforce data))]
      else log in
    let log :=
      if Req_dec_T (py_mod elapsed_seconds 5) 0
      then log ++ [("STAT"%string, Stat new_pressure new_temp new_altitude)]
      else log in
    (* reprogramar llamada *)
    ret (mkApp (mission_running self) elapsed_seconds simulator
               (timer_display self)
               (Some (mkDisplay new_pressure pressure_extent
                                new_temp temp_extent
                                new_altitude
                                new_rate sign color
                                new_latency (py_int new_latency)
                                (velocity_time, velocity_data)
                                (gforce_time, gforce_data)
                                (x_min, x_max)))
               log (cmd_entry self)
               (S (telemetry_callbacks self)) (timer_callbacks self))
  else ret self.

Definition toggle_mission (self : App) (now : Z) : M RandomState App :=
  if negb (mission_running self) then
    (* iniciar mision *)
    let self :=
      mkApp true 0 (reset (simulator self))
            (timer_display self) (display self) (log_text self)
            (cmd_entry self) (telemetry_callbacks self) (timer_callbacks self) in
    let self := update_mission_timer self now in
    self <- update_telemetry self ;;
    ret (add_log_message self "INFO"
           (Text "Mission START - All systems nominal"))
  else
    (* detener mision *)
    let self :=
      mkApp false (elapsed_seconds self) (simulator self)
            (timer_display self) (display self) (log_text self)
            (cmd_entry self) (telemetry_callbacks self) (timer_callbacks self) in
    ret (add_log_message self "INFO" (Text "Mission PAUSED by operator")).

(** The window as built by the constructor, before it calls
    [toggle_mission]. *)
Definition built : App :=
  mkApp false 0 __init__ (0, 0, 0)%Z None
        [("INFO", Text "Packet #14205 received (24 bytes)");
         ("STAT", Text "P:101.32 T:24.84 A:1245.82");
         ("WARN", Text "Minor jitter on IMU-Z axis");
         ("INFO", Text "Frame_Synch OK - SD_Logging ACTIVE");
         ("STAT", Text "P:101.30 T:24.88 A:1258.20");
         ("DATA", Text "0x4A 0x35 0xFF 0x01 0x28 0x98 0x13");
         ("INFO", Text "Payload orientation: STABLE");
         ("RECV", Text "New Telemetry Burst Incoming...")]%string
        "Send Command..." 0 0.

(** What happens to the window: the START/STOP button is pressed, a
    callback fires, the command entry is edited, the send button is
    pressed. *)
Inductive event : Type :=
| Toggle (now : Z)
| TelemetryTimeout
| TimerTimeout (now : Z)
| Type_ (text : string)
| Send.

Definition __init__ (now : Z) : M RandomState App := toggle_mission built now.

(** A callback armed by [root.after(500, self.update_telemetry)] fires. *)
Definition telemetry_timeout (self : App) : M RandomState App :=
  match telemetry_callbacks self with
  | O => ret self
  | S k =>
      update_telemetry
        (mkApp (mission_running self) (elapsed_seconds self) (simulator self)
               (timer_display self) (display self) (log_text self)
               (cmd_entry self) k (timer_callbacks self))
  end.

(** A callback armed by [root.after(1000, self.update_mission_timer)]
    fires. *)
Definition timer_timeout (self : App) (now : Z) : App :=
  match timer_callbacks self with
  | O => self
  | S k =>
      update_mission_timer
        (mkApp (mission_running self) (elapsed_seconds self) (simulator self)
               (timer_display self) (display self) (log_text self)
               (cmd_entry self) (telemetry_callbacks self) k)
        now
  end.

Definition handle (self : App) (e : event) : M RandomState App :=
  match e with
  | Toggle now => toggle_mission self now
  | TelemetryTimeout => telemetry_timeout self
  | TimerTimeout now => ret (timer_timeout self now)
  | Type_ text =>
      ret (mkApp (mission_running self) (elapsed_seconds self)
                 (simulator self) (timer_display self) (display self)
                 (log_text self) text
                 (telemetry_callbacks self) (timer_callbacks self))
  | Send => ret (send_command self)
  end.

(** The windows a session can show: the constructed one, and what the
    events make of one. *)
Inductive reachable : App -> Prop :=
| reachable_init now g self g' :
    __init__ now g = Ok (self, g') -> reachable self
| reachable_handle self e g self' g' :
    reachable self -> handle self e g = Ok (self', g') -> reachable self'.

End MissionControl.

(** What holds of every window of a session. *)
Record app_invariant (self : MissionControl.App) : Prop := mkAppInvariant {
  app_simulator : reachable (MissionControl.simulator self);
  app_telemetry_armed :
    MissionControl.mission_running self = true ->
    (1 <= MissionControl.telemetry_callbacks self)%nat;
  app_timer_armed :
    MissionControl.mission_running self = true ->
    (1 <= MissionControl.timer_callbacks self)%nat
}.

(** A running window around a fresh simulator, and the window the
    constructor leaves when the wall clock reads 0 and the noise is zero. *)
Definition running_window : MissionControl.App :=
  MissionControl.mkApp true 0 __init__ (0, 0, 0)%Z None [] "status" 1 1.

Definition first_window : MissionControl.App :=
  match MissionControl.__init__ 0 zero_noise with
  | Ok (self, _) => self
  | Raise _ => MissionControl.built
  end.

(** ** Auxiliary notions of part three: a stopped window *)

(** The events of a list handled one after the other. *)
Fixpoint handle_seq (self : MissionControl.App)
    (es : list MissionControl.event) : M RandomState MissionControl.App :=
  match es with
  | [] => ret self
  | e :: es' =>
      self <- MissionControl.handle self e ;;
      handle_seq self es'
  end.

Definition is_toggle (e : MissionControl.event) : bool :=
  match e with MissionControl.Toggle _ => true | _ => false end.

Definition is_telemetry_timeout (e : MissionControl.event) : bool :=
  match e with MissionControl.TelemetryTimeout => true | _ => false end.

Definition is_timer_timeout (e : MissionControl.event) : bool :=
  match e with MissionControl.TimerTimeout _ => true | _ => false end.

(** How many events of a kind a list has. *)
Definition occurrences (kind : MissionControl.event -> bool)
    (es : list MissionControl.event) : nat :=
  length (List.filter kind es).

(** The log line of a command that was sent. *)
Definition command_line (cmd : string) : string * MissionControl.message :=
  ("INFO"%string, MissionControl.Text ("Command sent: " ++ cmd)%string).

(** The first window after the operator has pressed STOP, with the
    callbacks of the start still armed. *)
Definition paused_window : MissionControl.App :=
  match MissionControl.toggle_mission first_window 3 zero_noise with
  | Ok (self, _) => self
  | Raise _ => MissionControl.built
  end.

(** * Part four: the clock and the time axes in machine arithmetic

    Parts one to three read the arithmetic of the program in the real
    numbers.  The clock and the two time axes are the attributes whose
    values come from [+], [-], [*] and [/] alone, so their part of
    [__init__], [reset] and [get_next] can be written over any arithmetic
    and read in three of them: the exact one of part one, binary64 as the
    program has it ([PrimFloat]), and the reals with every operation
    followed by a rounding, for what holds of any rounded arithmetic.
    [velocity_data] and [gforce_data] need [np.sin], [np.exp] and the
    random source and stay in part one. *)

Module Axes.

(** The operations on floats the program uses on these attributes. *)
Class Arithmetic (F : Type) : Type := mkArithmetic {
  of_Z : Z -> F;
  add : F -> F -> F;
  sub : F -> F -> F;
  mul : F -> F -> F;
  div : F -> F -> F;
  eqb : F -> F -> bool
}.

Section Program.
Context {F : Type} {A : Arithmetic F}.

(** A decimal literal [m * 10^-k] of the source: the float nearest to it,
    which is the quotient of the two integers when both are floats. *)
Definition literal (m : Z) (k : nat) : F :=
  div (of_Z m) (of_Z (10 ^ Z.of_nat k)).

(** [a[i]], [a[i] = v] and [np.roll(a, shift)] as in part one. *)
Definition getitem (a : list F) (i : Z) : result F :=
  match normalize_index (length a) i with
  | Ok j => match a !! j with
            | Some x => Ok x
            | None => Raise IndexError
            end
  | Raise e => Raise e
  end.

Definition setitem (a : list F) (i : Z) (v : F) : result (list F) :=
  match normalize_index (length a) i with
  | Ok j => Ok (<[j:=v]> a)
  | Raise e => Raise e
  end.

Definition np_roll (a : list F) (shift : Z) : list F :=
  match a with
  | [] => []
  | _ => let k := Z.to_nat ((- shift) mod Z.of_nat (length a)) in
         skipn k a ++ firstn k a
  end.

Definition np_arange (num : nat) : list F :=
  map (fun i => of_Z (Z.of_nat i)) (seq 0 num).

(** [np.linspace(start, stop, num)], every operation in the arithmetic. *)
Definition np_linspace (start stop : F) (num : nat) : list F :=
  let div_ := (num - 1)%nat in
  let delta := sub stop start in
  let y := np_arange num in
  let y :=
    if (0 <? div_)%nat then
      let step := div delta (of_Z (Z.of_nat div_)) in
      if eqb step (of_Z 0)
      then map (fun i => mul (div i (of_Z (Z.of_nat div_))) delta) y
      else map (fun i => mul i step) y
    else map (fun i => mul i delta) y in
  let y := map (fun v => add v start) y in
  if (1 <? num)%nat then <[div_:=stop]> y else y.

(** The clock and the time axes of a simulator. *)
Record TelemetrySimulator : Type := mkSim {
  elapsed_seconds : F;
  velocity_time : list F;
  gforce_time : list F
}.

Definition __init__ : TelemetrySimulator :=
  {| elapsed_seconds := of_Z 0;
     velocity_time := np_linspace (of_Z (-120)) (of_Z 0) 100;
     gforce_time := np_linspace (literal (-15) 1) (literal 40 1) 100 |}.

Definition reset (self : TelemetrySimulator) : TelemetrySimulator :=
  {| elapsed_seconds := of_Z 0;
     velocity_time := np_linspace (of_Z (-120)) (of_Z 0) 100;
     gforce_time := np_linspace (literal (-15) 1) (literal 40 1) 100 |}.

(** Lines 42, 61 and 62 of [get_next]. *)
Definition get_next (self : TelemetrySimulator) (dt : F)
  : result TelemetrySimulator :=
  let elapsed_seconds := add (elapsed_seconds self) dt in
  let gforce_time := np_roll (gforce_time self) (-1) in
  match getitem gforce_time (-2) with
  | Raise e => Raise e
  | Ok prev =>
      match setitem gforce_time (-1) (add prev (literal 55 3)) with
      | Raise e => Raise e
      | Ok gforce_time =>
          Ok {| elapsed_seconds := elapsed_seconds;
                velocity_time := velocity_time self;
                gforce_time := gforce_time |}
      end
  end.

(** A run of calls; the simulator after each call. *)
Fixpoint get_next_seq (self : TelemetrySimulator) (dts : list F)
  : result (list TelemetrySimulator) :=
  match dts with
  | [] => Ok []
  | dt :: dts' =>
      match get_next self dt with
      | Raise e => Raise e
      | Ok self' =>
          match get_next_seq self' dts' with
          | Raise e => Raise e
          | Ok rest => Ok (self' :: rest)
          end
      end
  end.

Inductive reachable : TelemetrySimulator -> Prop :=
| reachable_init : reachable __init__
| reachable_reset self : reachable self -> reachable (reset self)
| reachable_get_next self dt self' :
    reachable self -> get_next self dt = Ok self' -> reachable self'.

(** The simulator at the end of a run: the one after the last call. *)
Definition final (self : TelemetrySimulator)
    (out : list TelemetrySimulator) : TelemetrySimulator :=
  default self (last out).

(** The clock values a run passes through, the starting one first. *)
Definition clocks (self : TelemetrySimulator)
    (out : list TelemetrySimulator) : list F :=
  elapsed_seconds self :: map elapsed_seconds out.

(** The clock after each step of a run that starts at [c]: the sum, in the
    arithmetic, of the clock before and the step. *)
Fixpoint accumulate (c : F) (dts : list F) : list F :=
  match dts with
  | [] => []
  | dt :: dts' => add c dt :: accumulate (add c dt) dts'
  end.

(** The times [get_next] appends in [n] calls after [newest]. *)
Fixpoint ticks (newest : F) (n : nat) : list F :=
  match n with
  | O => []
  | S n' => add newest (literal 55 3)
            :: ticks (add newest (literal 55 3)) n'
  end.

End Program.

Arguments TelemetrySimulator F : clear implicits.

(** The arithmetic of part one. *)
Definition Exact : Arithmetic R :=
  {| of_Z := IZR; add := Rplus; sub := Rminus; mul := Rmult; div := Rdiv;
     eqb := fun x y => if Req_dec_T x y then true else false |}.

(** A rounding of the reals onto the numbers of a format: it keeps the
    order, leaves the numbers of the format (its own values) where they
    are, and 0 is one of them.  Rounding to nearest in binary64 is one, as
    long as nothing overflows. *)
Record Rounding : Type := mkRounding {
  rnd : R -> R;
  rnd_monotone : forall x y, x <= y -> rnd x <= rnd y;
  rnd_idempotent : forall x, rnd (rnd x) = rnd x;
  rnd_zero : rnd 0 = 0
}.

(** Every operation followed by the rounding. *)
Definition Rounded (r : Rounding) : Arithmetic R :=
  {| of_Z := fun z => rnd r (IZR z);
     add := fun x y => rnd r (x + y);
     sub := fun x y => rnd r (x - y);
     mul := fun x y => rnd r (x * y);
     div := fun x y => rnd r (x / y);
     eqb := fun x y => if Req_dec_T x y then true else false |}.

(** The numbers of the format of a rounding: those it leaves alone. *)
Definition representable (r : Rounding) (x : R) : Prop := rnd r x = x.

(** No rounding at all: the exact arithmetic again. *)
Definition no_rounding : Rounding.
Proof.
  refine (mkRounding (fun x => x) _ _ _).
  - intros x y H. exact H.
  - reflexivity.
  - reflexivity.
Defined.

(** Rounding down to a multiple of 1/2, a format with one binary digit
    after the point. *)
Definition down_to_halves : Rounding.
Proof.
  refine (mkRounding (fun x => IZR (Int_part (x * 2)) / 2) _ _ _).
  - intros x y H.
    assert (Int_part (x * 2) <= Int_part (y * 2))%Z as Hz.
    { destruct (base_Int_part (x * 2)) as [Hx _].
      destruct (base_Int_part (y * 2)) as [_ Hy].
      apply Z.lt_succ_r. apply lt_IZR. rewrite succ_IZR. lra. }
    apply IZR_le in Hz. lra.
  - intros x.
    replace (IZR (Int_part (x * 2)) / 2 * 2) with (IZR (Int_part (x * 2)))
      by lra.
    rewrite <- (Int_part_spec (IZR (Int_part (x * 2))) (Int_part (x * 2)))
      by lra.
    reflexivity.
  - replace (0 * 2) with (IZR 0) by lra.
    rewrite <- (Int_part_spec (IZR 0) 0) by lra. lra.
Defined.

(** binary64, the arithmetic the program runs in: the primitive floats.
    An integer of the source becomes the float of the same value. *)
Definition float_of_Z (z : Z) : PrimFloat.float :=
  match z with
  | Z0 => PrimFloat.zero
  | Zpos _ => PrimFloat.of_uint63 (Uint63.of_Z z)
  | Zneg _ => PrimFloat.opp (PrimFloat.of_uint63 (Uint63.of_Z (- z)))
  end.

Definition Binary64 : Arithmetic PrimFloat.float :=
  {| of_Z := float_of_Z;
     add := PrimFloat.add; sub := PrimFloat.sub;
     mul := PrimFloat.mul; div := PrimFloat.div;
     eqb := PrimFloat.eqb |}.
#[global] Existing Instance Binary64.

End Axes.

(** The clock and the time axes of a simulator of part one. *)
Definition axes_of (self : TelemetrySimulator) : Axes.TelemetrySimulator R :=
  Axes.mkSim (elapsed_seconds self) (velocity_time self) (gforce_time self).

(** A fresh simulator in binary64, and one in the format of the multiples
    of 1/2. *)
Definition fresh_binary64 : Axes.TelemetrySimulator PrimFloat.float :=
  Axes.__init__ (A := Axes.Binary64).

Definition fresh_halves : Axes.TelemetrySimulator R :=
  Axes.__init__ (A := Axes.Rounded Axes.down_to_halves).

(** What holds of the reachable simulators in a rounded arithmetic. *)
Record rounded_invariant (r : Axes.Rounding)
    (self : Axes.TelemetrySimulator R) : Prop := mkRoundedInvariant {
  rinv_length : length (Axes.gforce_time self) = 100%nat;
  rinv_clock : Axes.representable r (Axes.elapsed_seconds self);
  rinv_gforce_time : Forall (Axes.representable r) (Axes.gforce_time self)
}.

(** * Facts about the primitives *)

Lemma np_roll_left_cons (x : R) (l : ndarray) :
  np_roll (x :: l) (-1) = l ++ [x].
Proof.
  unfold np_roll.
  change (- -1)%Z with 1%Z.
  destruct l as [|y l].
  - reflexivity.
  - rewrite Z.mod_small.
    + reflexivity.
    + cbn [length]. lia.
Qed.

Lemma length_np_roll (a : ndarray) (shift : Z) :
  length (np_roll a shift) = length a.
Proof.
  unfold np_roll. destruct a as [|x l]; [reflexivity|].
  set (k := Z.to_nat _).
  rewrite length_app, length_skipn, length_firstn.
  lia.
Qed.

Lemma normalize_index_neg1 (n : nat) :
  normalize_index (S n) (-1) = Ok n.
Proof.
  unfold normalize_index.
  change (-1 <? 0)%Z with true. cbv iota.
  replace (-1 + Z.of_nat (S n))%Z with (Z.of_nat n) by lia.
  rewrite Nat2Z.id.
  rewrite (proj2 (Z.leb_le _ _)) by lia.
  rewrite (proj2 (Z.ltb_lt _ _)) by lia.
  reflexivity.
Qed.

Lemma normalize_index_neg2 (n : nat) :
  normalize_index (S (S n)) (-2) = Ok n.
Proof.
  unfold normalize_index.
  change (-2 <? 0)%Z with true. cbv iota.
  replace (-2 + Z.of_nat (S (S n)))%Z with (Z.of_nat n) by lia.
  rewrite Nat2Z.id.
  rewrite (proj2 (Z.leb_le _ _)) by lia.
  rewrite (proj2 (Z.ltb_lt _ _)) by lia.
  reflexivity.
Qed.

Lemma setitem_last (l : ndarray) (x v : R) :
  setitem (l ++ [x]) (-1) v = Ok (l ++ [v]).
Proof.
  unfold setitem.
  rewrite length_app. cbn [length].
  replace (length l + 1)%nat with (S (length l)) by lia.
  rewrite normalize_index_neg1.
  f_equal.
  rewrite insert_app_r_alt by lia.
  rewrite Nat.sub_diag. reflexivity.
Qed.

Lemma setitem_empty (i : Z) (v : R) : setitem [] i v = Raise IndexError.
Proof.
  unfold setitem, normalize_index. cbn [length].
  destruct (Z.ltb_spec i 0).
  - rewrite (proj2 (Z.leb_gt _ _)) by lia. reflexivity.
  - rewrite (proj2 (Z.ltb_ge _ _)) by lia.
    rewrite andb_false_r. reflexivity.
Qed.

Lemma getitem_penultimate (l : ndarray) (y x : R) :
  getitem (l ++ [y; x]) (-2) = Ok y.
Proof.
  unfold getitem.
  rewrite length_app. cbn [length].
  replace (length l + 2)%nat with (S (S (length l))) by lia.
  rewrite normalize_index_neg2.
  rewrite lookup_app_r by lia.
  rewrite Nat.sub_diag. reflexivity.
Qed.

(** Every array of two or more elements ends in a penultimate and a last
    element. *)
Lemma ndarray_two_last (a : ndarray) :
  (2 <= length a)%nat ->
  exists l y x, a = l ++ [y; x].
Proof.
  intros Hlen.
  destruct (exists_last (l := a)) as [l1 [x ->]].
  { intros ->. cbn in Hlen. lia. }
  rewrite length_app in Hlen. cbn [length] in Hlen.
  destruct (exists_last (l := l1)) as [l [y ->]].
  { intros ->. cbn in Hlen. lia. }
  exists l, y, x. rewrite <- app_assoc. reflexivity.
Qed.

Lemma length_np_arange (n : nat) : length (np_arange n) = n.
Proof. unfold np_arange. rewrite length_map. apply length_seq. Qed.

Lemma length_np_linspace (start stop : R) (num : nat) :
  length (np_linspace start stop num) = num.
Proof.
  unfold np_linspace.
  destruct (0 <? num - 1)%nat; [destruct (Req_dec_T _ _)|];
    destruct (1 <? num)%nat;
    rewrite ?length_insert, !length_map; apply length_np_arange.
Qed.

Lemma length_np_zeros_like (a : ndarray) :
  length (np_zeros_like a) = length a.
Proof. unfold np_zeros_like. apply repeat_length. Qed.

(** * One call of [get_next], in closed form *)

Lemma get_next_closed_form
    (t : R) (vt : ndarray) (v0 : R) (vd : ndarray)
    (g0 : R) (m : ndarray) (x : R) (d0 : R) (gd : ndarray)
    (dt : R) (g : RandomState) :
  let t' := t + dt in
  let lat := py_max 10 (py_min 100 (24 + (0 + 3 * variate g 2))) in
  let nv := py_max 0 (15 + 10 * sin (t' / 20) + (0 + 1 * variate g 3)) in
  let ng := py_max 0 (2 + 3 * exp (- ((py_mod t' 30 - 15) ^ 2) / 50)
                      + (0 + 0.3 * variate g 4)) in
  get_next (mkSim t vt (v0 :: vd) (g0 :: m ++ [x]) (d0 :: gd)) dt g =
  Ok ((mkSim t' vt (vd ++ [nv]) ((m ++ [x]) ++ [x + 0.055]) (gd ++ [ng]),
       Packet.mk
         (101.3 + sin (t' / 10) * 2 + (0 + 0.1 * variate g 0))
         (24.8 + sin (t' / 15 + 1) * 3 + (0 + 0.2 * variate g 1))
         (1245.8 + t' * 2.5 + sin (t' / 8) * 50)
         (12.4 + sin (t' / 7) * 8)
         lat
         vt (vd ++ [nv]) ((m ++ [x]) ++ [x + 0.055]) (gd ++ [ng])
         nv ng),
      drawn g 5).
Proof.
  intros t' lat nv ng.
  unfold get_next, bind, np_random_normal, lift, ret.
  cbn [elapsed_seconds velocity_time velocity_data gforce_time gforce_data
       variates position].
  rewrite !np_roll_left_cons.
  rewrite setitem_last.
  rewrite <- (app_assoc m [x] [g0]). cbn [app].
  rewrite getitem_penultimate.
  replace (m ++ [x; g0]) with ((m ++ [x]) ++ [g0])
    by (rewrite <- app_assoc; reflexivity).
  rewrite !setitem_last.
  reflexivity.
Qed.

(** * [np.linspace] in affine form, and sortedness *)

Lemma INR_pred_pos (num : nat) : (2 <= num)%nat -> 0 < INR (num - 1).
Proof. intros H. apply lt_0_INR. lia. Qed.

Lemma np_linspace_affine (start stop : R) (num : nat) :
  (2 <= num)%nat ->
  start <> stop ->
  np_linspace start stop num =
  map (fun i => INR i * ((stop - start) / INR (num - 1)) + start) (seq 0 num).
Proof.
  intros Hnum Hne.
  pose proof (INR_pred_pos num Hnum) as Hdiv.
  unfold np_linspace, np_arange.
  rewrite (proj2 (Nat.ltb_lt 0 (num - 1))) by lia.
  rewrite (proj2 (Nat.ltb_lt 1 num)) by lia.
  destruct (Req_dec_T ((stop - start) / INR (num - 1)) 0) as [Hz | _].
  { exfalso. apply Hne.
    assert (stop - start = 0) as H0.
    { replace (stop - start)
        with ((stop - start) / INR (num - 1) * INR (num - 1))
        by (field; lra).
      rewrite Hz. lra. }
    lra. }
  rewrite !map_map.
  apply list_insert_id.
  change (map ?f ?l) with (f <$> l).
  rewrite list_lookup_fmap.
  rewrite lookup_seq_lt by lia.
  cbn [fmap option_fmap option_map Nat.add].
  f_equal. field. lra.
Qed.

Lemma affine_seq_sorted (step start : R) (a n : nat) :
  0 < step ->
  StronglySorted Rlt (map (fun i => INR i * step + start) (seq a n)).
Proof.
  intros Hstep. revert a.
  induction n as [|n IH]; intros a; cbn [seq map].
  - constructor.
  - constructor.
    + apply IH.
    + rewrite Forall_map. apply List.Forall_forall.
      intros i Hi. apply in_seq in Hi.
      assert (INR a < INR i) by (apply lt_INR; lia).
      nra.
Qed.

Lemma np_linspace_sorted (start stop : R) (num : nat) :
  (2 <= num)%nat ->
  start < stop ->
  StronglySorted Rlt (np_linspace start stop num).
Proof.
  intros Hnum Hlt.
  rewrite np_linspace_affine by (trivial; lra).
  apply affine_seq_sorted.
  pose proof (INR_pred_pos num Hnum).
  apply Rdiv_lt_0_compat; lra.
Qed.

Lemma sorted_push (l : ndarray) (x y : R) :
  StronglySorted Rlt (l ++ [x]) ->
  x < y ->
  StronglySorted Rlt ((l ++ [x]) ++ [y]).
Proof.
  intros Hs Hxy.
  induction l as [|a l IH]; cbn [app] in *.
  - repeat constructor. exact Hxy.
  - apply StronglySorted_inv in Hs as [Hs Ha].
    constructor.
    + apply IH, Hs.
    + apply Forall_app. split; [exact Ha|].
      constructor; [|constructor].
      apply Forall_app in Ha as [_ Ha].
      apply Forall_inv in Ha. lra.
Qed.

(** * The invariant of the reachable simulators *)

(** The shape [get_next_closed_form] expects. *)
Lemma sim_decompose (self : TelemetrySimulator) :
  (1 <= length (velocity_data self))%nat ->
  (2 <= length (gforce_time self))%nat ->
  (1 <= length (gforce_data self))%nat ->
  exists t vt v0 vd g0 m x d0 gd,
    self = mkSim t vt (v0 :: vd) (g0 :: m ++ [x]) (d0 :: gd).
Proof.
  destruct self as [t vt vd gt gd]; cbn [velocity_data gforce_time gforce_data].
  intros Hvd Hgt Hgd.
  destruct vd as [|v0 vd]; [cbn in Hvd; lia|].
  destruct gd as [|d0 gd]; [cbn in Hgd; lia|].
  destruct gt as [|g0 gt]; [cbn in Hgt; lia|].
  destruct (exists_last (l := gt)) as [m [x ->]].
  { intros ->. cbn in Hgt. lia. }
  eauto 10.
Qed.

Lemma invariant_decompose (self : TelemetrySimulator) :
  invariant self ->
  exists t vt v0 vd g0 m x d0 gd,
    self = mkSim t vt (v0 :: vd) (g0 :: m ++ [x]) (d0 :: gd).
Proof.
  intros [_ Hvd Hgt Hgd _]. apply sim_decompose; lia.
Qed.

Lemma invariant_init : invariant __init__.
Proof.
  constructor; cbn [__init__ velocity_time velocity_data gforce_time gforce_data].
  - reflexivity.
  - rewrite length_np_zeros_like. apply length_np_linspace.
  - apply length_np_linspace.
  - rewrite length_np_zeros_like. apply length_np_linspace.
  - apply np_linspace_sorted; [lia | lra].
Qed.

Lemma reset_eq_init (self : TelemetrySimulator) : reset self = __init__.
Proof. reflexivity. Qed.

Lemma invariant_get_next self dt g self' pkt g' :
  invariant self ->
  get_next self dt g = Ok ((self', pkt), g') ->
  invariant self'.
Proof.
  intros Hinv Hstep.
  destruct (invariant_decompose self Hinv)
    as (t & vt & v0 & vd & g0 & m & x & d0 & gd & ->).
  rewrite get_next_closed_form in Hstep.
  injection Hstep as <- _ _.
  destruct Hinv as [Hvt Hvd Hgt Hgd Hs].
  cbn [velocity_time velocity_data gforce_time gforce_data] in *.
  constructor; cbn [velocity_time velocity_data gforce_time gforce_data].
  - exact Hvt.
  - rewrite length_app. cbn [length] in *. lia.
  - cbn [length] in Hgt. rewrite !length_app in *. cbn [length] in *. lia.
  - rewrite length_app. cbn [length] in *. lia.
  - apply sorted_push; [|lra].
    apply StronglySorted_inv in Hs. apply Hs.
Qed.

Lemma reachable_invariant (self : TelemetrySimulator) :
  reachable self -> invariant self.
Proof.
  induction 1 as [| self _ _ | self dt g self' pkt g' _ IH Hstep].
  - apply invariant_init.
  - rewrite reset_eq_init. apply invariant_init.
  - eapply invariant_get_next; eassumption.
Qed.

(** On a reachable simulator [get_next] returns: no index is out of range. *)
Lemma get_next_returns (self : TelemetrySimulator) (dt : R) (g : RandomState) :
  invariant self ->
  exists self' pkt, get_next self dt g = Ok ((self', pkt), drawn g 5).
Proof.
  intros Hinv.
  destruct (invariant_decompose self Hinv)
    as (t & vt & v0 & vd & g0 & m & x & d0 & gd & ->).
  rewrite get_next_closed_form. eauto.
Qed.

(** * Bounds of the clamps *)

Lemma py_max_lower (a b : R) : a <= py_max a b.
Proof. unfold py_max. destruct (Rlt_dec a b); lra. Qed.

Lemma py_clamp_bounds (lo hi v : R) :
  lo <= hi -> lo <= py_max lo (py_min hi v) <= hi.
Proof.
  intros Hle. unfold py_max, py_min.
  destruct (Rlt_dec v hi); destruct (Rlt_dec lo _); lra.
Qed.

Lemma py_clamp_inside (lo hi v : R) :
  lo <= v <= hi -> py_max lo (py_min hi v) = v.
Proof.
  intros Hv. unfold py_max, py_min.
  destruct (Rlt_dec v hi); destruct (Rlt_dec lo _); lra.
Qed.

(** * Runs of [get_next] *)

Lemma get_next_seq_clock self dts g :
  invariant self ->
  exists out g',
    get_next_seq self dts g = Ok (out, g') /\
    map (fun r => elapsed_seconds (fst r)) out =
      running_clock (elapsed_seconds self) dts.
Proof.
  revert self g.
  induction dts as [|dt dts IH]; intros self g Hinv.
  - exists [], g. split; reflexivity.
  - destruct (get_next_returns self dt g Hinv) as (self' & pkt & Hstep).
    pose proof (invariant_get_next _ _ _ _ _ _ Hinv Hstep) as Hinv'.
    destruct (IH self' (drawn g 5) Hinv') as (out & g' & Hrun & Hclk).
    exists ((self', pkt) :: out), g'.
    cbn [get_next_seq]. unfold bind at 1. rewrite Hstep.
    cbn [fst]. unfold bind at 1. rewrite Hrun.
    split; [reflexivity|].
    cbn [map fst running_clock]. rewrite Hclk.
    f_equal.
    + destruct (invariant_decompose self Hinv)
        as (t & vt & v0 & vd & g0 & m & x & d0 & gd & ->).
      rewrite get_next_closed_form in Hstep.
      injection Hstep as <- _. reflexivity.
    + f_equal.
      destruct (invariant_decompose self Hinv)
        as (t & vt & v0 & vd & g0 & m & x & d0 & gd & ->).
      rewrite get_next_closed_form in Hstep.
      injection Hstep as <- _. reflexivity.
Qed.

Lemma np_linspace_first (start stop : R) (num : nat) :
  (2 <= num)%nat -> np_linspace start stop num !! 0%nat = Some start.
Proof.
  intros Hnum.
  unfold np_linspace, np_arange.
  rewrite (proj2 (Nat.ltb_lt 0 (num - 1))) by lia.
  rewrite (proj2 (Nat.ltb_lt 1 num)) by lia.
  rewrite list_lookup_insert_ne by lia.
  destruct num as [|num]; [lia|].
  destruct (Req_dec_T _ _); cbn [seq map lookup list_lookup];
    f_equal; cbn [INR]; lra.
Qed.

Lemma np_linspace_last (start stop : R) (num : nat) :
  (2 <= num)%nat -> last (np_linspace start stop num) = Some stop.
Proof.
  intros Hnum.
  rewrite last_lookup, length_np_linspace.
  replace (Init.Nat.pred num) with (num - 1)%nat by lia.
  unfold np_linspace.
  rewrite (proj2 (Nat.ltb_lt 1 num)) by lia.
  apply list_lookup_insert_eq.
  destruct (0 <? num - 1)%nat; [destruct (Req_dec_T _ _)|];
    rewrite !length_map, length_np_arange; lia.
Qed.

(** * The properties of the specification *)

(* The two properties on exact increments of the clock and of the g-force
   time axis depend on the float arithmetic; they are settled with part
   four, at the end. *)

(** C2. Every [get_next] call on a reachable simulator returns, for any
    step and any noise, a latency in [10, 100] and a velocity and a
    g-force that are not negative. *)
Theorem latency_velocity_gforce_bounds
    (self : TelemetrySimulator) (dt : R) (g : RandomState) :
  reachable self ->
  exists self' pkt g',
    get_next self dt g = Ok ((self', pkt), g') /\
    10 <= Packet.latency pkt <= 100 /\
    0 <= Packet.new_velocity pkt /\
    0 <= Packet.new_gforce pkt.
Proof.
  intros Hreach.
  apply reachable_invariant in Hreach.
  destruct (invariant_decompose self Hreach)
    as (t & vt & v0 & vd & g0 & m & x & d0 & gd & ->).
  rewrite get_next_closed_form.
  eexists _, _, _. split; [reflexivity|].
  cbn [Packet.latency Packet.new_velocity Packet.new_gforce].
  split; [apply py_clamp_bounds; lra|].
  split; apply py_max_lower.
Qed.

Lemma latency_velocity_gforce_bounds_witness :
  exists self' pkt g',
    get_next __init__ 0.5 zero_noise = Ok ((self', pkt), g') /\
    10 <= Packet.latency pkt <= 100 /\
    0 <= Packet.new_velocity pkt /\
    0 <= Packet.new_gforce pkt.
Proof.
  apply (latency_velocity_gforce_bounds __init__ 0.5 zero_noise).
  apply reachable_init.
Defined.

Lemma invariant_buffers (self : TelemetrySimulator) :
  invariant self -> Forall (fun a => length a = 100%nat) (buffers self).
Proof.
  intros [Hvt Hvd Hgt Hgd _]. unfold buffers.
  repeat constructor; try assumption.
  rewrite Hvt. apply length_np_linspace.
Qed.

(** C3, as the specification states it, fails: [get_next(-1)] on a fresh
    simulator raises nothing; it returns a packet and moves the clock back
    to [-1]. *)
Lemma nonpositive_step_not_rejected :
  -1 <= 0 /\
  (forall e, get_next __init__ (-1) zero_noise <> Raise e) /\
  exists self' pkt g',
    get_next __init__ (-1) zero_noise = Ok ((self', pkt), g') /\
    elapsed_seconds self' = -1.
Proof.
  split; [lra|].
  destruct (invariant_decompose __init__ invariant_init)
    as (t & vt & v0 & vd & g0 & m & x & d0 & gd & Heq).
  pose proof (f_equal elapsed_seconds Heq) as Ht.
  cbn [elapsed_seconds __init__] in Ht.
  rewrite Heq, get_next_closed_form.
  split; [discriminate|].
  eexists _, _, _. split; [reflexivity|].
  cbn [elapsed_seconds]. lra.
Qed.

(** C3, amended. [get_next] checks nothing about its step: on a reachable
    simulator a call with a step [dt <= 0] returns a packet like any other
    call, and the clock becomes [elapsed_seconds + dt], which is not above
    its previous value. *)
Theorem nonpositive_step_accepted
    (self : TelemetrySimulator) (dt : R) (g : RandomState) :
  reachable self ->
  dt <= 0 ->
  exists self' pkt g',
    get_next self dt g = Ok ((self', pkt), g') /\
    elapsed_seconds self' = elapsed_seconds self + dt /\
    elapsed_seconds self' <= elapsed_seconds self.
Proof.
  intros Hreach Hdt.
  apply reachable_invariant in Hreach.
  destruct (invariant_decompose self Hreach)
    as (t & vt & v0 & vd & g0 & m & x & d0 & gd & ->).
  rewrite get_next_closed_form.
  eexists _, _, _. split; [reflexivity|].
  cbn [elapsed_seconds]. lra.
Qed.

Lemma nonpositive_step_accepted_witness :
  exists self' pkt g',
    get_next __init__ (-1) zero_noise = Ok ((self', pkt), g') /\
    elapsed_seconds self' = elapsed_seconds __init__ + -1 /\
    elapsed_seconds self' <= elapsed_seconds __init__.
Proof.
  apply (nonpositive_step_accepted __init__ (-1) zero_noise).
  - apply reachable_init.
  - lra.
Defined.

(** C4. After [reset] and after every [get_next] call the four arrays of
    the simulator have length 100, and so have the four arrays of the
    packet.  A call drops the first (oldest) element of [velocity_data],
    [gforce_data] and [gforce_time] and appends one new element at the
    end; the appended values are the packet's [new_velocity] and
    [new_gforce]. *)
Theorem buffers_keep_length_100
    (self : TelemetrySimulator) (dt : R) (g : RandomState) :
  reachable self ->
  Forall (fun a => length a = 100%nat) (buffers (reset self)) /\
  exists self' pkt g',
    get_next self dt g = Ok ((self', pkt), g') /\
    Forall (fun a => length a = 100%nat) (buffers self') /\
    Forall (fun a => length a = 100%nat) (packet_buffers pkt) /\
    velocity_data self' = tl (velocity_data self) ++ [Packet.new_velocity pkt] /\
    gforce_data self' = tl (gforce_data self) ++ [Packet.new_gforce pkt] /\
    exists newest, gforce_time self' = tl (gforce_time self) ++ [newest].
Proof.
  intros Hreach.
  split.
  { apply invariant_buffers. rewrite reset_eq_init. apply invariant_init. }
  apply reachable_invariant in Hreach.
  destruct (get_next_returns self dt g Hreach) as (self' & pkt & Hstep).
  pose proof (invariant_get_next _ _ _ _ _ _ Hreach Hstep) as Hinv'.
  apply invariant_buffers in Hinv'.
  exists self', pkt, (drawn g 5).
  split; [exact Hstep|].
  destruct (invariant_decompose self Hreach)
    as (t & vt & v0 & vd & g0 & m & x & d0 & gd & ->).
  rewrite get_next_closed_form in Hstep.
  injection Hstep as <- <-.
  repeat split; try exact Hinv'.
  eexists. reflexivity.
Qed.

Lemma buffers_keep_length_100_witness :
  Forall (fun a => length a = 100%nat) (buffers (reset __init__)) /\
  exists self' pkt g',
    get_next __init__ 0.5 zero_noise = Ok ((self', pkt), g') /\
    Forall (fun a => length a = 100%nat) (buffers self') /\
    Forall (fun a => length a = 100%nat) (packet_buffers pkt) /\
    velocity_data self' =
      tl (velocity_data __init__) ++ [Packet.new_velocity pkt] /\
    gforce_data self' =
      tl (gforce_data __init__) ++ [Packet.new_gforce pkt] /\
    exists newest, gforce_time self' = tl (gforce_time __init__) ++ [newest].
Proof.
  apply (buffers_keep_length_100 __init__ 0.5 zero_noise).
  apply reachable_init.
Defined.

(** C5. On every reachable simulator [velocity_time] is the array built by
    the constructor, [np.linspace(-120, 0, 100)]: 100 points, the first
    [-120], the last [0].  A [get_next] call leaves it as it is, hands the
    same values out in the packet, and rotates [velocity_data] only. *)
Theorem velocity_time_is_fixed
    (self : TelemetrySimulator) (dt : R) (g : RandomState) :
  reachable self ->
  velocity_time self = np_linspace (-120) 0 100 /\
  length (velocity_time self) = 100%nat /\
  velocity_time self !! 0%nat = Some (-120) /\
  last (velocity_time self) = Some 0 /\
  exists self' pkt g',
    get_next self dt g = Ok ((self', pkt), g') /\
    velocity_time self' = velocity_time self /\
    Packet.velocity_time pkt = velocity_time self /\
    velocity_data self' = tl (velocity_data self) ++ [Packet.new_velocity pkt].
Proof.
  intros Hreach.
  apply reachable_invariant in Hreach.
  pose proof (inv_velocity_time self Hreach) as Hvt.
  rewrite Hvt.
  split; [reflexivity|].
  split; [apply length_np_linspace|].
  split; [apply np_linspace_first; lia|].
  split; [apply np_linspace_last; lia|].
  rewrite <- Hvt.
  destruct (invariant_decompose self Hreach)
    as (t & vt & v0 & vd & g0 & m & x & d0 & gd & ->).
  rewrite get_next_closed_form.
  eexists _, _, _. split; [reflexivity|].
  repeat split.
Qed.

Lemma velocity_time_is_fixed_witness :
  velocity_time __init__ = np_linspace (-120) 0 100 /\
  length (velocity_time __init__) = 100%nat /\
  velocity_time __init__ !! 0%nat = Some (-120) /\
  last (velocity_time __init__) = Some 0 /\
  exists self' pkt g',
    get_next __init__ 2 zero_noise = Ok ((self', pkt), g') /\
    velocity_time self' = velocity_time __init__ /\
    Packet.velocity_time pkt = velocity_time __init__ /\
    velocity_data self' =
      tl (velocity_data __init__) ++ [Packet.new_velocity pkt].
Proof.
  apply (velocity_time_is_fixed __init__ 2 zero_noise).
  apply reachable_init.
Defined.

(** C8. [reset] puts the clock at 0 and the buffers at zeros over the two
    [np.linspace] time axes, whatever the simulator was before.  A run of
    [get_next] calls after [reset] returns, and returns what the same run
    on a freshly constructed simulator returns under the same random
    source: the same clocks, buffers and packets. *)
Theorem reset_behaves_as_fresh
    (self : TelemetrySimulator) (dts : list R) (g : RandomState) :
  elapsed_seconds (reset self) = 0 /\
  velocity_time (reset self) = np_linspace (-120) 0 100 /\
  velocity_data (reset self) = repeat 0 100 /\
  gforce_time (reset self) = np_linspace (-1.5) 4.0 100 /\
  gforce_data (reset self) = repeat 0 100 /\
  exists out g',
    get_next_seq (reset self) dts g = Ok (out, g') /\
    get_next_seq __init__ dts g = Ok (out, g') /\
    clocks (reset self) out = clocks __init__ out.
Proof.
  cbn [reset elapsed_seconds velocity_time velocity_data gforce_time
       gforce_data].
  unfold np_zeros_like. rewrite !length_np_linspace.
  split; [lra|].
  do 4 (split; [reflexivity|]).
  destruct (get_next_seq_clock __init__ dts g invariant_init)
    as (out & g' & Hrun & _).
  exists out, g'. rewrite reset_eq_init. auto.
Qed.

(** C9. With the random source emitting zero noise, [reset] followed by
    one [get_next(0.5)] gives clock 0.5, pressure [101.3 + 2 sin 0.05],
    altitude [1245.8 + 1.25 + 50 sin 0.0625] and latency 24. *)
Theorem first_packet_without_noise :
  exists self' pkt g',
    get_next (reset __init__) 0.5 zero_noise = Ok ((self', pkt), g') /\
    elapsed_seconds self' = 0.5 /\
    Packet.pressure pkt = 101.3 + 2 * sin 0.05 /\
    Packet.altitude pkt = 1245.8 + 1.25 + 50 * sin 0.0625 /\
    Packet.latency pkt = 24.
Proof.
  rewrite reset_eq_init.
  destruct (invariant_decompose __init__ invariant_init)
    as (t & vt & v0 & vd & g0 & m & x & d0 & gd & Heq).
  pose proof (f_equal elapsed_seconds Heq) as Ht.
  cbn [elapsed_seconds __init__] in Ht.
  assert (t = 0) as -> by lra.
  rewrite Heq, get_next_closed_form.
  eexists _, _, _. split; [reflexivity|].
  cbn [elapsed_seconds Packet.pressure Packet.altitude Packet.latency].
  unfold variate, zero_noise. cbn [variates].
  split; [lra|].
  split.
  { replace ((0 + 0.5) / 10) with 0.05 by lra. lra. }
  split.
  { replace ((0 + 0.5) / 8) with 0.0625 by lra. lra. }
  rewrite py_clamp_inside; lra.
Qed.

(** C10. In the packet of every [get_next] call on a reachable simulator,
    [new_velocity] is the last element of [velocity_data], [new_gforce] is
    the last element of [gforce_data], and [gforce_time] is strictly
    increasing. *)
Theorem packet_scalars_match_snapshots
    (self : TelemetrySimulator) (dt : R) (g : RandomState) :
  reachable self ->
  exists self' pkt g',
    get_next self dt g = Ok ((self', pkt), g') /\
    last (Packet.velocity_data pkt) = Some (Packet.new_velocity pkt) /\
    last (Packet.gforce_data pkt) = Some (Packet.new_gforce pkt) /\
    StronglySorted Rlt (Packet.gforce_time pkt).
Proof.
  intros Hreach.
  apply reachable_invariant in Hreach.
  destruct (get_next_returns self dt g Hreach) as (self' & pkt & Hstep).
  pose proof (invariant_get_next _ _ _ _ _ _ Hreach Hstep) as Hinv'.
  apply inv_gforce_sorted in Hinv'.
  exists self', pkt, (drawn g 5).
  split; [exact Hstep|].
  destruct (invariant_decompose self Hreach)
    as (t & vt & v0 & vd & g0 & m & x & d0 & gd & ->).
  rewrite get_next_closed_form in Hstep.
  injection Hstep as <- <-.
  cbn [Packet.velocity_data Packet.new_velocity Packet.gforce_data
       Packet.new_gforce Packet.gforce_time].
  split; [apply last_snoc|].
  split; [apply last_snoc|].
  exact Hinv'.
Qed.

Lemma packet_scalars_match_snapshots_witness :
  exists self' pkt g',
    get_next __init__ 0.5 zero_noise = Ok ((self', pkt), g') /\
    last (Packet.velocity_data pkt) = Some (Packet.new_velocity pkt) /\
    last (Packet.gforce_data pkt) = Some (Packet.new_gforce pkt) /\
    StronglySorted Rlt (Packet.gforce_time pkt).
Proof.
  apply (packet_scalars_match_snapshots __init__ 0.5 zero_noise).
  apply reachable_init.
Defined.

(** * Facts about part two *)

Lemma bind_Ok {S A B} (m : M S A) (k : A -> M S B) (s s' : S) (a : A) :
  m s = Ok (a, s') -> bind m k s = k a s'.
Proof. intros H. unfold bind. rewrite H. reflexivity. Qed.

Lemma draw_normal (loc scale : R) (h : gmap nat (list R)) (g : RandomState) :
  Heap.draw (np_random_normal loc scale) (Heap.mkWorld h g) =
  Ok (loc + scale * variate g 0, Heap.mkWorld h (drawn g 1)).
Proof. reflexivity. Qed.

Lemma alloc_spec (a : list R) (h : gmap nat (list R)) (g : RandomState) :
  exists r, (r ∉ dom h) /\
    Heap.alloc a (Heap.mkWorld h g) = Ok (r, Heap.mkWorld (<[r:=a]> h) g).
Proof.
  exists (fresh (dom h)). split; [apply is_fresh | reflexivity].
Qed.

Lemma roll_spec (r : nat) (shift : Z) (h : gmap nat (list R)) (g : RandomState) :
  exists r', (r' ∉ dom h) /\
    Heap.roll r shift (Heap.mkWorld h g) =
    Ok (r', Heap.mkWorld (<[r':=np_roll (h !!! r) shift]> h) g).
Proof.
  exists (fresh (dom h)). split; [apply is_fresh | reflexivity].
Qed.

Lemma copy_spec (r : nat) (h : gmap nat (list R)) (g : RandomState) :
  exists r', (r' ∉ dom h) /\
    Heap.copy r (Heap.mkWorld h g) =
    Ok (r', Heap.mkWorld (<[r':=h !!! r]> h) g).
Proof.
  exists (fresh (dom h)). split; [apply is_fresh | reflexivity].
Qed.

Lemma set_item_last (r : nat) (v : R) (l : list R) (x : R)
    (h : gmap nat (list R)) (g : RandomState) :
  h !!! r = l ++ [x] ->
  Heap.set_item r (-1) v (Heap.mkWorld h g) =
  Ok (tt, Heap.mkWorld (<[r:=l ++ [v]]> h) g).
Proof.
  intros Hr. unfold Heap.set_item, Heap.load, Heap.store, bind, lift.
  cbn [Heap.objects Heap.random]. rewrite Hr, setitem_last. reflexivity.
Qed.

Lemma item_penultimate (r : nat) (l : list R) (y x : R)
    (h : gmap nat (list R)) (g : RandomState) :
  h !!! r = l ++ [y; x] ->
  Heap.item r (-2) (Heap.mkWorld h g) = Ok (y, Heap.mkWorld h g).
Proof.
  intros Hr. unfold Heap.item, Heap.load, bind, lift.
  cbn [Heap.objects]. rewrite Hr, getitem_penultimate. reflexivity.
Qed.


Ltac step_with E := rewrite (bind_Ok _ _ _ _ _ E); clear E.

Ltac step_alloc spec r F :=
  match goal with
  | |- context [bind (?op ?a ?b) _ (Heap.mkWorld ?h ?g)] =>
      let E := fresh "E" in
      destruct (spec a b h g) as (r & F & E);
      rewrite (bind_Ok _ _ _ _ _ E); clear E;
      rewrite ?dom_insert_L in F
  | |- context [bind (?op ?a) _ (Heap.mkWorld ?h ?g)] =>
      let E := fresh "E" in
      destruct (spec a h g) as (r & F & E);
      rewrite (bind_Ok _ _ _ _ _ E); clear E;
      rewrite ?dom_insert_L in F
  end.

Ltac step_set_item :=
  erewrite bind_Ok by (eapply set_item_last; apply lookup_total_insert_eq);
  rewrite insert_insert_eq.

Lemma heap_get_next_closed_form
    (self : Heap.TelemetrySimulator) (dt : R)
    (h : gmap nat (list R)) (g : RandomState)
    (v0 : R) (vd : list R) (g0 : R) (m : list R) (x : R)
    (d0 : R) (gd : list R) :
  Heap.sim_refs self ⊆ dom h ->
  h !!! Heap.velocity_data self = v0 :: vd ->
  h !!! Heap.gforce_time self = g0 :: m ++ [x] ->
  h !!! Heap.gforce_data self = d0 :: gd ->
  let t' := Heap.elapsed_seconds self + dt in
  let lat := py_max 10 (py_min 100 (24 + (0 + 3 * variate g 2))) in
  let nv := py_max 0 (15 + 10 * sin (t' / 20) + (0 + 1 * variate g 3)) in
  let ng := py_max 0 (2 + 3 * exp (- ((py_mod t' 30 - 15) ^ 2) / 50)
                      + (0 + 0.3 * variate g 4)) in
  exists r1 r2 r3 p1 p2 p3 p4,
    NoDup [r1; r2; r3; p1; p2; p3; p4] /\
    ({[r1; r2; r3; p1; p2; p3; p4]} : gset nat) ## dom h /\
    Heap.get_next self dt (Heap.mkWorld h g) =
    Ok ((Heap.mkSim t' (Heap.velocity_time self) r1 r2 r3,
         Heap.Packet.mk
           (101.3 + sin (t' / 10) * 2 + (0 + 0.1 * variate g 0))
           (24.8 + sin (t' / 15 + 1) * 3 + (0 + 0.2 * variate g 1))
           (1245.8 + t' * 2.5 + sin (t' / 8) * 50)
           (12.4 + sin (t' / 7) * 8)
           lat p1 p2 p3 p4 nv ng),
        Heap.mkWorld
          (<[p4:=gd ++ [ng]]>
             (<[p3:=(m ++ [x]) ++ [x + 0.055]]>
                (<[p2:=vd ++ [nv]]>
                   (<[p1:=h !!! Heap.velocity_time self]>
                      (<[r3:=gd ++ [ng]]>
                         (<[r2:=(m ++ [x]) ++ [x + 0.055]]>
                            (<[r1:=vd ++ [nv]]> h)))))))
          (drawn g 5)).
Proof.
  intros Hdom Hvd Hgt Hgd t' lat nv ng.
  unfold Heap.sim_refs in Hdom.
  unfold Heap.get_next.
  do 4 (erewrite bind_Ok by apply draw_normal).
  fold t'.
  change (py_max 0 (15 + 10 * sin (t' / 20) + _)) with nv.
  (* velocidad *)
  step_alloc roll_spec r1 F1.
  rewrite Hvd, np_roll_left_cons.
  step_set_item.
  (* g-force *)
  step_alloc roll_spec r2 F2.
  rewrite lookup_total_insert_ne by set_solver.
  rewrite Hgt, np_roll_left_cons.
  rewrite <- (app_assoc m [x] [g0]). cbn [app].
  erewrite bind_Ok
    by (eapply item_penultimate; apply lookup_total_insert_eq).
  replace (m ++ [x; g0]) with ((m ++ [x]) ++ [g0])
    by (rewrite <- app_assoc; reflexivity).
  step_set_item.
  erewrite bind_Ok by apply draw_normal.
  change (py_max 0 (2 + _ + _)) with ng.
  step_alloc roll_spec r3 F3.
  rewrite !lookup_total_insert_ne by set_solver.
  rewrite Hgd, np_roll_left_cons.
  step_set_item.
  (* the copies *)
  step_alloc copy_spec p1 G1.
  rewrite !lookup_total_insert_ne by set_solver.
  step_alloc copy_spec p2 G2.
  rewrite !(lookup_total_insert_ne _ p1), !(lookup_total_insert_ne _ r3),
    !(lookup_total_insert_ne _ r2) by set_solver.
  rewrite lookup_total_insert_eq.
  step_alloc copy_spec p3 G3.
  rewrite !(lookup_total_insert_ne _ p2), !(lookup_total_insert_ne _ p1),
    !(lookup_total_insert_ne _ r3) by set_solver.
  rewrite lookup_total_insert_eq.
  step_alloc copy_spec p4 G4.
  rewrite !(lookup_total_insert_ne _ p3), !(lookup_total_insert_ne _ p2),
    !(lookup_total_insert_ne _ p1) by set_solver.
  rewrite lookup_total_insert_eq.
  exists r1, r2, r3, p1, p2, p3, p4.
  split; [repeat (apply NoDup_cons; split; [set_solver|]); apply NoDup_nil_2|].
  split; [set_solver|].
  reflexivity.
Qed.

Lemma linspace_spec (start stop : R) (num : nat)
    (h : gmap nat (list R)) (g : RandomState) :
  exists r, (r ∉ dom h) /\
    Heap.linspace start stop num (Heap.mkWorld h g) =
    Ok (r, Heap.mkWorld (<[r:=np_linspace start stop num]> h) g).
Proof. apply alloc_spec. Qed.

Lemma zeros_like_spec (r : nat) (h : gmap nat (list R)) (g : RandomState) :
  exists r', (r' ∉ dom h) /\
    Heap.zeros_like r (Heap.mkWorld h g) =
    Ok (r', Heap.mkWorld (<[r':=np_zeros_like (h !!! r)]> h) g).
Proof.
  exists (fresh (dom h)). split; [apply is_fresh | reflexivity].
Qed.

Lemma heap_init_closed_form (h : gmap nat (list R)) (g : RandomState) :
  exists r1 r2 r3 r4,
    NoDup [r1; r2; r3; r4] /\
    ({[r1; r2; r3; r4]} : gset nat) ## dom h /\
    Heap.__init__ (Heap.mkWorld h g) =
    Ok (Heap.mkSim 0.0 r1 r2 r3 r4,
        Heap.mkWorld
          (<[r4:=np_zeros_like (np_linspace (-1.5) 4.0 100)]>
             (<[r3:=np_linspace (-1.5) 4.0 100]>
                (<[r2:=np_zeros_like (np_linspace (-120) 0 100)]>
                   (<[r1:=np_linspace (-120) 0 100]> h))))
          g).
Proof.
  unfold Heap.__init__.
  destruct (linspace_spec (-120) 0 100 h g) as (r1 & F1 & E).
  step_with E.
  step_alloc zeros_like_spec r2 F2.
  rewrite lookup_total_insert_eq.
  match goal with
  | |- context [bind (Heap.linspace ?a ?b ?n) _ (Heap.mkWorld ?h ?g)] =>
      destruct (linspace_spec a b n h g) as (r3 & F3 & E)
  end.
  step_with E. rewrite ?dom_insert_L in F3.
  step_alloc zeros_like_spec r4 F4.
  rewrite lookup_total_insert_eq.
  exists r1, r2, r3, r4.
  split; [repeat (apply NoDup_cons; split; [set_solver|]); apply NoDup_nil_2|].
  split; [set_solver|].
  reflexivity.
Qed.

Lemma heap_reset_eq_init (self : Heap.TelemetrySimulator) :
  Heap.reset self = Heap.__init__.
Proof. reflexivity. Qed.

(** The view of a freshly constructed simulator object is the simulator
    of part one. *)
Lemma view_fresh (h : gmap nat (list R)) (g : RandomState) (r1 r2 r3 r4 : nat) :
  NoDup [r1; r2; r3; r4] ->
  view
    (Heap.mkWorld
       (<[r4:=np_zeros_like (np_linspace (-1.5) 4.0 100)]>
          (<[r3:=np_linspace (-1.5) 4.0 100]>
             (<[r2:=np_zeros_like (np_linspace (-120) 0 100)]>
                (<[r1:=np_linspace (-120) 0 100]> h))))
       g)
    (Heap.mkSim 0.0 r1 r2 r3 r4) = __init__.
Proof.
  intros Hnd.
  apply NoDup_cons in Hnd as [N1 Hnd].
  apply NoDup_cons in Hnd as [N2 Hnd].
  apply NoDup_cons in Hnd as [N3 _].
  unfold view, __init__.
  cbn [Heap.objects Heap.elapsed_seconds Heap.velocity_time
       Heap.velocity_data Heap.gforce_time Heap.gforce_data].
  f_equal.
  - rewrite !lookup_total_insert_ne by set_solver.
    apply lookup_total_insert_eq.
  - rewrite !lookup_total_insert_ne by set_solver.
    apply lookup_total_insert_eq.
  - rewrite !lookup_total_insert_ne by set_solver.
    apply lookup_total_insert_eq.
  - apply lookup_total_insert_eq.
Qed.

Ltac split_NoDup H :=
  repeat (let N := fresh "N" in apply NoDup_cons in H as [N H]);
  repeat match goal with
         | N : _ ∉ _ :: _ |- _ =>
             let D := fresh "D" in apply not_elem_of_cons in N as [D N]
         | N : _ ∉ [] |- _ => clear N
         end.


Lemma disjoint_subseteq_l (X Y Z : gset nat) : X ⊆ Y -> Y ## Z -> X ## Z.
Proof. set_solver. Qed.

Lemma copies_apart (v r1 r2 r3 p1 p2 p3 p4 : nat) :
  r1 ≠ p1 -> r1 ≠ p2 -> r1 ≠ p3 -> r1 ≠ p4 ->
  r2 ≠ p1 -> r2 ≠ p2 -> r2 ≠ p3 -> r2 ≠ p4 ->
  r3 ≠ p1 -> r3 ≠ p2 -> r3 ≠ p3 -> r3 ≠ p4 ->
  p1 ≠ v -> p2 ≠ v -> p3 ≠ v -> p4 ≠ v ->
  ({[p1; p2; p3; p4]} : gset nat) ## {[v; r1; r2; r3]}.
Proof. intros. set_unfold. intros x Hx Hy. intuition congruence. Qed.

Lemma rolled_are_new (X : gset nat) (v r1 r2 r3 p1 p2 p3 p4 : nat) :
  ({[r1; r2; r3; p1; p2; p3; p4]} : gset nat) ## X ->
  ({[v; r1; r2; r3]} : gset nat) ⊆
  {[v]} ∪ (({[p4]} ∪ ({[p3]} ∪ ({[p2]} ∪ ({[p1]} ∪
             ({[r3]} ∪ ({[r2]} ∪ ({[r1]} ∪ X))))))) ∖ X).
Proof.
  intros H. set_unfold. intros x Hx. specialize (H x).
  intuition (subst; auto).
Qed.

Lemma fresh_ne (X : gset nat) (h : gmap nat (list R)) (r s : nat) :
  X ## dom h -> s ∈ X -> r ∈ dom h -> s ≠ r.
Proof. set_solver. Qed.

Lemma heap_get_next_simulates
    (self : Heap.TelemetrySimulator) (dt : R)
    (h : gmap nat (list R)) (g : RandomState) :
  Heap.sim_refs self ⊆ dom h ->
  invariant (view (Heap.mkWorld h g) self) ->
  exists self' pkt h',
    Heap.get_next self dt (Heap.mkWorld h g) =
      Ok ((self', pkt), Heap.mkWorld h' (drawn g 5)) /\
    get_next (view (Heap.mkWorld h g) self) dt g =
      Ok ((view (Heap.mkWorld h' (drawn g 5)) self',
           view_packet (Heap.mkWorld h' (drawn g 5)) pkt),
          drawn g 5) /\
    (forall r, r ∈ dom h -> h' !! r = h !! r) /\
    Heap.sim_refs self' ∪ Heap.packet_refs pkt ⊆ dom h' /\
    Heap.packet_refs pkt ## dom h /\
    Heap.packet_refs pkt ## Heap.sim_refs self' /\
    Heap.sim_refs self' ⊆ {[Heap.velocity_time self]} ∪ (dom h' ∖ dom h).
Proof.
  intros Hdom Hinv.
  destruct (invariant_decompose _ Hinv)
    as (t & vt & v0 & vd & g0 & m & x & d0 & gd & Hview).
  pose proof (f_equal elapsed_seconds Hview) as Ht.
  pose proof (f_equal velocity_time Hview) as Hvt.
  pose proof (f_equal velocity_data Hview) as Hvd.
  pose proof (f_equal gforce_time Hview) as Hgt.
  pose proof (f_equal gforce_data Hview) as Hgd.
  cbn [view elapsed_seconds velocity_time velocity_data gforce_time
       gforce_data Heap.objects] in Ht, Hvt, Hvd, Hgt, Hgd.
  destruct (heap_get_next_closed_form self dt h g v0 vd g0 m x d0 gd
              Hdom Hvd Hgt Hgd)
    as (r1 & r2 & r3 & p1 & p2 & p3 & p4 & Hnd & Hfresh & Hrun).
  split_NoDup Hnd. clear Hnd.
  assert (Heap.velocity_time self ∈ dom h) as Hvt_dom.
  { clear -Hdom. unfold Heap.sim_refs in Hdom. set_solver. }
  assert (forall s, s ∈ ({[r1; r2; r3; p1; p2; p3; p4]} : gset nat) ->
                    s ≠ Heap.velocity_time self) as Hnew.
  { intros s Hs. exact (fresh_ne _ h _ s Hfresh Hs Hvt_dom). }
  assert (r1 ≠ Heap.velocity_time self) as V1 by (apply Hnew; clear; set_solver).
  assert (r2 ≠ Heap.velocity_time self) as V2 by (apply Hnew; clear; set_solver).
  assert (r3 ≠ Heap.velocity_time self) as V3 by (apply Hnew; clear; set_solver).
  assert (p1 ≠ Heap.velocity_time self) as V4 by (apply Hnew; clear; set_solver).
  assert (p2 ≠ Heap.velocity_time self) as V5 by (apply Hnew; clear; set_solver).
  assert (p3 ≠ Heap.velocity_time self) as V6 by (apply Hnew; clear; set_solver).
  assert (p4 ≠ Heap.velocity_time self) as V7 by (apply Hnew; clear; set_solver).
  clear Hnew.
  eexists _, _, _. split; [exact Hrun|]. clear Hrun.
  unfold Heap.sim_refs, Heap.packet_refs in *.
  cbn [Heap.velocity_time Heap.velocity_data Heap.gforce_time
       Heap.gforce_data Heap.Packet.velocity_time Heap.Packet.velocity_data
       Heap.Packet.gforce_time Heap.Packet.gforce_data].
  split.
  { rewrite Hview, get_next_closed_form.
    unfold view, view_packet.
    cbn [Heap.objects Heap.elapsed_seconds Heap.velocity_time
         Heap.velocity_data Heap.gforce_time Heap.gforce_data
         Heap.Packet.pressure Heap.Packet.temperature Heap.Packet.altitude
         Heap.Packet.altitude_rate Heap.Packet.latency
         Heap.Packet.velocity_time Heap.Packet.velocity_data
         Heap.Packet.gforce_time Heap.Packet.gforce_data
         Heap.Packet.new_velocity Heap.Packet.new_gforce].
    repeat first
      [ rewrite lookup_total_insert_eq
      | rewrite lookup_total_insert_ne by congruence ].
    rewrite <- Ht, Hvt. reflexivity. }
  clear Hview Hinv Ht Hvt Hvd Hgt Hgd.
  split.
  { intros r Hr.
    assert (forall s, s ∈ ({[r1; r2; r3; p1; p2; p3; p4]} : gset nat) -> s ≠ r)
      as Hnew.
    { intros s Hs. exact (fresh_ne _ h _ s Hfresh Hs Hr). }
    rewrite !lookup_insert_ne by (apply Hnew; clear; set_solver).
    reflexivity. }
  rewrite !dom_insert_L.
  split; [clear -Hdom; set_solver|].
  split.
  { eapply disjoint_subseteq_l; [|exact Hfresh]. clear. set_solver. }
  split; [apply copies_apart; assumption|].
  apply rolled_are_new, Hfresh.
Qed.

(** * The invariant of the reachable program states *)

Lemma view_insert_other (h : gmap nat (list R)) (g g' : RandomState)
    (self : Heap.TelemetrySimulator) (r : nat) (a : list R) :
  r ∉ Heap.sim_refs self ->
  view (Heap.mkWorld (<[r:=a]> h) g) self = view (Heap.mkWorld h g') self.
Proof.
  intros Hr. unfold Heap.sim_refs in Hr.
  apply not_elem_of_union in Hr as [Hr H4].
  apply not_elem_of_union in Hr as [Hr H3].
  apply not_elem_of_union in Hr as [H1 H2].
  apply not_elem_of_singleton in H1, H2, H3, H4.
  unfold view. cbn [Heap.objects].
  rewrite !lookup_total_insert_ne by assumption.
  reflexivity.
Qed.

Lemma view_mutate (c : Heap.Config) (r : nat) (a : list R) :
  Heap.sim_refs (Heap.simulator c) ## Heap.consumer c ->
  r ∈ Heap.consumer c ->
  view (Heap.mutate r a (Heap.world c)) (Heap.simulator c) =
  view (Heap.world c) (Heap.simulator c).
Proof.
  intros Hsep Hr. unfold Heap.mutate.
  destruct (Heap.world c) as [h g]. cbn [Heap.objects Heap.random].
  apply view_insert_other.
  intros Hin. exact (Hsep r Hin Hr).
Qed.

Lemma heap_invariant_fresh (h : gmap nat (list R)) (g : RandomState)
    (self : Heap.TelemetrySimulator) (w : Heap.World) (C : gset nat) :
  Heap.__init__ (Heap.mkWorld h g) = Ok (self, w) ->
  C ⊆ dom h ->
  heap_invariant (Heap.mkConfig w self C).
Proof.
  intros Hrun HC.
  destruct (heap_init_closed_form h g)
    as (r1 & r2 & r3 & r4 & Hnd & Hfresh & Heq).
  rewrite Heq in Hrun. injection Hrun as <- <-.
  constructor; cbn [Heap.world Heap.simulator Heap.consumer Heap.objects].
  - unfold Heap.sim_refs.
    cbn [Heap.velocity_time Heap.velocity_data Heap.gforce_time
         Heap.gforce_data].
    rewrite !dom_insert_L. clear. set_solver.
  - unfold Heap.sim_refs.
    cbn [Heap.velocity_time Heap.velocity_data Heap.gforce_time
         Heap.gforce_data].
    clear -Hfresh HC. set_solver.
  - rewrite !dom_insert_L. clear -HC. set_solver.
  - rewrite view_fresh by exact Hnd. apply invariant_init.
Qed.

Lemma frame_dom (h h' : gmap nat (list R)) :
  (forall r, r ∈ dom h -> h' !! r = h !! r) -> dom h ⊆ dom h'.
Proof.
  intros Hframe r Hr.
  apply elem_of_dom. rewrite (Hframe r Hr). apply elem_of_dom, Hr.
Qed.

Lemma separate_after (S S' P C D D' : gset nat) (v : nat) :
  S' ⊆ {[v]} ∪ (D' ∖ D) ->
  v ∈ S -> S ## C -> C ⊆ D -> P ## S' ->
  S' ## C ∪ P.
Proof. set_solver. Qed.

Lemma velocity_time_in_refs (self : Heap.TelemetrySimulator) :
  Heap.velocity_time self ∈ Heap.sim_refs self.
Proof. unfold Heap.sim_refs. set_solver. Qed.

Lemma heap_invariant_step (c c' : Heap.Config) :
  heap_invariant c -> Heap.step c c' -> heap_invariant c'.
Proof.
  intros [Halloc Hsep Hcons Hview] Hstep.
  destruct Hstep as [c self' w' Hrun | c dt self' pkt w' Hrun
                    | c r a Hr | c a r w' Hrun].
  - destruct (Heap.world c) as [h g]. cbn [Heap.objects] in *.
    rewrite heap_reset_eq_init in Hrun.
    exact (heap_invariant_fresh h g self' w' _ Hrun Hcons).
  - destruct (Heap.world c) as [h g] eqn:Hw. cbn [Heap.objects] in *.
    destruct (heap_get_next_simulates (Heap.simulator c) dt h g Halloc Hview)
      as (self2 & pkt2 & h' & Hrun2 & Hpure & Hframe & Hdom' & Hnew & Hapart
          & Hrolled).
    rewrite Hrun2 in Hrun. injection Hrun as <- <- <-.
    pose proof (frame_dom h h' Hframe) as Hsub.
    constructor; cbn [Heap.world Heap.simulator Heap.consumer Heap.objects].
    + clear -Hdom'. set_solver.
    + eapply separate_after; eauto using velocity_time_in_refs.
    + clear -Hdom' Hsub Hcons. set_solver.
    + eapply invariant_get_next; [exact Hview | exact Hpure].
  - constructor; cbn [Heap.world Heap.simulator Heap.consumer].
    + unfold Heap.mutate. cbn [Heap.objects]. rewrite dom_insert_L.
      clear -Halloc. set_solver.
    + exact Hsep.
    + unfold Heap.mutate. cbn [Heap.objects]. rewrite dom_insert_L.
      clear -Hcons. set_solver.
    + rewrite view_mutate by assumption. exact Hview.
  - destruct (Heap.world c) as [h g]. cbn [Heap.objects] in *.
    destruct (alloc_spec a h g) as (r' & Hfresh & Heq).
    rewrite Heq in Hrun. injection Hrun as <- <-.
    constructor; cbn [Heap.world Heap.simulator Heap.consumer Heap.objects].
    + rewrite dom_insert_L. clear -Halloc. set_solver.
    + clear -Hsep Halloc Hfresh. set_solver.
    + rewrite dom_insert_L. clear -Hcons. set_solver.
    + rewrite (view_insert_other h g g); [exact Hview|].
      clear -Halloc Hfresh. set_solver.
Qed.

Lemma heap_reachable_invariant (c : Heap.Config) :
  Heap.reachable c -> heap_invariant c.
Proof.
  induction 1 as [w0 self w Hrun | c c' _ IH Hstep].
  - destruct w0 as [h g].
    exact (heap_invariant_fresh h g self w _ Hrun (reflexivity _)).
  - exact (heap_invariant_step c c' IH Hstep).
Qed.

(** The arrays of a packet have the contents of the simulator's arrays
    after the call. *)
Lemma get_next_snapshots self dt g self' pkt g' :
  invariant self ->
  get_next self dt g = Ok ((self', pkt), g') ->
  packet_buffers pkt = buffers self'.
Proof.
  intros Hinv Hstep.
  destruct (invariant_decompose self Hinv)
    as (t & vt & v0 & vd & g0 & m & x & d0 & gd & ->).
  rewrite get_next_closed_form in Hstep.
  injection Hstep as <- <- _. reflexivity.
Qed.

Lemma just_constructed_reachable : Heap.reachable just_constructed.
Proof.
  exact (Heap.reachable_init (Heap.mkWorld ∅ zero_noise) _ _ eq_refl).
Qed.

(** C7. In every reachable program state: updating any array the
    consumer holds (the arrays of all packets returned so far among them)
    leaves the simulator's clock and buffers as they are; a step that
    changes them is a [reset] or a [get_next] call; and a [get_next] call
    returns a packet whose four arrays are new objects, none of them an
    array of the simulator, holding the contents of the simulator's
    arrays, so that updating them leaves the simulator as it is. *)
Theorem packets_hold_copies (c : Heap.Config) (dt : R) :
  Heap.reachable c ->
  (forall r a,
      r ∈ Heap.consumer c ->
      view (Heap.mutate r a (Heap.world c)) (Heap.simulator c) =
      view (Heap.world c) (Heap.simulator c)) /\
  (forall c',
      Heap.step c c' ->
      view (Heap.world c') (Heap.simulator c') <>
      view (Heap.world c) (Heap.simulator c) ->
      (exists w',
          Heap.reset (Heap.simulator c) (Heap.world c) =
          Ok (Heap.simulator c', w')) \/
      (exists dt' pkt w',
          Heap.get_next (Heap.simulator c) dt' (Heap.world c) =
          Ok ((Heap.simulator c', pkt), w'))) /\
  exists self' pkt w',
    Heap.get_next (Heap.simulator c) dt (Heap.world c) =
      Ok ((self', pkt), w') /\
    Heap.packet_refs pkt ## Heap.sim_refs self' /\
    Heap.packet_refs pkt ## dom (Heap.objects (Heap.world c)) /\
    packet_buffers (view_packet w' pkt) = buffers (view w' self') /\
    forall r a,
      r ∈ Heap.packet_refs pkt ->
      view (Heap.mutate r a w') self' = view w' self'.
Proof.
  intros Hreach.
  apply heap_reachable_invariant in Hreach.
  pose proof Hreach as [Halloc Hsep Hcons Hview].
  split; [intros r a Hr; apply view_mutate; assumption|].
  split.
  { intros c' Hstep Hchanged.
    destruct Hstep as [c self' w' Hrun | c dt' self' pkt w' Hrun
                      | c r a Hr | c a r w' Hrun];
      cbn [Heap.world Heap.simulator] in *.
    - left. eauto.
    - right. eauto.
    - exfalso. apply Hchanged. apply view_mutate; assumption.
    - exfalso. apply Hchanged.
      destruct (Heap.world c) as [h g]. cbn [Heap.objects] in *.
      destruct (alloc_spec a h g) as (r' & Hfresh & Heq).
      rewrite Heq in Hrun. injection Hrun as <- <-.
      apply view_insert_other.
      clear -Halloc Hfresh. set_solver. }
  destruct (Heap.world c) as [h g]. cbn [Heap.objects] in *.
  destruct (heap_get_next_simulates (Heap.simulator c) dt h g Halloc Hview)
    as (self' & pkt & h' & Hrun & Hpure & Hframe & Hdom' & Hnew & Hapart
        & Hrolled).
  exists self', pkt, (Heap.mkWorld h' (drawn g 5)).
  split; [exact Hrun|].
  split; [exact Hapart|].
  split; [exact Hnew|].
  split; [exact (get_next_snapshots _ _ _ _ _ _ Hview Hpure)|].
  intros r a Hr. unfold Heap.mutate. cbn [Heap.objects Heap.random].
  apply view_insert_other.
  intros Hin. exact (Hapart r Hr Hin).
Qed.

Lemma packets_hold_copies_witness :
  (forall r a,
      r ∈ Heap.consumer just_constructed ->
      view (Heap.mutate r a (Heap.world just_constructed))
           (Heap.simulator just_constructed) =
      view (Heap.world just_constructed) (Heap.simulator just_constructed)) /\
  (forall c',
      Heap.step just_constructed c' ->
      view (Heap.world c') (Heap.simulator c') <>
      view (Heap.world just_constructed) (Heap.simulator just_constructed) ->
      (exists w',
          Heap.reset (Heap.simulator just_constructed)
                     (Heap.world just_constructed) =
          Ok (Heap.simulator c', w')) \/
      (exists dt' pkt w',
          Heap.get_next (Heap.simulator just_constructed) dt'
                        (Heap.world just_constructed) =
          Ok ((Heap.simulator c', pkt), w'))) /\
  exists self' pkt w',
    Heap.get_next (Heap.simulator just_constructed) 0.5
                  (Heap.world just_constructed) =
      Ok ((self', pkt), w') /\
    Heap.packet_refs pkt ## Heap.sim_refs self' /\
    Heap.packet_refs pkt ## dom (Heap.objects (Heap.world just_constructed)) /\
    packet_buffers (view_packet w' pkt) = buffers (view w' self') /\
    forall r a,
      r ∈ Heap.packet_refs pkt ->
      view (Heap.mutate r a w') self' = view w' self'.
Proof.
  apply (packets_hold_copies just_constructed 0.5).
  apply just_constructed_reachable.
Defined.

(** * Further properties of the simulator *)

Lemma getitem_neg2_short (a : list R) :
  (length a < 2)%nat -> getitem a (-2) = Raise IndexError.
Proof.
  intros Hlen. unfold getitem, normalize_index.
  change (-2 <? 0)%Z with true. cbv iota.
  rewrite (proj2 (Z.leb_gt _ _)) by lia. reflexivity.
Qed.

Lemma np_roll_empty (shift : Z) : np_roll [] shift = [].
Proof. reflexivity. Qed.

Lemma length_zero_nil (a : list R) : length a = 0%nat -> a = [].
Proof. destruct a; [reflexivity | discriminate]. Qed.

(** X1. [get_next] raises [IndexError] exactly when [velocity_data] is empty,
    [gforce_time] has fewer than two elements or [gforce_data] is empty (the
    attributes are public, so a caller can bring this about); with longer
    buffers it returns a packet, for every step and random source. *)
Theorem get_next_raises_iff_buffers_too_short
    (self : TelemetrySimulator) (dt : R) (g : RandomState) :
  (get_next self dt g = Raise IndexError <->
   (length (velocity_data self) = 0 \/ length (gforce_time self) < 2 \/
    length (gforce_data self) = 0)%nat) /\
  ((exists self' pkt g', get_next self dt g = Ok ((self', pkt), g')) <->
   (1 <= length (velocity_data self) /\ 2 <= length (gforce_time self) /\
    1 <= length (gforce_data self))%nat).
Proof.
  assert ((1 <= length (velocity_data self) /\ 2 <= length (gforce_time self)
           /\ 1 <= length (gforce_data self))%nat ->
          exists self' pkt g', get_next self dt g = Ok ((self', pkt), g'))
    as Hok.
  { intros (Hvd & Hgt & Hgd).
    destruct (sim_decompose self Hvd Hgt Hgd)
      as (t & vt & v0 & vd & g0 & m & x & d0 & gd & ->).
    rewrite get_next_closed_form. eauto. }
  assert ((length (velocity_data self) = 0 \/ length (gforce_time self) < 2
           \/ length (gforce_data self) = 0)%nat ->
          get_next self dt g = Raise IndexError) as Hraise.
  { intros Hshort.
    destruct self as [t vt vd gt gd].
    cbn [velocity_data gforce_time gforce_data] in Hshort.
    unfold get_next, bind, np_random_normal, lift, ret.
    cbn [elapsed_seconds velocity_time velocity_data gforce_time gforce_data
         variates position].
    destruct vd as [|v0 vd].
    { rewrite np_roll_empty, setitem_empty. reflexivity. }
    rewrite np_roll_left_cons, setitem_last.
    destruct (le_lt_dec 2 (length gt)) as [Hgt|Hgt].
    - destruct gd as [|d0 gd]; [|cbn [length] in Hshort; lia].
      destruct gt as [|g0 gt]; [cbn in Hgt; lia|].
      destruct (exists_last (l := gt)) as [m [x ->]].
      { intros ->. cbn in Hgt. lia. }
      rewrite np_roll_left_cons.
      rewrite <- (app_assoc m [x] [g0]). cbn [app].
      rewrite getitem_penultimate.
      replace (m ++ [x; g0]) with ((m ++ [x]) ++ [g0])
        by (rewrite <- app_assoc; reflexivity).
      rewrite setitem_last.
      rewrite np_roll_empty, setitem_empty. reflexivity.
    - rewrite getitem_neg2_short; [reflexivity|].
      rewrite length_np_roll. exact Hgt. }
  split; split.
  - intros Heq.
    destruct (le_lt_dec 1 (length (velocity_data self))) as [Hvd|Hvd]; [|lia].
    destruct (le_lt_dec 2 (length (gforce_time self))) as [Hgt|Hgt]; [|lia].
    destruct (le_lt_dec 1 (length (gforce_data self))) as [Hgd|Hgd]; [|lia].
    destruct (Hok (conj Hvd (conj Hgt Hgd))) as (self' & pkt & g' & Heq').
    rewrite Heq in Heq'. discriminate.
  - exact Hraise.
  - intros (self' & pkt & g' & Heq).
    destruct (le_lt_dec 1 (length (velocity_data self))) as [Hvd|Hvd];
      [|rewrite Hraise in Heq by lia; discriminate].
    destruct (le_lt_dec 2 (length (gforce_time self))) as [Hgt|Hgt];
      [|rewrite Hraise in Heq by lia; discriminate].
    destruct (le_lt_dec 1 (length (gforce_data self))) as [Hgd|Hgd];
      [|rewrite Hraise in Heq by lia; discriminate].
    auto.
  - exact Hok.
Qed.

Lemma final_nil self : final self [] = self.
Proof. reflexivity. Qed.

Lemma final_cons self r out : final self (r :: out) = final (fst r) out.
Proof.
  unfold final. cbn [map].
  destruct (map fst out) as [|a l] eqn:E; [reflexivity|].
  rewrite last_cons. destruct (last (a :: l)) eqn:El; [reflexivity|].
  apply last_None in El. discriminate.
Qed.

Lemma drawn_drawn g j k : drawn (drawn g j) k = drawn g (k + j).
Proof. unfold drawn. cbn [variates position]. f_equal. lia. Qed.

Lemma variate_drawn g j k : variate (drawn g j) k = variate g (k + j).
Proof. unfold variate, drawn. cbn [variates position]. f_equal. lia. Qed.

Lemma gforce_grid_shift (newest : R) (from n : nat) :
  gforce_grid (newest + 0.055) from n = gforce_grid newest (S from) n.
Proof.
  unfold gforce_grid. rewrite <- seq_shift, map_map.
  apply map_ext. intros k. rewrite S_INR. lra.
Qed.

Lemma get_next_seq_run (self : TelemetrySimulator) (dts : list R)
    (g : RandomState) :
  invariant self ->
  exists out newest,
    get_next_seq self dts g = Ok (out, drawn g (5 * length dts)) /\
    length out = length dts /\
    invariant (final self out) /\
    last (gforce_time self) = Some newest /\
    elapsed_seconds (final self out) =
      elapsed_seconds self + fold_right Rplus 0 dts /\
    velocity_data (final self out) =
      drop (length dts)
           (velocity_data self ++ map (fun r => Packet.new_velocity (snd r)) out) /\
    gforce_data (final self out) =
      drop (length dts)
           (gforce_data self ++ map (fun r => Packet.new_gforce (snd r)) out) /\
    gforce_time (final self out) =
      drop (length dts)
           (gforce_time self ++ gforce_grid newest 1 (length dts)) /\
    last (gforce_time (final self out)) =
      Some (newest + 0.055 * INR (length dts)).
Proof.
  revert self g.
  induction dts as [|dt dts IH]; intros self g Hinv.
  - destruct (invariant_decompose self Hinv)
      as (t & vt & v0 & vd & g0 & m & x & d0 & gd & ->).
    exists [], x. cbn [get_next_seq length map fold_right gforce_time].
    rewrite final_nil. unfold gforce_grid. cbn [map seq drop].
    rewrite !app_nil_r.
    split; [destruct g; reflexivity|].
    split; [reflexivity|].
    split; [exact Hinv|].
    split; [rewrite last_cons, last_snoc; reflexivity|].
    split; [cbn [elapsed_seconds]; lra|].
    do 3 (split; [reflexivity|]).
    cbn [gforce_time]. rewrite last_cons, last_snoc. f_equal. cbn [INR]. lra.
  - destruct (invariant_decompose self Hinv)
      as (t & vt & v0 & vd & g0 & m & x & d0 & gd & Hself).
    pose proof (get_next_closed_form t vt v0 vd g0 m x d0 gd dt g) as Hstep.
    cbv zeta in Hstep. rewrite <- Hself in Hstep.
    pose proof (invariant_get_next _ _ _ _ _ _ Hinv Hstep) as Hinv'.
    match type of Hstep with
    | _ = Ok ((?s, ?p), _) => set (self1 := s) in *; set (pkt := p) in *
    end.
    destruct (IH self1 (drawn g 5) Hinv')
      as (out & newest & Hrun & Hlen & Hfin & Hlast & Hclk & Hvd & Hgd & Hgt
          & Hnew).
    exists ((self1, pkt) :: out), x.
    cbn [get_next_seq]. unfold bind at 1. rewrite Hstep.
    cbn [fst]. unfold bind at 1. rewrite Hrun.
    rewrite final_cons. cbn [fst snd length map fold_right].
    assert (newest = x + 0.055) as ->.
    { subst self1. cbn [gforce_time] in Hlast.
      rewrite last_snoc in Hlast. congruence. }
    split.
    { unfold ret. rewrite drawn_drawn. do 3 f_equal. lia. }
    split; [rewrite Hlen; reflexivity|].
    split; [exact Hfin|].
    split; [rewrite Hself; cbn [gforce_time]; rewrite last_cons, last_snoc;
            reflexivity|].
    split.
    { rewrite Hclk. subst self1. rewrite Hself. cbn [elapsed_seconds]. lra. }
    rewrite Hnew, Hvd, Hgd, Hgt. subst self1 pkt. rewrite Hself.
    cbn [velocity_data gforce_data gforce_time Packet.new_velocity
         Packet.new_gforce].
    rewrite gforce_grid_shift.
    unfold gforce_grid. cbn [seq map app drop].
    rewrite <- !app_assoc. cbn [app].
    replace (x + 0.055 * INR 1) with (x + 0.055) by (cbn [INR]; lra).
    do 3 (split; [reflexivity|]).
    f_equal. rewrite S_INR. lra.
Qed.

Lemma get_next_seq_packets (self : TelemetrySimulator) (dts : list R)
    (g : RandomState) out g' :
  invariant self ->
  get_next_seq self dts g = Ok (out, g') ->
  forall k s pkt,
    out !! k = Some (s, pkt) ->
    let t := elapsed_seconds s in
    Packet.pressure pkt =
      101.3 + sin (t / 10) * 2 + (0 + 0.1 * variate g (5 * k)) /\
    Packet.temperature pkt =
      24.8 + sin (t / 15 + 1) * 3 + (0 + 0.2 * variate g (5 * k + 1)) /\
    Packet.latency pkt =
      py_max 10 (py_min 100 (24 + (0 + 3 * variate g (5 * k + 2)))) /\
    Packet.new_velocity pkt =
      py_max 0 (15 + 10 * sin (t / 20) + (0 + 1 * variate g (5 * k + 3))) /\
    Packet.new_gforce pkt =
      py_max 0 (2 + 3 * exp (- ((py_mod t 30 - 15) ^ 2) / 50)
                + (0 + 0.3 * variate g (5 * k + 4))).
Proof.
  revert self g out g'.
  induction dts as [|dt dts IH]; intros self g out g' Hinv Hrun k s pkt Hk.
  - cbn in Hrun. injection Hrun as <- _. discriminate.
  - destruct (invariant_decompose self Hinv)
      as (t0 & vt & v0 & vd & g0 & m & x & d0 & gd & Hself).
    pose proof (get_next_closed_form t0 vt v0 vd g0 m x d0 gd dt g) as Hstep.
    cbv zeta in Hstep. rewrite <- Hself in Hstep.
    pose proof (invariant_get_next _ _ _ _ _ _ Hinv Hstep) as Hinv'.
    cbn [get_next_seq] in Hrun. unfold bind at 1 in Hrun.
    rewrite Hstep in Hrun. cbn [fst] in Hrun. unfold bind at 1 in Hrun.
    match type of Hrun with
    | context [get_next_seq ?s1 dts ?g1] =>
        destruct (get_next_seq s1 dts g1) as [[rest g1']|e] eqn:Hrest;
        [|discriminate]
    end.
    injection Hrun as <- _.
    destruct k as [|k].
    + cbn in Hk. injection Hk as <- <-.
      cbn [elapsed_seconds Packet.pressure Packet.temperature Packet.latency
           Packet.new_velocity Packet.new_gforce].
      repeat split; reflexivity.
    + cbn [lookup list_lookup] in Hk.
      pose proof (IH _ _ _ _ Hinv' Hrest k s pkt Hk) as Hpk.
      cbv zeta in Hpk. rewrite !variate_drawn in Hpk.
      replace (5 * S k)%nat with (5 * k + 5)%nat by lia.
      replace (5 * k + 5 + 1)%nat with (5 * k + 1 + 5)%nat by lia.
      replace (5 * k + 5 + 2)%nat with (5 * k + 2 + 5)%nat by lia.
      replace (5 * k + 5 + 3)%nat with (5 * k + 3 + 5)%nat by lia.
      replace (5 * k + 5 + 4)%nat with (5 * k + 4 + 5)%nat by lia.
      exact Hpk.
Qed.

(** X2. The value buffers are sliding windows over the packets: after a run
    of [n] calls [velocity_data] is the old buffer followed by the [n] new
    velocities with the first [n] elements dropped, and likewise for
    [gforce_data]; from 100 calls on nothing of the old buffer is left and
    the buffers are the values of the last 100 packets. *)
Theorem buffers_are_sliding_windows
    (self : TelemetrySimulator) (dts : list R) (g : RandomState) :
  reachable self ->
  exists out g',
    get_next_seq self dts g = Ok (out, g') /\
    velocity_data (final self out) =
      drop (length dts)
           (velocity_data self ++ map (fun r => Packet.new_velocity (snd r)) out) /\
    gforce_data (final self out) =
      drop (length dts)
           (gforce_data self ++ map (fun r => Packet.new_gforce (snd r)) out) /\
    ((100 <= length dts)%nat ->
     velocity_data (final self out) =
       drop (length dts - 100) (map (fun r => Packet.new_velocity (snd r)) out) /\
     gforce_data (final self out) =
       drop (length dts - 100) (map (fun r => Packet.new_gforce (snd r)) out)).
Proof.
  intros Hreach. apply reachable_invariant in Hreach.
  destruct (get_next_seq_run self dts g Hreach)
    as (out & newest & Hrun & Hlen & _ & _ & _ & Hvd & Hgd & _).
  exists out, (drawn g (5 * length dts)).
  split; [exact Hrun|].
  split; [exact Hvd|].
  split; [exact Hgd|].
  intros Hn. rewrite Hvd, Hgd.
  rewrite !drop_app_ge
    by (rewrite ?(inv_velocity_data _ Hreach), ?(inv_gforce_data _ Hreach); lia).
  rewrite (inv_velocity_data _ Hreach), (inv_gforce_data _ Hreach).
  split; reflexivity.
Qed.

Lemma buffers_are_sliding_windows_witness :
  exists out g',
    get_next_seq __init__ [0.5; 0.5] zero_noise = Ok (out, g') /\
    velocity_data (final __init__ out) =
      drop (length [0.5; 0.5])
           (velocity_data __init__
              ++ map (fun r => Packet.new_velocity (snd r)) out) /\
    gforce_data (final __init__ out) =
      drop (length [0.5; 0.5])
           (gforce_data __init__
              ++ map (fun r => Packet.new_gforce (snd r)) out) /\
    ((100 <= length [0.5%R; 0.5%R])%nat ->
     velocity_data (final __init__ out) =
       drop (length [0.5%R; 0.5%R] - 100)
            (map (fun r => Packet.new_velocity (snd r)) out) /\
     gforce_data (final __init__ out) =
       drop (length [0.5%R; 0.5%R] - 100)
            (map (fun r => Packet.new_gforce (snd r)) out)).
Proof.
  apply (buffers_are_sliding_windows __init__ [0.5; 0.5] zero_noise).
  apply reachable_init.
Defined.

(** X4. Each [get_next] call draws exactly five variates: a run of [n]
    calls leaves the random source advanced by [5 n], and the packet of
    call [k] is determined by the clock after that call and the variates
    [5 k .. 5 k + 4] (pressure, temperature, latency, velocity, g-force, in
    this order). *)
Theorem run_draws_five_variates_per_call
    (self : TelemetrySimulator) (dts : list R) (g : RandomState) :
  reachable self ->
  exists out,
    get_next_seq self dts g = Ok (out, drawn g (5 * length dts)) /\
    length out = length dts /\
    forall k s pkt,
      out !! k = Some (s, pkt) ->
      let t := elapsed_seconds s in
      Packet.pressure pkt =
        101.3 + sin (t / 10) * 2 + (0 + 0.1 * variate g (5 * k)) /\
      Packet.temperature pkt =
        24.8 + sin (t / 15 + 1) * 3 + (0 + 0.2 * variate g (5 * k + 1)) /\
      Packet.latency pkt =
        py_max 10 (py_min 100 (24 + (0 + 3 * variate g (5 * k + 2)))) /\
      Packet.new_velocity pkt =
        py_max 0 (15 + 10 * sin (t / 20) + (0 + 1 * variate g (5 * k + 3))) /\
      Packet.new_gforce pkt =
        py_max 0 (2 + 3 * exp (- ((py_mod t 30 - 15) ^ 2) / 50)
                  + (0 + 0.3 * variate g (5 * k + 4))).
Proof.
  intros Hreach. apply reachable_invariant in Hreach.
  destruct (get_next_seq_run self dts g Hreach)
    as (out & newest & Hrun & Hlen & _).
  exists out. split; [exact Hrun|]. split; [exact Hlen|].
  exact (get_next_seq_packets self dts g out _ Hreach Hrun).
Qed.

Lemma run_draws_five_variates_per_call_witness :
  exists out,
    get_next_seq __init__ [0.5; 0.5] zero_noise =
      Ok (out, drawn zero_noise (5 * length [0.5%R; 0.5%R])) /\
    length out = length [0.5; 0.5] /\
    forall k s pkt,
      out !! k = Some (s, pkt) ->
      let t := elapsed_seconds s in
      Packet.pressure pkt =
        101.3 + sin (t / 10) * 2 + (0 + 0.1 * variate zero_noise (5 * k)) /\
      Packet.temperature pkt =
        24.8 + sin (t / 15 + 1) * 3
        + (0 + 0.2 * variate zero_noise (5 * k + 1)) /\
      Packet.latency pkt =
        py_max 10 (py_min 100 (24 + (0 + 3 * variate zero_noise (5 * k + 2)))) /\
      Packet.new_velocity pkt =
        py_max 0 (15 + 10 * sin (t / 20)
                  + (0 + 1 * variate zero_noise (5 * k + 3))) /\
      Packet.new_gforce pkt =
        py_max 0 (2 + 3 * exp (- ((py_mod t 30 - 15) ^ 2) / 50)
                  + (0 + 0.3 * variate zero_noise (5 * k + 4))).
Proof.
  apply (run_draws_five_variates_per_call __init__ [0.5; 0.5] zero_noise).
  apply reachable_init.
Defined.

(** X6. The sensor values of a packet stay within the amplitude of their
    sine terms: the altitude rate in [4.4, 20.4], the altitude within 50 of
    [1245.8 + 2.5 t], and pressure and temperature, up to their noise term,
    in [99.3, 103.3] and [21.8, 27.8]. *)
Theorem sensor_ranges
    (self : TelemetrySimulator) (dt : R) (g : RandomState) :
  reachable self ->
  exists self' pkt g',
    get_next self dt g = Ok ((self', pkt), g') /\
    let t := elapsed_seconds self' in
    4.4 <= Packet.altitude_rate pkt <= 20.4 /\
    1245.8 + 2.5 * t - 50 <= Packet.altitude pkt <= 1245.8 + 2.5 * t + 50 /\
    99.3 + 0.1 * variate g 0 <= Packet.pressure pkt
      <= 103.3 + 0.1 * variate g 0 /\
    21.8 + 0.2 * variate g 1 <= Packet.temperature pkt
      <= 27.8 + 0.2 * variate g 1.
Proof.
  intros Hreach. apply reachable_invariant in Hreach.
  destruct (invariant_decompose self Hreach)
    as (t0 & vt & v0 & vd & g0 & m & x & d0 & gd & ->).
  rewrite get_next_closed_form.
  eexists _, _, _. split; [reflexivity|].
  cbn [elapsed_seconds Packet.altitude_rate Packet.altitude Packet.pressure
       Packet.temperature].
  pose proof (SIN_bound ((t0 + dt) / 7)).
  pose proof (SIN_bound ((t0 + dt) / 8)).
  pose proof (SIN_bound ((t0 + dt) / 10)).
  pose proof (SIN_bound ((t0 + dt) / 15 + 1)).
  repeat split; lra.
Qed.

Lemma sensor_ranges_witness :
  exists self' pkt g',
    get_next __init__ 0.5 zero_noise = Ok ((self', pkt), g') /\
    let t := elapsed_seconds self' in
    4.4 <= Packet.altitude_rate pkt <= 20.4 /\
    1245.8 + 2.5 * t - 50 <= Packet.altitude pkt <= 1245.8 + 2.5 * t + 50 /\
    99.3 + 0.1 * variate zero_noise 0 <= Packet.pressure pkt
      <= 103.3 + 0.1 * variate zero_noise 0 /\
    21.8 + 0.2 * variate zero_noise 1 <= Packet.temperature pkt
      <= 27.8 + 0.2 * variate zero_noise 1.
Proof.
  apply (sensor_ranges __init__ 0.5 zero_noise).
  apply reachable_init.
Defined.

Lemma exp_nonpos_le_1 (y : R) : y <= 0 -> 0 < exp y <= 1.
Proof.
  intros Hy. split; [apply exp_pos|].
  destruct (Req_dec_T y 0) as [->|Hne].
  - rewrite exp_0. lra.
  - rewrite <- exp_0. left. apply exp_increasing. lra.
Qed.

Lemma py_max_above (a b : R) : a <= b -> py_max a b = b.
Proof. intros H. unfold py_max. destruct (Rlt_dec a b); lra. Qed.

(** X7. Without noise no clamp acts: the latency is 24, the velocity is
    [15 + 10 sin (t / 20)] and lies in [5, 25], and the g-force is
    [2 + 3 exp (- (t % 30 - 15)^2 / 50)] and lies in (2, 5]. *)
Theorem clamps_idle_without_noise
    (self : TelemetrySimulator) (dt : R) (g : RandomState) :
  reachable self ->
  (forall k, variates g k = 0) ->
  exists self' pkt g',
    get_next self dt g = Ok ((self', pkt), g') /\
    let t := elapsed_seconds self' in
    Packet.latency pkt = 24 /\
    Packet.new_velocity pkt = 15 + 10 * sin (t / 20) /\
    5 <= Packet.new_velocity pkt <= 25 /\
    Packet.new_gforce pkt =
      2 + 3 * exp (- ((py_mod t 30 - 15) ^ 2) / 50) /\
    2 < Packet.new_gforce pkt <= 5.
Proof.
  intros Hreach Hzero. apply reachable_invariant in Hreach.
  destruct (invariant_decompose self Hreach)
    as (t0 & vt & v0 & vd & g0 & m & x & d0 & gd & ->).
  rewrite get_next_closed_form.
  eexists _, _, _. split; [reflexivity|].
  cbn [elapsed_seconds Packet.latency Packet.new_velocity Packet.new_gforce].
  unfold variate. rewrite !Hzero.
  pose proof (SIN_bound ((t0 + dt) / 20)) as Hsin.
  assert (0 < exp (- (py_mod (t0 + dt) 30 - 15) ^ 2 / 50) <= 1) as Hexp.
  { apply exp_nonpos_le_1.
    pose proof (pow2_ge_0 (py_mod (t0 + dt) 30 - 15)). lra. }
  rewrite py_clamp_inside by lra.
  rewrite !py_max_above by lra.
  repeat split; lra.
Qed.

Lemma clamps_idle_without_noise_witness :
  exists self' pkt g',
    get_next __init__ 0.5 zero_noise = Ok ((self', pkt), g') /\
    let t := elapsed_seconds self' in
    Packet.latency pkt = 24 /\
    Packet.new_velocity pkt = 15 + 10 * sin (t / 20) /\
    5 <= Packet.new_velocity pkt <= 25 /\
    Packet.new_gforce pkt =
      2 + 3 * exp (- ((py_mod t 30 - 15) ^ 2) / 50) /\
    2 < Packet.new_gforce pkt <= 5.
Proof.
  apply (clamps_idle_without_noise __init__ 0.5 zero_noise).
  - apply reachable_init.
  - reflexivity.
Defined.

Lemma Int_part_plus_1 (a : R) : Int_part (a + 1) = (Int_part a + 1)%Z.
Proof.
  unfold Int_part.
  assert (up (a + 1) = (up a + 1)%Z) as ->; [|lia].
  symmetry. apply tech_up.
  - rewrite plus_IZR. destruct (archimed a). lra.
  - rewrite plus_IZR. destruct (archimed a). lra.
Qed.

Lemma py_mod_period (x m : R) : m <> 0 -> py_mod (x + m) m = py_mod x m.
Proof.
  intros Hm. unfold py_mod.
  replace ((x + m) / m) with (x / m + 1) by (field; exact Hm).
  rewrite Int_part_plus_1, plus_IZR. lra.
Qed.

Lemma py_mod_range (x m : R) : 0 < m -> 0 <= py_mod x m < m.
Proof.
  intros Hm. unfold py_mod.
  destruct (base_Int_part (x / m)) as [Hlo Hhi].
  assert (x = x / m * m) as Hx by (field; lra).
  split; nra.
Qed.

(** X8. The g-force profile has period 30 in the simulation clock: two calls
    whose clocks after the call differ by 30 and which draw the same
    g-force noise return the same [new_gforce]. *)
Theorem gforce_profile_has_period_30
    (self1 self2 : TelemetrySimulator) (dt1 dt2 : R) (g1 g2 : RandomState) :
  reachable self1 ->
  reachable self2 ->
  elapsed_seconds self2 + dt2 = elapsed_seconds self1 + dt1 + 30 ->
  variate g2 4 = variate g1 4 ->
  exists s1 p1 h1 s2 p2 h2,
    get_next self1 dt1 g1 = Ok ((s1, p1), h1) /\
    get_next self2 dt2 g2 = Ok ((s2, p2), h2) /\
    Packet.new_gforce p2 = Packet.new_gforce p1.
Proof.
  intros Hr1 Hr2 Hclk Hz.
  apply reachable_invariant in Hr1, Hr2.
  destruct (invariant_decompose self1 Hr1)
    as (t1 & vt1 & v1 & vd1 & a1 & m1 & x1 & d1 & gd1 & ->).
  destruct (invariant_decompose self2 Hr2)
    as (t2 & vt2 & v2 & vd2 & a2 & m2 & x2 & d2 & gd2 & ->).
  cbn [elapsed_seconds] in Hclk.
  rewrite !get_next_closed_form.
  eexists _, _, _, _, _, _. split; [reflexivity|]. split; [reflexivity|].
  cbn [Packet.new_gforce].
  rewrite Hclk, Hz, py_mod_period by lra. reflexivity.
Qed.

Lemma gforce_profile_has_period_30_witness :
  exists s1 p1 h1 s2 p2 h2,
    get_next __init__ 0.5 zero_noise = Ok ((s1, p1), h1) /\
    get_next __init__ 30.5 zero_noise = Ok ((s2, p2), h2) /\
    Packet.new_gforce p2 = Packet.new_gforce p1.
Proof.
  apply (gforce_profile_has_period_30 __init__ __init__ 0.5 30.5
           zero_noise zero_noise).
  - apply reachable_init.
  - apply reachable_init.
  - cbn. lra.
  - reflexivity.
Defined.

(** * Further properties of the store model *)

Lemma heap_reset_view (self : Heap.TelemetrySimulator)
    (h : gmap nat (list R)) (g : RandomState) :
  exists self' h',
    Heap.reset self (Heap.mkWorld h g) = Ok (self', Heap.mkWorld h' g) /\
    view (Heap.mkWorld h' g) self' = __init__ /\
    (forall r, r ∈ dom h -> h' !! r = h !! r).
Proof.
  rewrite heap_reset_eq_init.
  destruct (heap_init_closed_form h g)
    as (r1 & r2 & r3 & r4 & Hnd & Hfresh & Heq).
  eexists _, _. split; [exact Heq|].
  split; [apply view_fresh, Hnd|].
  intros r Hr.
  assert (forall s, s ∈ ({[r1; r2; r3; r4]} : gset nat) -> s ≠ r) as Hnew.
  { intros s Hs. exact (fresh_ne _ h _ s Hfresh Hs Hr). }
  rewrite !lookup_insert_ne by (apply Hnew; clear; set_solver).
  reflexivity.
Qed.

Lemma heap_reachable_view (c : Heap.Config) :
  Heap.reachable c ->
  reachable (view (Heap.world c) (Heap.simulator c)).
Proof.
  intros Hreach.
  induction Hreach as [w0 self w Hrun | c c' Hreach IH Hstep].
  - destruct w0 as [h g].
    destruct (heap_init_closed_form h g)
      as (r1 & r2 & r3 & r4 & Hnd & _ & Heq).
    rewrite Heq in Hrun. injection Hrun as <- <-.
    cbn [Heap.world Heap.simulator].
    rewrite view_fresh by exact Hnd. apply reachable_init.
  - pose proof (heap_reachable_invariant c Hreach)
      as [Halloc Hsep Hcons Hview].
    destruct Hstep as [c self' w' Hrun | c dt self' pkt w' Hrun
                      | c r a Hr | c a r w' Hrun];
      cbn [Heap.world Heap.simulator].
    + destruct (Heap.world c) as [h g].
      destruct (heap_reset_view (Heap.simulator c) h g)
        as (s & h' & Heq & Hv & _).
      rewrite Heq in Hrun. injection Hrun as <- <-.
      rewrite Hv. apply reachable_init.
    + destruct (Heap.world c) as [h g]. cbn [Heap.objects] in *.
      destruct (heap_get_next_simulates (Heap.simulator c) dt h g Halloc Hview)
        as (s & p & h' & Hrun2 & Hpure & _).
      rewrite Hrun2 in Hrun. injection Hrun as <- <- <-.
      exact (reachable_get_next _ _ _ _ _ _ IH Hpure).
    + rewrite view_mutate by assumption. exact IH.
    + destruct (Heap.world c) as [h g]. cbn [Heap.objects] in *.
      destruct (alloc_spec a h g) as (r' & Hfresh & Heq).
      rewrite Heq in Hrun. injection Hrun as <- <-.
      rewrite (view_insert_other h g g); [exact IH|].
      clear -Halloc Hfresh. set_solver.
Qed.

(** X19. [get_next] and [reset] write to newly allocated arrays only: every
    array object that exists before the call, the arrays of all packets
    handed out earlier among them, has the same contents after it. *)
Theorem earlier_arrays_are_never_modified (c : Heap.Config) (dt : R) :
  Heap.reachable c ->
  Heap.consumer c ⊆ dom (Heap.objects (Heap.world c)) /\
  (exists self' pkt w',
      Heap.get_next (Heap.simulator c) dt (Heap.world c) =
        Ok ((self', pkt), w') /\
      forall r, r ∈ dom (Heap.objects (Heap.world c)) ->
                Heap.objects w' !! r = Heap.objects (Heap.world c) !! r) /\
  (exists self' w',
      Heap.reset (Heap.simulator c) (Heap.world c) = Ok (self', w') /\
      view w' self' = __init__ /\
      forall r, r ∈ dom (Heap.objects (Heap.world c)) ->
                Heap.objects w' !! r = Heap.objects (Heap.world c) !! r).
Proof.
  intros Hreach.
  apply heap_reachable_invariant in Hreach.
  destruct Hreach as [Halloc Hsep Hcons Hview].
  split; [exact Hcons|].
  destruct (Heap.world c) as [h g]. cbn [Heap.objects] in *.
  split.
  - destruct (heap_get_next_simulates (Heap.simulator c) dt h g Halloc Hview)
      as (s & p & h' & Hrun & _ & Hframe & _).
    eexists _, _, _. split; [exact Hrun|]. exact Hframe.
  - destruct (heap_reset_view (Heap.simulator c) h g)
      as (s & h' & Heq & Hv & Hframe).
    eexists _, _. split; [exact Heq|]. split; [exact Hv|]. exact Hframe.
Qed.

Lemma earlier_arrays_are_never_modified_witness :
  Heap.consumer just_constructed ⊆
    dom (Heap.objects (Heap.world just_constructed)) /\
  (exists self' pkt w',
      Heap.get_next (Heap.simulator just_constructed) 0.5
                    (Heap.world just_constructed) =
        Ok ((self', pkt), w') /\
      forall r, r ∈ dom (Heap.objects (Heap.world just_constructed)) ->
                Heap.objects w' !! r =
                Heap.objects (Heap.world just_constructed) !! r) /\
  (exists self' w',
      Heap.reset (Heap.simulator just_constructed)
                 (Heap.world just_constructed) = Ok (self', w') /\
      view w' self' = __init__ /\
      forall r, r ∈ dom (Heap.objects (Heap.world just_constructed)) ->
                Heap.objects w' !! r =
                Heap.objects (Heap.world just_constructed) !! r).
Proof.
  apply (earlier_arrays_are_never_modified just_constructed 0.5).
  apply just_constructed_reachable.
Defined.

(** X20. The store model refines the value model: the simulator a reachable
    program state stands for is a reachable simulator of part one, and a
    [get_next] call on the objects returns what [get_next] of part one
    returns on the values they stand for. *)
Theorem store_model_refines_value_model (c : Heap.Config) (dt : R) :
  Heap.reachable c ->
  reachable (view (Heap.world c) (Heap.simulator c)) /\
  exists self' pkt w',
    Heap.get_next (Heap.simulator c) dt (Heap.world c) =
      Ok ((self', pkt), w') /\
    get_next (view (Heap.world c) (Heap.simulator c)) dt
             (Heap.random (Heap.world c)) =
      Ok ((view w' self', view_packet w' pkt), Heap.random w').
Proof.
  intros Hreach.
  split; [apply heap_reachable_view, Hreach|].
  apply heap_reachable_invariant in Hreach.
  destruct Hreach as [Halloc _ _ Hview].
  destruct (Heap.world c) as [h g]. cbn [Heap.objects Heap.random] in *.
  destruct (heap_get_next_simulates (Heap.simulator c) dt h g Halloc Hview)
    as (s & p & h' & Hrun & Hpure & _).
  eexists _, _, _. split; [exact Hrun|]. exact Hpure.
Qed.

Lemma store_model_refines_value_model_witness :
  reachable (view (Heap.world just_constructed)
                  (Heap.simulator just_constructed)) /\
  exists self' pkt w',
    Heap.get_next (Heap.simulator just_constructed) 0.5
                  (Heap.world just_constructed) =
      Ok ((self', pkt), w') /\
    get_next (view (Heap.world just_constructed)
                   (Heap.simulator just_constructed)) 0.5
             (Heap.random (Heap.world just_constructed)) =
      Ok ((view w' self', view_packet w' pkt), Heap.random w').
Proof.
  apply (store_model_refines_value_model just_constructed 0.5).
  apply just_constructed_reachable.
Defined.

(** * Facts about part three *)

Lemma getitem_first (a : R) (l : list R) : getitem (a :: l) 0 = Ok a.
Proof.
  unfold getitem, normalize_index.
  change (0 <? 0)%Z with false. cbv iota.
  change (0 <=? 0)%Z with true.
  rewrite (proj2 (Z.ltb_lt _ _)) by (cbn [length]; lia).
  reflexivity.
Qed.

Lemma getitem_last (l : list R) (x : R) : getitem (l ++ [x]) (-1) = Ok x.
Proof.
  unfold getitem.
  rewrite length_app. cbn [length].
  replace (length l + 1)%nat with (S (length l)) by lia.
  rewrite normalize_index_neg1.
  rewrite lookup_app_r by lia.
  rewrite Nat.sub_diag. reflexivity.
Qed.

Lemma sorted_ends (a : list R) :
  (2 <= length a)%nat ->
  StronglySorted Rlt a ->
  exists lo hi,
    getitem a 0 = Ok lo /\ getitem a (-1) = Ok hi /\
    a !! 0%nat = Some lo /\ last a = Some hi /\ lo < hi.
Proof.
  intros Hlen Hs.
  destruct a as [|lo a]; [cbn in Hlen; lia|].
  destruct (exists_last (l := a)) as [m [hi ->]].
  { intros ->. cbn in Hlen. lia. }
  exists lo, hi.
  split; [apply getitem_first|].
  split; [rewrite app_comm_cons; apply getitem_last|].
  split; [reflexivity|].
  split; [rewrite last_cons, last_snoc; reflexivity|].
  apply StronglySorted_inv in Hs as [_ Hall].
  apply Forall_app in Hall as [_ Hall].
  apply Forall_inv in Hall. exact Hall.
Qed.

Lemma update_telemetry_stopped (self : MissionControl.App) (g : RandomState) :
  MissionControl.mission_running self = false ->
  MissionControl.update_telemetry self g = Ok (self, g).
Proof.
  intros H. unfold MissionControl.update_telemetry. rewrite H. reflexivity.
Qed.

(** One round of [update_telemetry] on a running window whose simulator
    satisfies the invariant. *)
Lemma update_telemetry_running (self : MissionControl.App) (g : RandomState) :
  MissionControl.mission_running self = true ->
  invariant (MissionControl.simulator self) ->
  exists sim' pkt x_min x_max self',
    get_next (MissionControl.simulator self) 0.5 g = Ok ((sim', pkt), drawn g 5) /\
    invariant sim' /\
    Packet.gforce_time pkt !! 0%nat = Some x_min /\
    last (Packet.gforce_time pkt) = Some x_max /\
    x_min < x_max /\
    MissionControl.update_telemetry self g = Ok (self', drawn g 5) /\
    self' =
      MissionControl.mkApp true (elapsed_seconds sim') sim'
        (MissionControl.timer_display self)
        (Some (MissionControl.mkDisplay
                 (Packet.pressure pkt)
                 (359.9 * py_max 0 (py_min 1 ((Packet.pressure pkt - 95) / 15)))
                 (Packet.temperature pkt)
                 (359.9 * py_max 0 (py_min 1 ((Packet.temperature pkt - 15) / 25)))
                 (Packet.altitude pkt)
                 (Packet.altitude_rate pkt)
                 (if Rle_dec 0 (Packet.altitude_rate pkt) then "+"%string else EmptyString)
                 (if Rle_dec 0 (Packet.altitude_rate pkt)
                  then MissionControl.green_accent else "#ff6b6b"%string)
                 (Packet.latency pkt)
                 (MissionControl.py_int (Packet.latency pkt))
                 (Packet.velocity_time pkt, Packet.velocity_data pkt)
                 (Packet.gforce_time pkt, Packet.gforce_data pkt)
                 (x_min, x_max)))
        ((MissionControl.log_text self
            ++ (if Req_dec_T (py_mod (elapsed_seconds sim') 3) 0
                then [("DATA"%string,
                       MissionControl.Data (Packet.new_velocity pkt)
                                           (Packet.new_gforce pkt))]
                else []))
           ++ (if Req_dec_T (py_mod (elapsed_seconds sim') 5) 0
               then [("STAT"%string,
                      MissionControl.Stat (Packet.pressure pkt)
                                          (Packet.temperature pkt)
                                          (Packet.altitude pkt))]
               else []))
        (MissionControl.cmd_entry self)
        (S (MissionControl.telemetry_callbacks self))
        (MissionControl.timer_callbacks self).
Proof.
  intros Hrun Hinv.
  destruct (get_next_returns _ 0.5 g Hinv) as (sim' & pkt & Hstep).
  pose proof (invariant_get_next _ _ _ _ _ _ Hinv Hstep) as Hinv'.
  pose proof (get_next_snapshots _ _ _ _ _ _ Hinv Hstep) as Hsnap.
  unfold packet_buffers, buffers in Hsnap.
  injection Hsnap as _ _ Hgt _.
  destruct (sorted_ends (Packet.gforce_time pkt))
    as (x_min & x_max & Hmin & Hmax & Hfirst & Hlast & Hlt).
  { rewrite Hgt, (inv_gforce_time _ Hinv'). lia. }
  { rewrite Hgt. apply (inv_gforce_sorted _ Hinv'). }
  eexists sim', pkt, x_min, x_max, _.
  split; [exact Hstep|].
  split; [exact Hinv'|].
  split; [exact Hfirst|].
  split; [exact Hlast|].
  split; [exact Hlt|].
  split; [|reflexivity].
  unfold MissionControl.update_telemetry. rewrite Hrun.
  unfold bind at 1. rewrite Hstep. cbn [fst snd].
  unfold bind at 1. unfold lift at 1. rewrite Hmin.
  unfold bind at 1. unfold lift at 1. rewrite Hmax.
  unfold ret.
  destruct (Req_dec_T (py_mod (elapsed_seconds sim') 3) 0);
    destruct (Req_dec_T (py_mod (elapsed_seconds sim') 5) 0);
    rewrite ?app_nil_r; reflexivity.
Qed.

Lemma py_unit_clamp (v : R) :
  let f := py_max 0 (py_min 1 v) in
  0 <= f <= 1 /\ (f = 0 <-> v <= 0) /\ (f = 1 <-> 1 <= v).
Proof.
  unfold py_max, py_min.
  destruct (Rlt_dec v 1); destruct (Rlt_dec 0 _); cbv zeta;
    repeat split; intros; lra.
Qed.

Lemma py_int_bounds (x : R) (lo hi : Z) :
  IZR lo <= x <= IZR hi -> (0 <= lo)%Z ->
  (lo <= MissionControl.py_int x <= hi)%Z.
Proof.
  intros [Hlo Hhi] Hpos.
  assert (0 <= x) as Hx by (apply IZR_le in Hpos; lra).
  unfold MissionControl.py_int. destruct (Rle_dec 0 x) as [_|Hn]; [|lra].
  destruct (base_Int_part x) as [H1 H2].
  split.
  - apply Z.lt_succ_r. apply lt_IZR. rewrite succ_IZR.
    assert (IZR lo - 1 < IZR (Int_part x)) by lra. lra.
  - apply le_IZR. lra.
Qed.

Lemma py_mod_small (x m : R) : 0 <= x < m -> py_mod x m = x.
Proof.
  intros [Hx Hm]. unfold py_mod.
  assert (Int_part (x / m) = 0%Z) as ->; [|lra].
  symmetry. apply Int_part_spec.
  assert (0 <= x / m < 1).
  { split.
    - apply Rmult_le_pos; [lra|]. left. apply Rinv_0_lt_compat. lra.
    - apply (Rmult_lt_reg_r m); [lra|].
      replace (x / m * m) with x by (field; lra). lra. }
  lra.
Qed.

(** On the half-second grid, [t % q == 0] holds on every [2 q]-th tick. *)
Lemma py_mod_half_grid (n q : nat) :
  (0 < q)%nat ->
  py_mod (INR n / 2) (INR q) = 0 <-> (n mod (2 * q) = 0)%nat.
Proof.
  intros Hq.
  assert (0 < INR q) as Hq' by (apply lt_0_INR; exact Hq).
  unfold py_mod. split.
  - intros H0.
    set (z := Int_part (INR n / 2 / INR q)) in *.
    assert (INR n = IZR (2 * Z.of_nat q * z)) as Hn.
    { rewrite !mult_IZR, <- INR_IZR_INZ. lra. }
    rewrite INR_IZR_INZ in Hn. apply eq_IZR in Hn.
    apply Nat.Div0.mod_divides.
    exists (Z.to_nat z). nia.
  - intros Hmod.
    apply Nat.Div0.mod_divides in Hmod as [j Hj].
    assert (INR n / 2 / INR q = INR j) as ->.
    { rewrite Hj, !mult_INR. cbn [INR]. field. lra. }
    rewrite Int_part_INR, <- INR_IZR_INZ.
    rewrite Hj, !mult_INR. cbn [INR]. lra.
Qed.

Lemma update_telemetry_invariant self g self' g' :
  reachable (MissionControl.simulator self) ->
  MissionControl.update_telemetry self g = Ok (self', g') ->
  reachable (MissionControl.simulator self') /\
  MissionControl.mission_running self' = MissionControl.mission_running self /\
  MissionControl.timer_callbacks self' = MissionControl.timer_callbacks self /\
  (MissionControl.telemetry_callbacks self <=
   MissionControl.telemetry_callbacks self')%nat /\
  (MissionControl.mission_running self = true ->
   MissionControl.telemetry_callbacks self' =
   S (MissionControl.telemetry_callbacks self)).
Proof.
  intros Hreach Hrun.
  destruct (MissionControl.mission_running self) eqn:Hflag.
  - destruct (update_telemetry_running self g Hflag
                (reachable_invariant _ Hreach))
      as (sim' & pkt & x_min & x_max & app' & Hstep & _ & _ & _ & _ & Heq & ->).
    rewrite Heq in Hrun. injection Hrun as <- _.
    cbn [MissionControl.simulator MissionControl.mission_running
         MissionControl.timer_callbacks MissionControl.telemetry_callbacks].
    split; [exact (reachable_get_next _ _ _ _ _ _ Hreach Hstep)|].
    repeat split; lia.
  - rewrite update_telemetry_stopped in Hrun by exact Hflag.
    injection Hrun as <- _.
    repeat split; try assumption; try lia; try discriminate.
Qed.

Lemma update_telemetry_returns self g :
  reachable (MissionControl.simulator self) ->
  exists self' g', MissionControl.update_telemetry self g = Ok (self', g').
Proof.
  intros Hreach.
  destruct (MissionControl.mission_running self) eqn:Hflag.
  - destruct (update_telemetry_running self g Hflag
                (reachable_invariant _ Hreach))
      as (sim' & pkt & x_min & x_max & app' & _ & _ & _ & _ & _ & Heq & _).
    eauto.
  - rewrite update_telemetry_stopped by exact Hflag. eauto.
Qed.

Lemma toggle_mission_invariant self now g :
  reachable (MissionControl.simulator self) ->
  exists self' g',
    MissionControl.toggle_mission self now g = Ok (self', g') /\
    app_invariant self' /\
    MissionControl.mission_running self' =
      negb (MissionControl.mission_running self) /\
    (MissionControl.mission_running self = true ->
     g' = g /\
     MissionControl.simulator self' = MissionControl.simulator self /\
     MissionControl.telemetry_callbacks self' =
       MissionControl.telemetry_callbacks self /\
     MissionControl.timer_callbacks self' =
       MissionControl.timer_callbacks self) /\
    (MissionControl.mission_running self = false ->
     MissionControl.telemetry_callbacks self' =
       S (MissionControl.telemetry_callbacks self) /\
     MissionControl.timer_callbacks self' =
       S (MissionControl.timer_callbacks self)).
Proof.
  intros Hreach.
  unfold MissionControl.toggle_mission.
  destruct (MissionControl.mission_running self) eqn:Hflag; cbn [negb].
  - eexists _, _. split; [reflexivity|].
    cbn [MissionControl.add_log_message MissionControl.mission_running
         MissionControl.simulator MissionControl.telemetry_callbacks
         MissionControl.timer_callbacks].
    split; [constructor; cbn; [exact Hreach | discriminate | discriminate]|].
    split; [reflexivity|].
    split; [auto | discriminate].
  - unfold MissionControl.update_mission_timer.
    cbn [MissionControl.mission_running MissionControl.simulator
         MissionControl.timer_display MissionControl.display
         MissionControl.log_text MissionControl.cmd_entry
         MissionControl.telemetry_callbacks MissionControl.timer_callbacks].
    match goal with
    | |- context [bind (MissionControl.update_telemetry ?a) _ g] =>
        set (started := a)
    end.
    assert (reachable (MissionControl.simulator started)) as Hst.
    { subst started. cbn [MissionControl.simulator].
      apply reachable_reset, Hreach. }
    destruct (update_telemetry_returns started g Hst) as (self1 & g1 & Heq).
    destruct (update_telemetry_invariant started g self1 g1 Hst Heq)
      as (Hr1 & Hflag1 & Htimer1 & _ & Htel1).
    unfold bind. rewrite Heq. unfold ret.
    eexists _, _. split; [reflexivity|].
    cbn [MissionControl.add_log_message MissionControl.mission_running
         MissionControl.simulator MissionControl.telemetry_callbacks
         MissionControl.timer_callbacks].
    specialize (Htel1 eq_refl).
    subst started.
    cbn [MissionControl.mission_running MissionControl.telemetry_callbacks
         MissionControl.timer_callbacks] in Hflag1, Htimer1, Htel1.
    split; [constructor; cbn; [exact Hr1 | lia | lia]|].
    split; [exact Hflag1|].
    split; [discriminate | auto].
Qed.

Lemma app_invariant_init now g self g' :
  MissionControl.__init__ now g = Ok (self, g') -> app_invariant self.
Proof.
  unfold MissionControl.__init__. intros Hrun.
  destruct (toggle_mission_invariant MissionControl.built now g)
    as (self' & g'' & Heq & Hinv & _).
  { apply reachable_init. }
  rewrite Heq in Hrun. injection Hrun as <- _. exact Hinv.
Qed.

Lemma telemetry_timeout_invariant self g :
  app_invariant self ->
  exists self' g',
    MissionControl.telemetry_timeout self g = Ok (self', g') /\
    app_invariant self' /\
    MissionControl.mission_running self' = MissionControl.mission_running self /\
    (MissionControl.mission_running self = true ->
     MissionControl.telemetry_callbacks self' =
     MissionControl.telemetry_callbacks self).
Proof.
  intros [Hreach Htel Htim].
  unfold MissionControl.telemetry_timeout.
  destruct (MissionControl.telemetry_callbacks self) as [|k] eqn:Hk.
  - eexists _, _. split; [reflexivity|].
    split; [constructor; [exact Hreach | rewrite Hk; exact Htel | exact Htim]|].
    split; [reflexivity|].
    intros Hflag. specialize (Htel Hflag). lia.
  - match goal with
    | |- context [MissionControl.update_telemetry ?a g] => set (fired := a)
    end.
    assert (reachable (MissionControl.simulator fired)) as Hf by exact Hreach.
    destruct (update_telemetry_returns fired g Hf) as (self1 & g1 & Heq).
    destruct (update_telemetry_invariant fired g self1 g1 Hf Heq)
      as (Hr1 & Hflag1 & Htimer1 & Hle & Htel1).
    subst fired.
    cbn [MissionControl.mission_running MissionControl.telemetry_callbacks
         MissionControl.timer_callbacks] in Hflag1, Htimer1, Hle, Htel1.
    exists self1, g1. split; [exact Heq|].
    split.
    { constructor.
      - exact Hr1.
      - rewrite Hflag1. intros Hflag. rewrite (Htel1 Hflag). lia.
      - rewrite Hflag1, Htimer1. exact Htim. }
    split; [exact Hflag1|].
    exact Htel1.
Qed.

Lemma timer_timeout_invariant self now :
  app_invariant self -> app_invariant (MissionControl.timer_timeout self now).
Proof.
  intros [Hreach Htel Htim].
  unfold MissionControl.timer_timeout.
  destruct (MissionControl.timer_callbacks self) as [|k] eqn:Hk.
  - constructor; [exact Hreach | exact Htel | rewrite Hk; exact Htim].
  - unfold MissionControl.update_mission_timer.
    cbn [MissionControl.mission_running].
    destruct (MissionControl.mission_running self) eqn:Hflag.
    + constructor; cbn; [exact Hreach | auto | lia].
    + constructor; cbn; [exact Hreach | discriminate | discriminate].
Qed.

Lemma send_command_frame self :
  MissionControl.mission_running (MissionControl.send_command self) =
    MissionControl.mission_running self /\
  MissionControl.simulator (MissionControl.send_command self) =
    MissionControl.simulator self /\
  MissionControl.telemetry_callbacks (MissionControl.send_command self) =
    MissionControl.telemetry_callbacks self /\
  MissionControl.timer_callbacks (MissionControl.send_command self) =
    MissionControl.timer_callbacks self.
Proof.
  unfold MissionControl.send_command.
  destruct (_ && _)%bool; repeat split; reflexivity.
Qed.

Lemma handle_invariant self e g :
  app_invariant self ->
  exists self' g',
    MissionControl.handle self e g = Ok (self', g') /\ app_invariant self'.
Proof.
  intros Hinv.
  destruct e as [now| |now|text|]; cbn [MissionControl.handle].
  - destruct (toggle_mission_invariant self now g (app_simulator _ Hinv))
      as (self' & g' & Heq & Hinv' & _).
    eauto.
  - destruct (telemetry_timeout_invariant self g Hinv)
      as (self' & g' & Heq & Hinv' & _).
    eauto.
  - eexists _, _. split; [reflexivity|].
    apply timer_timeout_invariant, Hinv.
  - eexists _, _. split; [reflexivity|].
    destruct Hinv as [Hreach Htel Htim]. constructor; assumption.
  - eexists _, _. split; [reflexivity|].
    destruct Hinv as [Hreach Htel Htim].
    destruct (send_command_frame self) as (E1 & E2 & E3 & E4).
    constructor; rewrite ?E1, ?E2, ?E3, ?E4; assumption.
Qed.

Lemma app_reachable_invariant self :
  MissionControl.reachable self -> app_invariant self.
Proof.
  induction 1 as [now g self g' Hrun | self e g self' g' _ IH Hrun].
  - exact (app_invariant_init now g self g' Hrun).
  - destruct (handle_invariant self e g IH) as (s & h & Heq & Hinv).
    rewrite Heq in Hrun. injection Hrun as <- _. exact Hinv.
Qed.

Lemma get_next_clock self dt g self' pkt g' :
  invariant self ->
  get_next self dt g = Ok ((self', pkt), g') ->
  elapsed_seconds self' = elapsed_seconds self + dt.
Proof.
  intros Hinv Hstep.
  destruct (invariant_decompose self Hinv)
    as (t & vt & v0 & vd & g0 & m & x & d0 & gd & ->).
  rewrite get_next_closed_form in Hstep.
  injection Hstep as <- _. reflexivity.
Qed.

Lemma first_window_reachable : MissionControl.reachable first_window.
Proof.
  unfold first_window.
  destruct (MissionControl.__init__ 0 zero_noise) as [[self g']|e] eqn:Hrun.
  - exact (MissionControl.reachable_init 0 zero_noise self g' Hrun).
  - unfold MissionControl.__init__ in Hrun.
    destruct (toggle_mission_invariant MissionControl.built 0 zero_noise)
      as (self' & g'' & Heq & _).
    { apply reachable_init. }
    rewrite Heq in Hrun. discriminate.
Qed.

(** X9. [update_mission_timer] splits the elapsed seconds into hours,
    minutes and seconds: minutes and seconds are in [0, 60), the three
    recombine to the reading, and the hours are not negative for a reading
    that is not; the callback is armed again. *)
Theorem mission_timer_splits_seconds (self : MissionControl.App) (now : Z) :
  MissionControl.mission_running self = true ->
  let self' := MissionControl.update_mission_timer self now in
  let '(hours, minutes, seconds) := MissionControl.timer_display self' in
  (0 <= minutes < 60 /\ 0 <= seconds < 60 /\
   hours * 3600 + minutes * 60 + seconds = now /\
   (0 <= now -> 0 <= hours))%Z /\
  MissionControl.elapsed_seconds self' = IZR now /\
  MissionControl.timer_callbacks self' =
    S (MissionControl.timer_callbacks self).
Proof.
  intros Hrun. unfold MissionControl.update_mission_timer. rewrite Hrun.
  cbn [MissionControl.timer_display MissionControl.elapsed_seconds
       MissionControl.timer_callbacks].
  split; [|split; reflexivity].
  Z.div_mod_to_equations. lia.
Qed.

Lemma mission_timer_splits_seconds_witness :
  let self' := MissionControl.update_mission_timer running_window 3725 in
  let '(hours, minutes, seconds) := MissionControl.timer_display self' in
  (0 <= minutes < 60 /\ 0 <= seconds < 60 /\
   hours * 3600 + minutes * 60 + seconds = 3725 /\
   (0 <= 3725 -> 0 <= hours))%Z /\
  MissionControl.elapsed_seconds self' = IZR 3725 /\
  MissionControl.timer_callbacks self' =
    S (MissionControl.timer_callbacks running_window).
Proof.
  apply (mission_timer_splits_seconds running_window 3725).
  reflexivity.
Defined.

(** X10. The arcs of the pressure and temperature gauges stay on the dial:
    their extent is in [0, 359.9], it is 0 exactly when the value is at or
    below 95 kPa (15 degrees) and full exactly when it is at or above 110
    kPa (40 degrees). *)
Theorem gauge_arcs_stay_on_the_dial
    (self : MissionControl.App) (g : RandomState) :
  MissionControl.mission_running self = true ->
  reachable (MissionControl.simulator self) ->
  exists self' g' d,
    MissionControl.update_telemetry self g = Ok (self', g') /\
    MissionControl.display self' = Some d /\
    0 <= MissionControl.pressure_extent d <= 359.9 /\
    0 <= MissionControl.temp_extent d <= 359.9 /\
    (MissionControl.pressure_extent d = 0 <->
     MissionControl.pressure_value d <= 95) /\
    (MissionControl.pressure_extent d = 359.9 <->
     110 <= MissionControl.pressure_value d) /\
    (MissionControl.temp_extent d = 0 <->
     MissionControl.temperature_value d <= 15) /\
    (MissionControl.temp_extent d = 359.9 <->
     40 <= MissionControl.temperature_value d).
Proof.
  intros Hrun Hreach.
  destruct (update_telemetry_running self g Hrun (reachable_invariant _ Hreach))
    as (sim' & pkt & x_min & x_max & self' & _ & _ & _ & _ & _ & Heq & ->).
  eexists _, _, _. split; [exact Heq|].
  cbn [MissionControl.display]. split; [reflexivity|].
  cbn [MissionControl.pressure_extent MissionControl.temp_extent
       MissionControl.pressure_value MissionControl.temperature_value].
  destruct (py_unit_clamp ((Packet.pressure pkt - 95) / 15))
    as (Hp & Hp0 & Hp1).
  destruct (py_unit_clamp ((Packet.temperature pkt - 15) / 25))
    as (Ht & Ht0 & Ht1).
  cbv zeta in *.
  set (fp := py_max 0 (py_min 1 ((Packet.pressure pkt - 95) / 15))) in *.
  set (ft := py_max 0 (py_min 1 ((Packet.temperature pkt - 15) / 25))) in *.
  split; [lra|]. split; [lra|].
  split; [|split; [|split]]; split; intros H.
  - assert (fp = 0) as H0 by lra. apply Hp0 in H0. lra.
  - assert (fp = 0) as H0 by (apply Hp0; lra). lra.
  - assert (fp = 1) as H1 by lra. apply Hp1 in H1. lra.
  - assert (fp = 1) as H1 by (apply Hp1; lra). lra.
  - assert (ft = 0) as H0 by lra. apply Ht0 in H0. lra.
  - assert (ft = 0) as H0 by (apply Ht0; lra). lra.
  - assert (ft = 1) as H1 by lra. apply Ht1 in H1. lra.
  - assert (ft = 1) as H1 by (apply Ht1; lra). lra.
Qed.

(** X11. For the packets of the simulator the altitude rate is never
    negative, so its label always carries the sign [+] and the green
    colour (the red branch is never taken), and the latency label, the
    truncated latency, is between 10 and 100. *)
Theorem rate_and_latency_labels
    (self : MissionControl.App) (g : RandomState) :
  MissionControl.mission_running self = true ->
  reachable (MissionControl.simulator self) ->
  exists self' g' d,
    MissionControl.update_telemetry self g = Ok (self', g') /\
    MissionControl.display self' = Some d /\
    MissionControl.altitude_rate_sign d = "+"%string /\
    MissionControl.altitude_rate_color d = MissionControl.green_accent /\
    4.4 <= MissionControl.altitude_rate d <= 20.4 /\
    (10 <= MissionControl.latency_label d <= 100)%Z.
Proof.
  intros Hrun Hreach.
  pose proof (reachable_invariant _ Hreach) as Hinv.
  destruct (update_telemetry_running self g Hrun Hinv)
    as (sim' & pkt & x_min & x_max & self' & Hstep & _ & _ & _ & _ & Heq & ->).
  eexists _, _, _. split; [exact Heq|].
  cbn [MissionControl.display]. split; [reflexivity|].
  cbn [MissionControl.altitude_rate_sign MissionControl.altitude_rate_color
       MissionControl.altitude_rate MissionControl.latency_label].
  assert (4.4 <= Packet.altitude_rate pkt <= 20.4 /\
          10 <= Packet.latency pkt <= 100) as [Hrate Hlat].
  { destruct (invariant_decompose _ Hinv)
      as (t & vt & v0 & vd & g0 & m & x & d0 & gd & Hself).
    rewrite Hself, get_next_closed_form in Hstep.
    injection Hstep as _ <-.
    cbn [Packet.altitude_rate Packet.latency].
    pose proof (SIN_bound ((t + 0.5) / 7)).
    split; [lra|]. apply py_clamp_bounds. lra. }
  destruct (Rle_dec 0 (Packet.altitude_rate pkt)) as [_|Hn]; [|lra].
  repeat split; try lra.
  - apply (py_int_bounds _ 10 100); [exact Hlat | lia].
  - apply (py_int_bounds _ 10 100); [exact Hlat | lia].
Qed.

(** X12. The charts get the simulator's buffers as they are after the call;
    the velocity chart keeps the time axis [np.linspace(-120, 0, 100)], and
    the x-limits of the g-force chart are the first and the last value of
    its time axis, the first strictly below the last. *)
Theorem chart_axes_are_well_formed
    (self : MissionControl.App) (g : RandomState) :
  MissionControl.mission_running self = true ->
  reachable (MissionControl.simulator self) ->
  exists self' g' d,
    MissionControl.update_telemetry self g = Ok (self', g') /\
    MissionControl.display self' = Some d /\
    fst (MissionControl.velocity_line d) = np_linspace (-120) 0 100 /\
    MissionControl.velocity_line d =
      (velocity_time (MissionControl.simulator self'),
       velocity_data (MissionControl.simulator self')) /\
    MissionControl.gforce_line d =
      (gforce_time (MissionControl.simulator self'),
       gforce_data (MissionControl.simulator self')) /\
    fst (MissionControl.gforce_line d) !! 0%nat =
      Some (fst (MissionControl.gforce_xlim d)) /\
    last (fst (MissionControl.gforce_line d)) =
      Some (snd (MissionControl.gforce_xlim d)) /\
    fst (MissionControl.gforce_xlim d) < snd (MissionControl.gforce_xlim d).
Proof.
  intros Hrun Hreach.
  pose proof (reachable_invariant _ Hreach) as Hinv.
  destruct (update_telemetry_running self g Hrun Hinv)
    as (sim' & pkt & x_min & x_max & self' & Hstep & Hinv' & Hfirst & Hlast
        & Hlt & Heq & ->).
  pose proof (get_next_snapshots _ _ _ _ _ _ Hinv Hstep) as Hsnap.
  unfold packet_buffers, buffers in Hsnap.
  injection Hsnap as Hvt Hvd Hgt Hgd.
  eexists _, _, _. split; [exact Heq|].
  cbn [MissionControl.display]. split; [reflexivity|].
  cbn [MissionControl.velocity_line MissionControl.gforce_line
       MissionControl.gforce_xlim MissionControl.simulator fst snd].
  split; [rewrite Hvt; apply (inv_velocity_time _ Hinv')|].
  split; [rewrite Hvt, Hvd; reflexivity|].
  split; [rewrite Hgt, Hgd; reflexivity|].
  auto.
Qed.

(** X13. With the simulator on the half-second grid, [k] ticks after a
    reset, [update_telemetry] writes a DATA line exactly when the new tick
    count [k + 1] is a multiple of 6 and a STAT line exactly when it is a
    multiple of 10 (clock a multiple of 3 s and of 5 s), in this order. *)
Theorem telemetry_log_cadence
    (self : MissionControl.App) (g : RandomState) (k : nat) :
  MissionControl.mission_running self = true ->
  reachable (MissionControl.simulator self) ->
  elapsed_seconds (MissionControl.simulator self) = INR k / 2 ->
  exists self' g' sim' pkt,
    get_next (MissionControl.simulator self) 0.5 g = Ok ((sim', pkt), g') /\
    MissionControl.update_telemetry self g = Ok (self', g') /\
    MissionControl.log_text self' =
      (MissionControl.log_text self
         ++ (if (S k mod 6 =? 0)%nat
             then [("DATA"%string,
                    MissionControl.Data (Packet.new_velocity pkt)
                                        (Packet.new_gforce pkt))]
             else []))
        ++ (if (S k mod 10 =? 0)%nat
            then [("STAT"%string,
                   MissionControl.Stat (Packet.pressure pkt)
                                       (Packet.temperature pkt)
                                       (Packet.altitude pkt))]
            else []).
Proof.
  intros Hrun Hreach Hclk.
  pose proof (reachable_invariant _ Hreach) as Hinv.
  destruct (update_telemetry_running self g Hrun Hinv)
    as (sim' & pkt & x_min & x_max & self' & Hstep & _ & _ & _ & _ & Heq & ->).
  eexists _, (drawn g 5), sim', pkt.
  split; [exact Hstep|]. split; [exact Heq|].
  cbn [MissionControl.log_text].
  assert (elapsed_seconds sim' = INR (S k) / 2) as ->.
  { rewrite (get_next_clock _ _ _ _ _ _ Hinv Hstep), Hclk, S_INR. lra. }
  replace 3 with (INR 3) by (cbn [INR]; lra).
  replace 5 with (INR 5) by (cbn [INR]; lra).
  destruct (Req_dec_T (py_mod (INR (S k) / 2) (INR 3)) 0) as [H3|H3];
    destruct (Req_dec_T (py_mod (INR (S k) / 2) (INR 5)) 0) as [H5|H5];
    rewrite py_mod_half_grid in H3, H5 by lia;
    change (2 * 3)%nat with 6%nat in H3;
    change (2 * 5)%nat with 10%nat in H5.
  - rewrite (proj2 (Nat.eqb_eq _ _) H3), (proj2 (Nat.eqb_eq _ _) H5).
    reflexivity.
  - rewrite (proj2 (Nat.eqb_eq _ _) H3), (proj2 (Nat.eqb_neq _ _) H5).
    reflexivity.
  - rewrite (proj2 (Nat.eqb_neq _ _) H3), (proj2 (Nat.eqb_eq _ _) H5).
    reflexivity.
  - rewrite (proj2 (Nat.eqb_neq _ _) H3), (proj2 (Nat.eqb_neq _ _) H5).
    reflexivity.
Qed.

Lemma gauge_arcs_stay_on_the_dial_witness :
  exists self' g' d,
    MissionControl.update_telemetry running_window zero_noise = Ok (self', g') /\
    MissionControl.display self' = Some d /\
    0 <= MissionControl.pressure_extent d <= 359.9 /\
    0 <= MissionControl.temp_extent d <= 359.9 /\
    (MissionControl.pressure_extent d = 0 <->
     MissionControl.pressure_value d <= 95) /\
    (MissionControl.pressure_extent d = 359.9 <->
     110 <= MissionControl.pressure_value d) /\
    (MissionControl.temp_extent d = 0 <->
     MissionControl.temperature_value d <= 15) /\
    (MissionControl.temp_extent d = 359.9 <->
     40 <= MissionControl.temperature_value d).
Proof.
  apply (gauge_arcs_stay_on_the_dial running_window zero_noise).
  - reflexivity.
  - apply reachable_init.
Defined.

Lemma rate_and_latency_labels_witness :
  exists self' g' d,
    MissionControl.update_telemetry running_window zero_noise = Ok (self', g') /\
    MissionControl.display self' = Some d /\
    MissionControl.altitude_rate_sign d = "+"%string /\
    MissionControl.altitude_rate_color d = MissionControl.green_accent /\
    4.4 <= MissionControl.altitude_rate d <= 20.4 /\
    (10 <= MissionControl.latency_label d <= 100)%Z.
Proof.
  apply (rate_and_latency_labels running_window zero_noise).
  - reflexivity.
  - apply reachable_init.
Defined.

Lemma chart_axes_are_well_formed_witness :
  exists self' g' d,
    MissionControl.update_telemetry running_window zero_noise = Ok (self', g') /\
    MissionControl.display self' = Some d /\
    fst (MissionControl.velocity_line d) = np_linspace (-120) 0 100 /\
    MissionControl.velocity_line d =
      (velocity_time (MissionControl.simulator self'),
       velocity_data (MissionControl.simulator self')) /\
    MissionControl.gforce_line d =
      (gforce_time (MissionControl.simulator self'),
       gforce_data (MissionControl.simulator self')) /\
    fst (MissionControl.gforce_line d) !! 0%nat =
      Some (fst (MissionControl.gforce_xlim d)) /\
    last (fst (MissionControl.gforce_line d)) =
      Some (snd (MissionControl.gforce_xlim d)) /\
    fst (MissionControl.gforce_xlim d) < snd (MissionControl.gforce_xlim d).
Proof.
  apply (chart_axes_are_well_formed running_window zero_noise).
  - reflexivity.
  - apply reachable_init.
Defined.

Lemma telemetry_log_cadence_witness :
  exists self' g' sim' pkt,
    get_next (MissionControl.simulator running_window) 0.5 zero_noise =
      Ok ((sim', pkt), g') /\
    MissionControl.update_telemetry running_window zero_noise = Ok (self', g') /\
    MissionControl.log_text self' =
      (MissionControl.log_text running_window
         ++ (if (1 mod 6 =? 0)%nat
             then [("DATA"%string,
                    MissionControl.Data (Packet.new_velocity pkt)
                                        (Packet.new_gforce pkt))]
             else []))
        ++ (if (1 mod 10 =? 0)%nat
            then [("STAT"%string,
                   MissionControl.Stat (Packet.pressure pkt)
                                       (Packet.temperature pkt)
                                       (Packet.altitude pkt))]
            else []).
Proof.
  apply (telemetry_log_cadence running_window zero_noise 0).
  - reflexivity.
  - apply reachable_init.
  - cbn. lra.
Defined.

(** X15. Starting the mission resets the simulator whatever its state was
    and fetches the first packet at once: the window runs on the simulator
    of [get_next(0.5)] on a fresh one, clock 0.5, one more telemetry and one
    more timer callback are armed, and the log gains the START line only. *)
Theorem start_resets_and_fetches_first_packet
    (self : MissionControl.App) (now : Z) (g : RandomState) :
  MissionControl.mission_running self = false ->
  exists self' sim' pkt,
    MissionControl.toggle_mission self now g = Ok (self', drawn g 5) /\
    get_next __init__ 0.5 g = Ok ((sim', pkt), drawn g 5) /\
    MissionControl.mission_running self' = true /\
    MissionControl.simulator self' = sim' /\
    elapsed_seconds sim' = 0.5 /\
    MissionControl.elapsed_seconds self' = 0.5 /\
    MissionControl.telemetry_callbacks self' =
      S (MissionControl.telemetry_callbacks self) /\
    MissionControl.timer_callbacks self' =
      S (MissionControl.timer_callbacks self) /\
    MissionControl.log_text self' =
      MissionControl.log_text self
        ++ [("INFO"%string,
             MissionControl.Text "Mission START - All systems nominal")].
Proof.
  intros Hflag.
  unfold MissionControl.toggle_mission. rewrite Hflag. cbn [negb].
  unfold MissionControl.update_mission_timer.
  cbn [MissionControl.mission_running MissionControl.simulator
       MissionControl.timer_display MissionControl.display
       MissionControl.log_text MissionControl.cmd_entry
       MissionControl.telemetry_callbacks MissionControl.timer_callbacks].
  match goal with
  | |- context [bind (MissionControl.update_telemetry ?a) _ g] =>
      set (started := a)
  end.
  assert (invariant (MissionControl.simulator started)) as Hinv.
  { subst started. cbn [MissionControl.simulator].
    rewrite reset_eq_init. apply invariant_init. }
  destruct (update_telemetry_running started g eq_refl Hinv)
    as (sim' & pkt & x_min & x_max & self' & Hstep & _ & _ & _ & _ & Heq & ->).
  assert (elapsed_seconds sim' = 0.5) as Hclk.
  { rewrite (get_next_clock _ _ _ _ _ _ Hinv Hstep).
    subst started. cbn. lra. }
  unfold bind. rewrite Heq. unfold ret.
  eexists _, sim', pkt. split; [reflexivity|].
  split; [exact Hstep|].
  cbn [MissionControl.add_log_message MissionControl.mission_running
       MissionControl.simulator MissionControl.elapsed_seconds
       MissionControl.telemetry_callbacks MissionControl.timer_callbacks
       MissionControl.log_text].
  subst started.
  cbn [MissionControl.telemetry_callbacks MissionControl.timer_callbacks
       MissionControl.log_text].
  do 6 (split; [first [reflexivity | exact Hclk]|]).
  rewrite Hclk.
  destruct (Req_dec_T (py_mod 0.5 3) 0) as [H3|_].
  { rewrite py_mod_small in H3 by lra. lra. }
  destruct (Req_dec_T (py_mod 0.5 5) 0) as [H5|_].
  { rewrite py_mod_small in H5 by lra. lra. }
  rewrite !app_nil_r. reflexivity.
Qed.

Lemma start_resets_and_fetches_first_packet_witness :
  exists self' sim' pkt,
    MissionControl.toggle_mission MissionControl.built 0 zero_noise =
      Ok (self', drawn zero_noise 5) /\
    get_next __init__ 0.5 zero_noise = Ok ((sim', pkt), drawn zero_noise 5) /\
    MissionControl.mission_running self' = true /\
    MissionControl.simulator self' = sim' /\
    elapsed_seconds sim' = 0.5 /\
    MissionControl.elapsed_seconds self' = 0.5 /\
    MissionControl.telemetry_callbacks self' =
      S (MissionControl.telemetry_callbacks MissionControl.built) /\
    MissionControl.timer_callbacks self' =
      S (MissionControl.timer_callbacks MissionControl.built) /\
    MissionControl.log_text self' =
      MissionControl.log_text MissionControl.built
        ++ [("INFO"%string,
             MissionControl.Text "Mission START - All systems nominal")].
Proof.
  apply (start_resets_and_fetches_first_packet MissionControl.built 0
           zero_noise).
  reflexivity.
Defined.

(** X16. Stopping and starting the mission before the armed telemetry
    callback has fired leaves one more telemetry callback (and one more
    timer callback) armed than before, at least two; while the mission
    runs a firing callback arms itself again, so their number stays. *)
Theorem restart_adds_a_telemetry_loop
    (self : MissionControl.App) (now1 now2 : Z) (g : RandomState) :
  MissionControl.reachable self ->
  MissionControl.mission_running self = true ->
  exists paused self' g',
    MissionControl.toggle_mission self now1 g = Ok (paused, g) /\
    MissionControl.mission_running paused = false /\
    MissionControl.toggle_mission paused now2 g = Ok (self', g') /\
    MissionControl.mission_running self' = true /\
    MissionControl.telemetry_callbacks self' =
      S (MissionControl.telemetry_callbacks self) /\
    MissionControl.timer_callbacks self' =
      S (MissionControl.timer_callbacks self) /\
    (2 <= MissionControl.telemetry_callbacks self')%nat /\
    forall h, exists self'' h',
      MissionControl.telemetry_timeout self' h = Ok (self'', h') /\
      MissionControl.mission_running self'' = true /\
      MissionControl.telemetry_callbacks self'' =
        MissionControl.telemetry_callbacks self'.
Proof.
  intros Hreach Hflag.
  apply app_reachable_invariant in Hreach.
  pose proof (app_telemetry_armed _ Hreach Hflag) as Harmed.
  destruct (toggle_mission_invariant self now1 g (app_simulator _ Hreach))
    as (paused & g1 & Heq1 & Hinv1 & Hflag1 & Hstop & _).
  destruct (Hstop Hflag) as (-> & Hsim & Htel & Htim).
  rewrite Hflag in Hflag1. cbn [negb] in Hflag1.
  destruct (toggle_mission_invariant paused now2 g (app_simulator _ Hinv1))
    as (self' & g' & Heq2 & Hinv2 & Hflag2 & _ & Hstart).
  destruct (Hstart Hflag1) as (Htel2 & Htim2).
  rewrite Hflag1 in Hflag2. cbn [negb] in Hflag2.
  exists paused, self', g'.
  split; [exact Heq1|]. split; [exact Hflag1|]. split; [exact Heq2|].
  split; [exact Hflag2|].
  split; [rewrite Htel2, Htel; reflexivity|].
  split; [rewrite Htim2, Htim; reflexivity|].
  split; [rewrite Htel2, Htel; lia|].
  intros h.
  destruct (telemetry_timeout_invariant self' h Hinv2)
    as (self'' & h' & Heq3 & _ & Hflag3 & Hkeep).
  exists self'', h'. split; [exact Heq3|].
  split; [rewrite Hflag3; exact Hflag2|].
  exact (Hkeep Hflag2).
Qed.

Lemma first_window_running :
  MissionControl.mission_running first_window = true.
Proof.
  unfold first_window, MissionControl.__init__.
  destruct (toggle_mission_invariant MissionControl.built 0 zero_noise)
    as (self' & g'' & Heq & _ & Hflag & _).
  { apply reachable_init. }
  rewrite Heq. exact Hflag.
Qed.

Lemma restart_adds_a_telemetry_loop_witness :
  exists paused self' g',
    MissionControl.toggle_mission first_window 3 zero_noise =
      Ok (paused, zero_noise) /\
    MissionControl.mission_running paused = false /\
    MissionControl.toggle_mission paused 0 zero_noise = Ok (self', g') /\
    MissionControl.mission_running self' = true /\
    MissionControl.telemetry_callbacks self' =
      S (MissionControl.telemetry_callbacks first_window) /\
    MissionControl.timer_callbacks self' =
      S (MissionControl.timer_callbacks first_window) /\
    (2 <= MissionControl.telemetry_callbacks self')%nat /\
    forall h, exists self'' h',
      MissionControl.telemetry_timeout self' h = Ok (self'', h') /\
      MissionControl.mission_running self'' = true /\
      MissionControl.telemetry_callbacks self'' =
        MissionControl.telemetry_callbacks self'.
Proof.
  apply (restart_adds_a_telemetry_loop first_window 3 0 zero_noise).
  - apply first_window_reachable.
  - apply first_window_running.
Defined.

(** X17. [send_command] ignores an empty entry and the placeholder text;
    any other text is logged once as [Command sent: ...] and the entry is
    set back to the placeholder, so that sending again at once does
    nothing; the mission state and the simulator are not touched. *)
Theorem send_command_logs_once (self : MissionControl.App) :
  let cmd := MissionControl.cmd_entry self in
  let sent := MissionControl.send_command self in
  ((cmd = EmptyString \/ cmd = "Send Command..."%string) -> sent = self) /\
  (cmd <> EmptyString -> cmd <> "Send Command..."%string ->
   MissionControl.log_text sent =
     MissionControl.log_text self
       ++ [("INFO"%string,
            MissionControl.Text ("Command sent: " ++ cmd)%string)] /\
   MissionControl.cmd_entry sent = "Send Command..."%string) /\
  MissionControl.send_command sent = sent /\
  MissionControl.mission_running sent = MissionControl.mission_running self /\
  MissionControl.simulator sent = MissionControl.simulator self.
Proof.
  cbv zeta.
  assert (forall s t : string, (s =? t)%string = false <-> s <> t) as Hneq.
  { intros s t. rewrite <- String.eqb_neq. reflexivity. }
  split; [|split; [|split]].
  - intros [H|H]; unfold MissionControl.send_command; rewrite H;
      reflexivity.
  - intros H1 H2. unfold MissionControl.send_command.
    rewrite (proj2 (Hneq _ _) H1), (proj2 (Hneq _ _) H2).
    split; reflexivity.
  - destruct (negb (MissionControl.cmd_entry self =? EmptyString)%string
              && negb (MissionControl.cmd_entry self =? "Send Command...")%string)%bool
      eqn:Hb.
    + unfold MissionControl.send_command at 2 3. rewrite Hb.
      reflexivity.
    + unfold MissionControl.send_command at 2 3. rewrite Hb.
      unfold MissionControl.send_command. rewrite Hb. reflexivity.
  - destruct (send_command_frame self) as (E1 & E2 & _). auto.
Qed.

(** X18. In every window a session can reach the simulator is a reachable
    one, a running mission has a telemetry and a timer callback armed, and
    every event is handled without an exception, leading to a window of
    the session again. *)
Theorem session_never_raises
    (self : MissionControl.App) (e : MissionControl.event) (g : RandomState) :
  MissionControl.reachable self ->
  reachable (MissionControl.simulator self) /\
  (MissionControl.mission_running self = true ->
   (1 <= MissionControl.telemetry_callbacks self)%nat /\
   (1 <= MissionControl.timer_callbacks self)%nat) /\
  exists self' g',
    MissionControl.handle self e g = Ok (self', g') /\
    MissionControl.reachable self'.
Proof.
  intros Hreach.
  pose proof (app_reachable_invariant _ Hreach) as [Hsim Htel Htim].
  split; [exact Hsim|]. split; [auto|].
  destruct (handle_invariant self e g (mkAppInvariant _ Hsim Htel Htim))
    as (self' & g' & Heq & _).
  exists self', g'. split; [exact Heq|].
  exact (MissionControl.reachable_handle self e g self' g' Hreach Heq).
Qed.

Lemma session_never_raises_witness :
  reachable (MissionControl.simulator first_window) /\
  (MissionControl.mission_running first_window = true ->
   (1 <= MissionControl.telemetry_callbacks first_window)%nat /\
   (1 <= MissionControl.timer_callbacks first_window)%nat) /\
  exists self' g',
    MissionControl.handle first_window MissionControl.TelemetryTimeout
                          zero_noise = Ok (self', g') /\
    MissionControl.reachable self'.
Proof.
  apply (session_never_raises first_window MissionControl.TelemetryTimeout
           zero_noise).
  apply first_window_reachable.
Defined.

(** ** A stopped window *)

Lemma handle_stopped (self : MissionControl.App) (e : MissionControl.event)
    (g : RandomState) :
  MissionControl.mission_running self = false ->
  is_toggle e = false ->
  exists self' sent,
    MissionControl.handle self e g = Ok (self', g) /\
    MissionControl.mission_running self' = false /\
    MissionControl.simulator self' = MissionControl.simulator self /\
    MissionControl.elapsed_seconds self' = MissionControl.elapsed_seconds self /\
    MissionControl.timer_display self' = MissionControl.timer_display self /\
    MissionControl.display self' = MissionControl.display self /\
    MissionControl.telemetry_callbacks self' =
      (MissionControl.telemetry_callbacks self
       - occurrences is_telemetry_timeout [e])%nat /\
    MissionControl.timer_callbacks self' =
      (MissionControl.timer_callbacks self
       - occurrences is_timer_timeout [e])%nat /\
    MissionControl.log_text self' =
      MissionControl.log_text self ++ map command_line sent.
Proof.
  intros Hflag Hev.
  destruct e as [now| |now|text|]; cbn [MissionControl.handle];
    [discriminate| | | |].
  - unfold MissionControl.telemetry_timeout.
    destruct (MissionControl.telemetry_callbacks self) as [|k] eqn:Hk.
    + exists self, []. rewrite Hk, app_nil_r.
      repeat split; cbn; auto; lia.
    + rewrite update_telemetry_stopped by exact Hflag.
      eexists _, []. split; [reflexivity|]. cbn. rewrite app_nil_r.
      repeat split; auto; lia.
  - unfold MissionControl.timer_timeout.
    destruct (MissionControl.timer_callbacks self) as [|k] eqn:Hk.
    + exists self, []. rewrite Hk, app_nil_r.
      repeat split; cbn; auto; lia.
    + unfold MissionControl.update_mission_timer.
      cbn [MissionControl.mission_running]. rewrite Hflag.
      eexists _, []. split; [reflexivity|]. cbn. rewrite app_nil_r.
      repeat split; auto; lia.
  - eexists _, []. split; [reflexivity|]. cbn. rewrite app_nil_r.
    repeat split; auto; lia.
  - unfold MissionControl.send_command.
    destruct (_ && _)%bool.
    + eexists _, [MissionControl.cmd_entry self].
      split; [reflexivity|]. cbn. repeat split; auto; lia.
    + exists self, []. split; [reflexivity|]. cbn. rewrite app_nil_r.
      repeat split; auto; lia.
Qed.

Lemma occurrences_cons (kind : MissionControl.event -> bool)
    (e : MissionControl.event) (es : list MissionControl.event) :
  occurrences kind (e :: es) = (occurrences kind [e] + occurrences kind es)%nat.
Proof.
  unfold occurrences. cbn [List.filter].
  destruct (kind e); reflexivity.
Qed.

Lemma paused_window_stopped :
  MissionControl.mission_running paused_window = false /\
  MissionControl.telemetry_callbacks paused_window = 1%nat /\
  MissionControl.timer_callbacks paused_window = 1%nat.
Proof.
  assert (MissionControl.telemetry_callbacks first_window = 1%nat /\
          MissionControl.timer_callbacks first_window = 1%nat) as [Ht1 Ht2].
  { unfold first_window, MissionControl.__init__.
    destruct (toggle_mission_invariant MissionControl.built 0 zero_noise)
      as (self' & g'' & Heq & _ & _ & _ & Hstart).
    { apply reachable_init. }
    rewrite Heq. exact (Hstart eq_refl). }
  unfold paused_window.
  destruct (toggle_mission_invariant first_window 3 zero_noise)
    as (self' & g' & Heq & _ & Hflag & Hstop & _).
  { apply (app_simulator _ (app_reachable_invariant _ first_window_reachable)). }
  rewrite Heq.
  rewrite first_window_running in Hflag, Hstop.
  destruct (Hstop eq_refl) as (_ & _ & Htel & Htim).
  split; [exact Hflag|]. split; congruence.
Qed.

(** X14. A stopped window stays idle until START is pressed: whatever
    callbacks fire and whatever is typed and sent meanwhile, no variate is
    drawn, the simulator, the clock, the timer and the display stay as
    they are, every callback that fires is used up and none is armed
    again, and the log gains nothing but the lines of the commands
    sent. *)
Theorem stopped_window_stays_idle
    (self : MissionControl.App) (es : list MissionControl.event)
    (g : RandomState) :
  MissionControl.mission_running self = false ->
  Forall (fun e => is_toggle e = false) es ->
  exists self' sent,
    handle_seq self es g = Ok (self', g) /\
    MissionControl.mission_running self' = false /\
    MissionControl.simulator self' = MissionControl.simulator self /\
    MissionControl.elapsed_seconds self' = MissionControl.elapsed_seconds self /\
    MissionControl.timer_display self' = MissionControl.timer_display self /\
    MissionControl.display self' = MissionControl.display self /\
    MissionControl.telemetry_callbacks self' =
      (MissionControl.telemetry_callbacks self
       - occurrences is_telemetry_timeout es)%nat /\
    MissionControl.timer_callbacks self' =
      (MissionControl.timer_callbacks self
       - occurrences is_timer_timeout es)%nat /\
    MissionControl.log_text self' =
      MissionControl.log_text self ++ map command_line sent.
Proof.
  intros Hflag Hes. revert self Hflag.
  induction Hes as [|e es He _ IH]; intros self Hflag.
  - exists self, []. cbn. rewrite app_nil_r.
    repeat split; auto; lia.
  - destruct (handle_stopped self e g Hflag He)
      as (self1 & sent1 & Hstep & Hflag1 & Hsim1 & Hclk1 & Htd1 & Hd1
          & Htel1 & Htim1 & Hlog1).
    destruct (IH self1 Hflag1)
      as (self' & sent & Hrun & Hflag' & Hsim & Hclk & Htd & Hd
          & Htel & Htim & Hlog).
    exists self', (sent1 ++ sent).
    cbn [handle_seq]. unfold bind at 1. rewrite Hstep.
    split; [exact Hrun|].
    split; [exact Hflag'|].
    split; [congruence|]. split; [congruence|].
    split; [congruence|]. split; [congruence|].
    rewrite !(occurrences_cons _ e es).
    split; [lia|]. split; [lia|].
    rewrite Hlog, Hlog1, map_app, app_assoc. reflexivity.
Qed.

Lemma stopped_window_stays_idle_witness :
  MissionControl.telemetry_callbacks paused_window = 1%nat /\
  MissionControl.timer_callbacks paused_window = 1%nat /\
  exists self' sent,
    handle_seq paused_window
      [MissionControl.TelemetryTimeout; MissionControl.Type_ "PING";
       MissionControl.Send; MissionControl.TimerTimeout 4;
       MissionControl.TelemetryTimeout] zero_noise = Ok (self', zero_noise) /\
    MissionControl.mission_running self' = false /\
    MissionControl.simulator self' = MissionControl.simulator paused_window /\
    MissionControl.elapsed_seconds self' =
      MissionControl.elapsed_seconds paused_window /\
    MissionControl.timer_display self' =
      MissionControl.timer_display paused_window /\
    MissionControl.display self' = MissionControl.display paused_window /\
    MissionControl.telemetry_callbacks self' =
      (MissionControl.telemetry_callbacks paused_window
       - occurrences is_telemetry_timeout
           [MissionControl.TelemetryTimeout; MissionControl.Type_ "PING";
            MissionControl.Send; MissionControl.TimerTimeout 4;
            MissionControl.TelemetryTimeout])%nat /\
    MissionControl.timer_callbacks self' =
      (MissionControl.timer_callbacks paused_window
       - occurrences is_timer_timeout
           [MissionControl.TelemetryTimeout; MissionControl.Type_ "PING";
            MissionControl.Send; MissionControl.TimerTimeout 4;
            MissionControl.TelemetryTimeout])%nat /\
    MissionControl.log_text self' =
      MissionControl.log_text paused_window ++ map command_line sent.
Proof.
  split; [apply paused_window_stopped|].
  split; [apply paused_window_stopped|].
  apply (stopped_window_stays_idle paused_window
           [MissionControl.TelemetryTimeout; MissionControl.Type_ "PING";
            MissionControl.Send; MissionControl.TimerTimeout 4;
            MissionControl.TelemetryTimeout] zero_noise).
  - apply paused_window_stopped.
  - repeat constructor.
Defined.

(** * Facts about part four *)

Section AxesFacts.
Context {F : Type} {A : Axes.Arithmetic F}.

Lemma axes_roll_left_cons (x : F) (l : list F) :
  Axes.np_roll (x :: l) (-1) = l ++ [x].
Proof.
  unfold Axes.np_roll.
  change (- -1)%Z with 1%Z.
  destruct l as [|y l].
  - reflexivity.
  - rewrite Z.mod_small.
    + reflexivity.
    + cbn [length]. lia.
Qed.

Lemma axes_setitem_last (l : list F) (x v : F) :
  Axes.setitem (l ++ [x]) (-1) v = Ok (l ++ [v]).
Proof.
  unfold Axes.setitem.
  rewrite length_app. cbn [length].
  replace (length l + 1)%nat with (S (length l)) by lia.
  rewrite normalize_index_neg1.
  f_equal.
  rewrite insert_app_r_alt by lia.
  rewrite Nat.sub_diag. reflexivity.
Qed.

Lemma axes_getitem_penultimate (l : list F) (y x : F) :
  Axes.getitem (l ++ [y; x]) (-2) = Ok y.
Proof.
  unfold Axes.getitem.
  rewrite length_app. cbn [length].
  replace (length l + 2)%nat with (S (S (length l))) by lia.
  rewrite normalize_index_neg2.
  rewrite lookup_app_r by lia.
  rewrite Nat.sub_diag. reflexivity.
Qed.

Lemma axes_length_linspace (start stop : F) (num : nat) :
  length (Axes.np_linspace start stop num) = num.
Proof.
  unfold Axes.np_linspace, Axes.np_arange.
  destruct (0 <? num - 1)%nat; [destruct (Axes.eqb _ _)|];
    destruct (1 <? num)%nat;
    rewrite ?length_insert, !length_map; apply length_seq.
Qed.

Lemma axes_linspace_last (start stop : F) (num : nat) :
  (2 <= num)%nat -> last (Axes.np_linspace start stop num) = Some stop.
Proof.
  intros Hnum.
  rewrite last_lookup, axes_length_linspace.
  replace (Init.Nat.pred num) with (num - 1)%nat by lia.
  unfold Axes.np_linspace.
  rewrite (proj2 (Nat.ltb_lt 1 num)) by lia.
  apply list_lookup_insert_eq.
  unfold Axes.np_arange.
  destruct (0 <? num - 1)%nat; [destruct (Axes.eqb _ _)|];
    rewrite !length_map, length_seq; lia.
Qed.

(** One call, on a g-force axis of two elements or more. *)
Lemma axes_get_next_closed_form
    (t : F) (vt : list F) (g0 : F) (m : list F) (x : F) (dt : F) :
  Axes.get_next (Axes.mkSim t vt (g0 :: m ++ [x])) dt =
  Ok (Axes.mkSim (Axes.add t dt) vt
        ((m ++ [x]) ++ [Axes.add x (Axes.literal 55 3)])).
Proof.
  unfold Axes.get_next.
  cbn [Axes.elapsed_seconds Axes.velocity_time Axes.gforce_time].
  rewrite axes_roll_left_cons.
  rewrite <- (app_assoc m [x] [g0]). cbn [app].
  rewrite axes_getitem_penultimate.
  replace (m ++ [x; g0]) with ((m ++ [x]) ++ [g0])
    by (rewrite <- app_assoc; reflexivity).
  rewrite axes_setitem_last. reflexivity.
Qed.

Lemma axes_decompose (self : Axes.TelemetrySimulator F) :
  (2 <= length (Axes.gforce_time self))%nat ->
  exists t vt g0 m x, self = Axes.mkSim t vt (g0 :: m ++ [x]).
Proof.
  destruct self as [t vt gt]. cbn [Axes.gforce_time]. intros Hlen.
  destruct gt as [|g0 gt]; [cbn in Hlen; lia|].
  destruct (exists_last (l := gt)) as [m [x ->]].
  { intros ->. cbn in Hlen. lia. }
  eauto 10.
Qed.

Lemma axes_init_length :
  length (Axes.gforce_time (Axes.__init__ (A := A))) = 100%nat.
Proof. apply axes_length_linspace. Qed.

Lemma axes_get_next_length self dt self' :
  length (Axes.gforce_time self) = 100%nat ->
  Axes.get_next self dt = Ok self' ->
  length (Axes.gforce_time self') = 100%nat.
Proof.
  intros Hlen Hstep.
  destruct (axes_decompose self) as (t & vt & g0 & m & x & ->); [lia|].
  rewrite axes_get_next_closed_form in Hstep. injection Hstep as <-.
  cbn [Axes.gforce_time length] in *.
  rewrite !length_app in *. cbn [length] in *. lia.
Qed.

Lemma axes_reachable_length (self : Axes.TelemetrySimulator F) :
  Axes.reachable self -> length (Axes.gforce_time self) = 100%nat.
Proof.
  induction 1 as [| self _ _ | self dt self' _ IH Hstep].
  - apply axes_init_length.
  - apply axes_init_length.
  - exact (axes_get_next_length self dt self' IH Hstep).
Qed.

Lemma axes_ticks_length (newest : F) (n : nat) :
  length (Axes.ticks newest n) = n.
Proof.
  revert newest. induction n as [|n IH]; intros newest; cbn [Axes.ticks length].
  - reflexivity.
  - rewrite IH. reflexivity.
Qed.

(** A run of calls on a g-force axis of length 100. *)
Lemma axes_run (self : Axes.TelemetrySimulator F) (dts : list F) :
  length (Axes.gforce_time self) = 100%nat ->
  exists out newest,
    Axes.get_next_seq self dts = Ok out /\
    length out = length dts /\
    last (Axes.gforce_time self) = Some newest /\
    Axes.gforce_time (Axes.final self out) =
      drop (length dts)
           (Axes.gforce_time self ++ Axes.ticks newest (length dts)) /\
    last (Axes.gforce_time (Axes.final self out)) =
      last (newest :: Axes.ticks newest (length dts)) /\
    Axes.velocity_time (Axes.final self out) = Axes.velocity_time self /\
    Axes.clocks self out =
      Axes.elapsed_seconds self
        :: Axes.accumulate (Axes.elapsed_seconds self) dts.
Proof.
  revert self.
  induction dts as [|dt dts IH]; intros self Hlen.
  - destruct (axes_decompose self) as (t & vt & g0 & m & x & ->); [lia|].
    exists [], x. unfold Axes.final.
    cbn [Axes.get_next_seq length last default drop Axes.ticks].
    rewrite app_nil_r.
    split; [reflexivity|]. split; [reflexivity|].
    cbn [Axes.gforce_time].
    split; [rewrite last_cons, last_snoc; reflexivity|].
    split; [reflexivity|].
    split; [rewrite last_cons, last_snoc; reflexivity|].
    split; reflexivity.
  - destruct (axes_decompose self) as (t & vt & g0 & m & x & Hself); [lia|].
    pose proof (axes_get_next_closed_form t vt g0 m x dt) as Hstep.
    rewrite <- Hself in Hstep.
    pose proof (axes_get_next_length _ _ _ Hlen Hstep) as Hlen'.
    match type of Hstep with _ = Ok ?s => set (self1 := s) in * end.
    destruct (IH self1 Hlen')
      as (out & newest & Hrun & Hout & Hlast & Hgt & Hnew & Hvt & Hclk).
    exists (self1 :: out), x.
    cbn [Axes.get_next_seq]. rewrite Hstep, Hrun.
    assert (newest = Axes.add x (Axes.literal 55 3)) as ->.
    { subst self1. cbn [Axes.gforce_time] in Hlast.
      rewrite last_snoc in Hlast. congruence. }
    assert (Axes.final self (self1 :: out) = Axes.final self1 out) as ->.
    { unfold Axes.final. destruct out as [|a l]; [reflexivity|].
      rewrite last_cons. destruct (last (a :: l)) eqn:El; [reflexivity|].
      apply last_None in El. discriminate. }
    split; [reflexivity|].
    split; [cbn [length]; rewrite Hout; reflexivity|].
    split.
    { rewrite Hself. cbn [Axes.gforce_time].
      rewrite last_cons, last_snoc. reflexivity. }
    split.
    { rewrite Hgt. subst self1. rewrite Hself.
      cbn [Axes.gforce_time length Axes.ticks drop app].
      rewrite <- !app_assoc. reflexivity. }
    split.
    { rewrite Hnew. cbn [length Axes.ticks].
      rewrite (last_cons x). 
      destruct (last (Axes.add x (Axes.literal 55 3)
                        :: Axes.ticks (Axes.add x (Axes.literal 55 3))
                             (length dts))) eqn:El; [reflexivity|].
      apply last_None in El. discriminate. }
    split.
    { rewrite Hvt. subst self1. rewrite Hself. reflexivity. }
    unfold Axes.clocks in *. cbn [map].
    injection Hclk as Hclk. rewrite Hclk.
    subst self1. rewrite Hself. reflexivity.
Qed.

End AxesFacts.

(** ** The exact arithmetic: part one *)

Lemma axes_exact_linspace (start stop : R) (num : nat) :
  Axes.np_linspace (A := Axes.Exact) start stop num =
  np_linspace start stop num.
Proof.
  unfold Axes.np_linspace, np_linspace, Axes.np_arange, np_arange.
  cbn [Axes.of_Z Axes.add Axes.sub Axes.mul Axes.div Axes.eqb Axes.Exact].
  rewrite <- (INR_IZR_INZ (num - 1)).
  replace (map (fun i : nat => IZR (Z.of_nat i)) (seq 0 num))
    with (map INR (seq 0 num))
    by (apply map_ext; intros i; apply INR_IZR_INZ).
  destruct (0 <? num - 1)%nat; [|reflexivity].
  destruct (Req_dec_T ((stop - start) / INR (num - 1)) 0); reflexivity.
Qed.

Lemma axes_exact_literal_0_055 : Axes.literal (A := Axes.Exact) 55 3 = 0.055.
Proof.
  unfold Axes.literal. cbn [Axes.of_Z Axes.div Axes.Exact].
  change (10 ^ Z.of_nat 3)%Z with 1000%Z. lra.
Qed.

Lemma axes_exact_init : Axes.__init__ (A := Axes.Exact) = axes_of __init__.
Proof.
  unfold Axes.__init__, axes_of, __init__.
  cbn [elapsed_seconds velocity_time gforce_time].
  rewrite !axes_exact_linspace.
  unfold Axes.literal. cbn [Axes.of_Z Axes.div Axes.Exact].
  change (10 ^ Z.of_nat 1)%Z with 10%Z.
  repeat f_equal; lra.
Qed.

(** [get_next] of part one moves the clock and the axes as [Axes.get_next]
    does in the exact arithmetic. *)
Lemma axes_exact_get_next self dt g self' pkt g' :
  get_next self dt g = Ok ((self', pkt), g') ->
  invariant self ->
  Axes.get_next (A := Axes.Exact) (axes_of self) dt = Ok (axes_of self').
Proof.
  intros Hstep Hinv.
  destruct (invariant_decompose self Hinv)
    as (t & vt & v0 & vd & g0 & m & x & d0 & gd & ->).
  rewrite get_next_closed_form in Hstep. injection Hstep as <- _ _.
  unfold axes_of. cbn [elapsed_seconds velocity_time gforce_time].
  rewrite axes_get_next_closed_form, axes_exact_literal_0_055.
  reflexivity.
Qed.

(** ** Rounded arithmetic *)

Section RoundedFacts.
Variable r : Axes.Rounding.

Lemma no_rounding_representable (x : R) :
  Axes.representable Axes.no_rounding x.
Proof. reflexivity. Qed.



Lemma rounded_add_above (x y : R) :
  Axes.representable r x -> 0 <= y -> x <= Axes.add (Arithmetic := Axes.Rounded r) x y.
Proof.
  intros Hx Hy. cbn [Axes.add Axes.Rounded].
  unfold Axes.representable in Hx.
  rewrite <- Hx at 1. apply Axes.rnd_monotone. lra.
Qed.

Lemma rounded_linspace_representable (start stop : R) (num : nat) :
  Axes.representable r stop ->
  Forall (Axes.representable r) (Axes.np_linspace (A := Axes.Rounded r) start stop num).
Proof.
  intros Hstop. unfold Axes.np_linspace.
  assert (forall y : list R,
             Forall (Axes.representable r)
               (map (fun v => Axes.add (Arithmetic := Axes.Rounded r) v start) y)) as Hmap.
  { intros y. apply Forall_map, List.Forall_forall. intros v _.
    apply Axes.rnd_idempotent. }
  destruct (1 <? num)%nat; [apply Forall_insert; [|exact Hstop]|]; apply Hmap.
Qed.

Lemma rounded_invariant_init : rounded_invariant r (Axes.__init__ (A := Axes.Rounded r)).
Proof.
  constructor.
  - apply axes_init_length.
  - apply Axes.rnd_idempotent.
  - apply rounded_linspace_representable. apply Axes.rnd_idempotent.
Qed.

Lemma rounded_invariant_get_next self dt self' :
  rounded_invariant r self ->
  Axes.get_next (A := Axes.Rounded r) self dt = Ok self' ->
  rounded_invariant r self'.
Proof.
  intros [Hlen Hclk Hgt] Hstep.
  destruct (axes_decompose self) as (t & vt & g0 & m & x & ->); [lia|].
  rewrite axes_get_next_closed_form in Hstep. injection Hstep as <-.
  cbn [Axes.gforce_time Axes.elapsed_seconds] in *.
  constructor; cbn [Axes.gforce_time Axes.elapsed_seconds].
  - cbn [length] in Hlen. rewrite !length_app in *. cbn [length] in *. lia.
  - apply Axes.rnd_idempotent.
  - apply Forall_cons in Hgt as [_ Hgt].
    apply Forall_app. split; [exact Hgt|].
    constructor; [apply Axes.rnd_idempotent | constructor].
Qed.

Lemma rounded_reachable_invariant self :
  Axes.reachable (A := Axes.Rounded r) self -> rounded_invariant r self.
Proof.
  induction 1 as [| self _ _ | self dt self' _ IH Hstep].
  - apply rounded_invariant_init.
  - apply rounded_invariant_init.
  - exact (rounded_invariant_get_next self dt self' IH Hstep).
Qed.

Lemma rounded_accumulate_step (c : R) (dts : list R) (i : nat) (dt a a' : R) :
  dts !! i = Some dt ->
  (c :: Axes.accumulate (A := Axes.Rounded r) c dts) !! i = Some a ->
  (c :: Axes.accumulate (A := Axes.Rounded r) c dts) !! S i = Some a' ->
  a' = Axes.rnd r (a + dt).
Proof.
  revert c i.
  induction dts as [|d dts IH]; intros c i Hdt Ha Ha'.
  - discriminate.
  - destruct i as [|i].
    + cbn in Hdt, Ha, Ha'. congruence.
    + cbn [Axes.accumulate] in Ha, Ha'.
      apply (IH (Axes.rnd r (c + d)) i); assumption.
Qed.

Lemma rounded_accumulate_representable (c : R) (dts : list R) :
  Axes.representable r c ->
  Forall (Axes.representable r) (c :: Axes.accumulate (A := Axes.Rounded r) c dts).
Proof.
  intros Hc. constructor; [exact Hc|]. clear Hc. revert c.
  induction dts as [|d dts IH]; intros c; cbn [Axes.accumulate].
  - constructor.
  - constructor; [apply Axes.rnd_idempotent | apply IH].
Qed.

Lemma rounded_accumulate_above (c : R) (dts : list R) :
  Axes.representable r c ->
  Forall (fun dt => 0 < dt) dts ->
  Forall (Rle c) (Axes.accumulate (A := Axes.Rounded r) c dts).
Proof.
  revert c.
  induction dts as [|d dts IH]; intros c Hc Hpos; cbn [Axes.accumulate].
  - constructor.
  - apply Forall_cons in Hpos as [Hd Hpos].
    assert (c <= Axes.rnd r (c + d)) as Hstep
      by (apply (rounded_add_above c d Hc); lra).
    constructor; [exact Hstep|].
    eapply Forall_impl; [apply (IH (Axes.rnd r (c + d)))|].
    + apply Axes.rnd_idempotent.
    + exact Hpos.
    + cbn. intros y Hy. lra.
Qed.

Lemma rounded_accumulate_sorted (c : R) (dts : list R) :
  Axes.representable r c ->
  Forall (fun dt => 0 < dt) dts ->
  StronglySorted Rle (c :: Axes.accumulate (A := Axes.Rounded r) c dts).
Proof.
  revert c.
  induction dts as [|d dts IH]; intros c Hc Hpos.
  - repeat constructor.
  - constructor.
    + cbn [Axes.accumulate]. apply IH.
      * apply Axes.rnd_idempotent.
      * apply Forall_cons in Hpos as [_ Hpos]. exact Hpos.
    + apply rounded_accumulate_above; assumption.
Qed.

End RoundedFacts.

(** The clock at the end of a run is the left fold of the addition over the
    steps. *)
Lemma axes_accumulate_last {F : Type} {A : Axes.Arithmetic F}
    (c : F) (dts : list F) :
  last (c :: Axes.accumulate c dts) = Some (fold_left Axes.add dts c).
Proof.
  revert c. induction dts as [|dt dts IH]; intros c.
  - reflexivity.
  - cbn [Axes.accumulate fold_left].
    rewrite <- (IH (Axes.add c dt)).
    destruct (Axes.accumulate (Axes.add c dt) dts); reflexivity.
Qed.

Lemma axes_final_cons {F : Type} {A : Axes.Arithmetic F}
    (self a : Axes.TelemetrySimulator F) (out : list (Axes.TelemetrySimulator F)) :
  Axes.final self (a :: out) = Axes.final a out.
Proof.
  unfold Axes.final. destruct out as [|b l]; [reflexivity|].
  rewrite last_cons. destruct (last (b :: l)) eqn:El; [reflexivity|].
  apply last_None in El. discriminate.
Qed.

Lemma axes_final_clock {F : Type} {A : Axes.Arithmetic F}
    (self : Axes.TelemetrySimulator F) (out : list (Axes.TelemetrySimulator F)) :
  last (Axes.clocks self out) =
  Some (Axes.elapsed_seconds (Axes.final self out)).
Proof.
  revert self. induction out as [|a out IH]; intros self; [reflexivity|].
  rewrite axes_final_cons, <- IH. reflexivity.
Qed.

(** ** binary64 *)

(** The decimal literals of the source, as [Axes.literal] gives them. *)
Lemma binary64_literals :
  Axes.literal (A := Axes.Binary64) 55 3 = 0.055%float /\
  Axes.literal (A := Axes.Binary64) 5 1 = 0.5%float /\
  Axes.literal (A := Axes.Binary64) 1 17 = 1e-17%float /\
  Axes.literal (A := Axes.Binary64) (-15) 1 = (-1.5)%float /\
  Axes.literal (A := Axes.Binary64) 40 1 = 4%float.
Proof. repeat split; reflexivity. Qed.

(** The constructor in binary64: the clock is 0 and the g-force time axis
    ends at 4.0. *)
Lemma binary64_init :
  Axes.elapsed_seconds fresh_binary64 = 0%float /\
  length (Axes.gforce_time fresh_binary64) = 100%nat /\
  Axes.gforce_time fresh_binary64 !! 0%nat
    = Some (-1.5)%float /\
  last (Axes.gforce_time fresh_binary64)
    = Some 4%float /\
  last (Axes.velocity_time fresh_binary64)
    = Some 0%float.
Proof. repeat split; vm_compute; reflexivity. Qed.

(** With the default step 0.5 the clock is exact: over the first 1000
    calls on a fresh simulator it passes through the halves [k / 2]. *)
Lemma binary64_default_steps_exact :
  exists out,
    Axes.get_next_seq fresh_binary64 (repeat 0.5%float 1000) = Ok out /\
    Axes.clocks fresh_binary64 out =
      map (fun k => PrimFloat.div (Axes.float_of_Z (Z.of_nat k)) 2%float)
          (seq 0 1001).
Proof. eexists. split; vm_compute; reflexivity. Qed.

(** Three steps of 0.1 bring the clock to 0.30000000000000004. *)
Lemma binary64_tenth_steps :
  exists out,
    Axes.get_next_seq (A := Axes.Binary64) fresh_binary64
      [0.1; 0.1; 0.1]%float = Ok out /\
    Axes.clocks fresh_binary64 out =
      [0; 0.1; 0.2; 0.30000000000000004]%float.
Proof. eexists. split; vm_compute; reflexivity. Qed.

(** The clock depends on the order of the steps. *)
Lemma binary64_clock_depends_on_order :
  fold_left (Axes.add (Arithmetic := Axes.Binary64)) [1e16; 1; 1]%float 0%float
    = 1e16%float /\
  fold_left (Axes.add (Arithmetic := Axes.Binary64)) [1; 1; 1e16]%float 0%float
    = 10000000000000002%float.
Proof. split; vm_compute; reflexivity. Qed.

(** Two calls on a fresh simulator append 4.055 and 4.109999999999999 to
    the g-force time axis, not 4.11. *)
Lemma binary64_first_ticks :
  Axes.ticks (A := Axes.Binary64) 4%float 2 =
    [4.055; 4.109999999999999]%float /\
  PrimFloat.eqb 4.109999999999999%float 4.11%float = false.
Proof. split; vm_compute; reflexivity. Qed.

(** Over the first 1000 calls on a fresh simulator every time appended to
    the g-force time axis is above the one before. *)
Lemma binary64_first_ticks_increase :
  forallb (fun p => PrimFloat.ltb (fst p) (snd p))
    (combine (4%float :: Axes.ticks (A := Axes.Binary64) 4%float 1000)
             (Axes.ticks (A := Axes.Binary64) 4%float 1000)) = true.
Proof. vm_compute. reflexivity. Qed.

(** ** The clock *)

(** C1, as the specification states it, fails in binary64: on a fresh
    simulator [get_next(0.5)] followed by [get_next(1e-17)], a call with a
    positive step, returns with the clock where it was, at 0.5. *)
Lemma positive_step_leaves_clock_unchanged :
  exists self1 self2,
    PrimFloat.ltb 0%float 1e-17%float = true /\
    Axes.get_next (A := Axes.Binary64) fresh_binary64 0.5%float = Ok self1 /\
    Axes.get_next (A := Axes.Binary64) self1 1e-17%float = Ok self2 /\
    Axes.elapsed_seconds self1 = 0.5%float /\
    Axes.elapsed_seconds self2 = 0.5%float.
Proof. eexists _, _. repeat split; vm_compute; reflexivity. Qed.

(** In the format of the multiples of 1/2 a step of 1/4 is lost. *)
Lemma down_to_halves_absorbs :
  Axes.add (Arithmetic := Axes.Rounded Axes.down_to_halves) 0.5 0.25 = 0.5.
Proof.
  cbn [Axes.add Axes.Rounded Axes.rnd Axes.down_to_halves].
  replace ((0.5 + 0.25) * 2) with 1.5 by lra.
  rewrite <- (Int_part_spec 1.5 1) by lra. lra.
Qed.

(** C1, amended. In an arithmetic that rounds each result, a run of
    [get_next] calls with positive steps from a reachable simulator
    returns; each call sets the clock to the rounded sum of the clock and
    its step, which is not below the clock before and is the exact sum, and
    above the clock before, when the sum needs no rounding; the clock
    values never decrease along the run. *)
Theorem clock_advances_by_rounded_step
    (r : Axes.Rounding) (self : Axes.TelemetrySimulator R) (dts : list R) :
  Axes.reachable (A := Axes.Rounded r) self ->
  Forall (fun dt => 0 < dt) dts ->
  exists out,
    Axes.get_next_seq (A := Axes.Rounded r) self dts = Ok out /\
    length out = length dts /\
    (forall i dt c c',
        dts !! i = Some dt ->
        Axes.clocks self out !! i = Some c ->
        Axes.clocks self out !! S i = Some c' ->
        c' = Axes.rnd r (c + dt) /\
        c <= c' /\
        (Axes.representable r (c + dt) -> c' = c + dt /\ c < c')) /\
    StronglySorted Rle (Axes.clocks self out).
Proof.
  intros Hreach Hpos.
  pose proof (rounded_reachable_invariant r self Hreach) as [Hlen Hclk _].
  destruct (axes_run (A := Axes.Rounded r) self dts Hlen)
    as (out & newest & Hrun & Hout & _ & _ & _ & _ & Hclocks).
  exists out. rewrite Hclocks.
  split; [exact Hrun|]. split; [exact Hout|]. split.
  - intros i dt c c' Hdt Hc Hc'.
    pose proof (rounded_accumulate_step r _ _ _ _ _ _ Hdt Hc Hc') as ->.
    assert (Axes.representable r c) as Hrep.
    { exact (Forall_lookup_1 _ _ _ _
               (rounded_accumulate_representable r _ dts Hclk) Hc). }
    assert (0 < dt) as Hdtpos.
    { exact (Forall_lookup_1 _ _ _ _ Hpos Hdt). }
    split; [reflexivity|]. split.
    + apply (rounded_add_above r c dt Hrep). lra.
    + intros Hsum. unfold Axes.representable in Hsum. rewrite Hsum.
      split; [reflexivity | lra].
  - apply rounded_accumulate_sorted; assumption.
Qed.

Lemma clock_advances_by_rounded_step_witness :
  exists out,
    Axes.get_next_seq (A := Axes.Rounded Axes.down_to_halves)
      fresh_halves [0.5; 0.25] = Ok out /\
    length out = length [0.5; 0.25] /\
    (forall i dt c c',
        [0.5; 0.25] !! i = Some dt ->
        Axes.clocks fresh_halves out !! i = Some c ->
        Axes.clocks fresh_halves out !! S i = Some c' ->
        c' = Axes.rnd Axes.down_to_halves (c + dt) /\
        c <= c' /\
        (Axes.representable Axes.down_to_halves (c + dt) ->
         c' = c + dt /\ c < c')) /\
    StronglySorted Rle (Axes.clocks fresh_halves out).
Proof.
  apply (clock_advances_by_rounded_step Axes.down_to_halves
           fresh_halves [0.5; 0.25]).
  - apply Axes.reachable_init.
  - repeat constructor; lra.
Defined.

(** X5. After a run of [get_next] calls the clock is what adding the steps
    to the starting clock, one after the other in the order of the calls,
    gives in the arithmetic of the program, whatever the signs of the
    steps. *)
Theorem clock_accumulates_steps {F : Type} {A : Axes.Arithmetic F}
    (self : Axes.TelemetrySimulator F) (dts : list F) :
  Axes.reachable self ->
  exists out,
    Axes.get_next_seq self dts = Ok out /\
    length out = length dts /\
    Axes.elapsed_seconds (Axes.final self out) =
      fold_left Axes.add dts (Axes.elapsed_seconds self).
Proof.
  intros Hreach.
  destruct (axes_run self dts (axes_reachable_length self Hreach))
    as (out & newest & Hrun & Hout & _ & _ & _ & _ & Hclocks).
  exists out. split; [exact Hrun|]. split; [exact Hout|].
  pose proof (axes_final_clock self out) as Hlast.
  rewrite Hclocks, axes_accumulate_last in Hlast.
  congruence.
Qed.

Lemma clock_accumulates_steps_witness :
  exists out,
    Axes.get_next_seq (A := Axes.Binary64) fresh_binary64
      [0.1; 0.2; 0.3; -0.25]%float = Ok out /\
    length out = length [0.1; 0.2; 0.3; -0.25]%float /\
    Axes.elapsed_seconds (Axes.final fresh_binary64 out) =
      fold_left (Axes.add (Arithmetic := Axes.Binary64))
        [0.1; 0.2; 0.3; -0.25]%float (Axes.elapsed_seconds fresh_binary64).
Proof.
  apply (clock_accumulates_steps (A := Axes.Binary64) fresh_binary64
           [0.1; 0.2; 0.3; -0.25]%float).
  apply Axes.reachable_init.
Defined.

(** ** The g-force time axis *)




(** X3. After a run of [n] calls the g-force time axis is the old axis
    followed by the [n] times the calls appended, each the sum, in the
    arithmetic of the program, of the one before and 0.055, with the first
    [n] elements dropped; from 100 calls on it consists of appended times
    only; the steps of the calls do not enter. *)
Theorem gforce_time_accumulates_ticks {F : Type} {A : Axes.Arithmetic F}
    (self : Axes.TelemetrySimulator F) (dts : list F) :
  Axes.reachable self ->
  exists out newest,
    Axes.get_next_seq self dts = Ok out /\
    last (Axes.gforce_time self) = Some newest /\
    Axes.gforce_time (Axes.final self out) =
      drop (length dts)
           (Axes.gforce_time self ++ Axes.ticks newest (length dts)) /\
    last (Axes.gforce_time (Axes.final self out)) =
      last (newest :: Axes.ticks newest (length dts)) /\
    ((100 <= length dts)%nat ->
     Axes.gforce_time (Axes.final self out) =
       drop (length dts - 100) (Axes.ticks newest (length dts))).
Proof.
  intros Hreach.
  pose proof (axes_reachable_length self Hreach) as Hlen.
  destruct (axes_run self dts Hlen)
    as (out & newest & Hrun & _ & Hlast & Hgt & Hnew & _ & _).
  exists out, newest.
  split; [exact Hrun|]. split; [exact Hlast|].
  split; [exact Hgt|]. split; [exact Hnew|].
  intros Hn. rewrite Hgt.
  rewrite drop_app_ge by lia.
  rewrite Hlen. reflexivity.
Qed.

Lemma gforce_time_accumulates_ticks_witness :
  exists out newest,
    Axes.get_next_seq (A := Axes.Binary64) fresh_binary64 [0.5; 2]%float
      = Ok out /\
    last (Axes.gforce_time fresh_binary64)
      = Some newest /\
    Axes.gforce_time (Axes.final fresh_binary64 out) =
      drop (length [0.5; 2]%float)
           (Axes.gforce_time fresh_binary64
              ++ Axes.ticks newest (length [0.5; 2]%float)) /\
    last (Axes.gforce_time (Axes.final fresh_binary64 out)) =
      last (newest :: Axes.ticks newest (length [0.5; 2]%float)) /\
    ((100 <= length [0.5; 2]%float)%nat ->
     Axes.gforce_time (Axes.final fresh_binary64 out) =
       drop (length [0.5; 2]%float - 100)
            (Axes.ticks newest (length [0.5; 2]%float))).
Proof.
  apply (gforce_time_accumulates_ticks (A := Axes.Binary64) fresh_binary64
           [0.5; 2]%float).
  apply Axes.reachable_init.
Defined.
